(** * Building physical plans from DAG protocol buffers

    A shallow embedding of [planner/core/pb_to_plan.go]: the
    [PBPlanBuilder] that turns an ordered list of [tipb.Executor]
    descriptors into a chain of physical plan nodes, and the predicate
    push-down pass that lets a memory-table scan's extractor absorb the
    conditions of the selection above it.

    Go values are immutable Rocq values; a Go call that returns
    [(value, error)] returns an [Outcome]; a run-time panic (a nil
    dereference, an index out of range) is the outcome [Panic].  The
    builder's mutable fields are threaded explicitly. *)

From Stdlib Require Import ZArith List String Ascii Bool Lia Permutation.
Import ListNotations.
Local Open Scope Z_scope.

#[local] Set Warnings "-register-all".

(** ** The wire descriptors *)

Module tipb.

(** [tipb.ExecType]: the kinds [pbToPhysicalPlan] dispatches on, and every
    other code. *)
Inductive ExecType : Type :=
| ExecType_TypeTableScan
| ExecType_TypeSelection
| ExecType_TypeTopN
| ExecType_TypeLimit
| ExecType_TypeAggregation
| ExecType_TypeStreamAgg
| ExecType_TypeKill
| ExecType_Other (code : Z).

(** [tipb.Expr], the wire form of an expression: a tag, a payload and
    sub-expressions.  Only the expression decoder looks inside. *)
Inductive Expr : Type :=
| mkExpr (Tp : Z) (Val : list Byte.byte) (Children : list Expr).

Module ColumnInfo.
Record t : Type := mk {
  ColumnId : Z
}.
End ColumnInfo.

Module TableScan.
Record t : Type := mk {
  TableId : Z;
  Columns : list ColumnInfo.t;
  Desc : bool
}.
End TableScan.

Module Selection.
Record t : Type := mk {
  Conditions : list Expr
}.
End Selection.

Module ByItem.
Record t : Type := mk {
  Expr : tipb.Expr;
  Desc : bool
}.
End ByItem.

Module TopN.
Record t : Type := mk {
  OrderBy : list ByItem.t;
  Limit : Z
}.
End TopN.

Module Limit.
Record t : Type := mk {
  Limit : Z
}.
End Limit.

Module Aggregation.
Record t : Type := mk {
  GroupBy : list Expr;
  AggFunc : list Expr
}.
End Aggregation.

Module Kill.
Record t : Type := mk {
  ConnID : Z;
  Query : bool
}.
End Kill.

(** [tipb.Executor]: the kind and one pointer per kind, [None] for nil. *)
Module Executor.
Record t : Type := mk {
  Tp : ExecType;
  TblScan : option TableScan.t;
  Selection : option Selection.t;
  TopN : option TopN.t;
  Limit : option Limit.t;
  Aggregation : option Aggregation.t;
  Kill : option Kill.t
}.
End Executor.

End tipb.

(** ** Outcomes of Go calls *)

(** The errors a build returns.  The ones of this file carry what their
    message is formatted from; [ErrExternal] is an error value handed back
    by a collaborator (expression decoder, row codec). *)
Inductive error : Type :=
| ErrExecTypeNotSupported (tp : tipb.ExecType)
| ErrTableNotExists (tableID : Z)
| ErrDatabaseNotExists (tableID : Z)
| ErrNotClusterTable (name : string)
| ErrColumnNotFound (columnID : Z) (table : string)
| ErrExternal (code : Z).

Inductive Outcome (A : Type) : Type :=
| Ok (a : A)
| Err (e : error)
| Panic.

Arguments Ok {A} a.
Arguments Err {A} e.
Arguments Panic {A}.

Definition bindO {A B : Type} (m : Outcome A) (f : A -> Outcome B) : Outcome B :=
  match m with
  | Ok a => f a
  | Err e => Err e
  | Panic => Panic
  end.

(** [mapO f xs]: call [f] on each element in order, stop at the first one
    that does not return normally. *)
Fixpoint mapO {A B : Type} (f : A -> Outcome B) (xs : list A) : Outcome (list B) :=
  match xs with
  | [] => Ok []
  | x :: rest =>
      bindO (f x) (fun y => bindO (mapO f rest) (fun ys => Ok (y :: ys)))
  end.

(** ** Data of the collaborating packages *)

Module types.

(** [types.FieldType], by value. *)
Record FieldType : Type := mkFieldType {
  Tp : Z;
  Flag : Z;
  Flen : Z;
  Decimal : Z
}.

(** [FieldType.Clone] returns a fresh copy: the same value. *)
Definition Clone (ft : FieldType) : FieldType := ft.

(** The calendar fields [decodeToTime] reads off a [types.Time]. *)
Record CoreTime : Type := mkCoreTime {
  Year : Z;
  Month : Z;
  Day : Z;
  Hour : Z;
  Minute : Z;
  Second : Z;
  Microsecond : Z
}.

End types.

Module model.

Record CIStr : Type := mkCIStr {
  O : string;
  L : string
}.

Module ColumnInfo.
Record t : Type := mk {
  ID : Z;
  Name : CIStr;
  FieldType : types.FieldType
}.
End ColumnInfo.

Module TableInfo.
Record t : Type := mk {
  ID : Z;
  Name : CIStr;
  Columns : list ColumnInfo.t
}.
End TableInfo.

Module DBInfo.
Record t : Type := mk {
  Name : CIStr
}.
End DBInfo.

End model.

Module FieldName.
(** [types.FieldName], as [predicatePushDown] fills it. *)
Record t : Type := mk {
  TblName : model.CIStr;
  ColName : model.CIStr;
  OrigTblName : model.CIStr;
  OrigColName : model.CIStr
}.
End FieldName.

Module coprocessor.
Record KeyRange : Type := mkKeyRange {
  Start : list Byte.byte;
  End : list Byte.byte
}.
End coprocessor.

Module infoschema.

(** [table.Table], through the two methods the builder calls. *)
Record Table : Type := mkTable {
  Meta : model.TableInfo.t;
  IsClusterTable : bool
}.

(** [infoschema.InfoSchema], through the two methods the builder calls. *)
Record InfoSchema : Type := mkInfoSchema {
  TableByID : Z -> option Table;
  SchemaByTable : model.TableInfo.t -> option model.DBInfo.t
}.

(** Modelled from the spec: the name of the cluster slow-log table, the
    constant [infoschema.ClusterTableSlowLog] the scan's upper-cased name
    is compared with. *)
Definition ClusterTableSlowLog : string := "CLUSTER_SLOW_QUERY".

End infoschema.

(** ** The time-range decoder *)

(** What [decodeTimeRanges] and [decodeToTime] call outside this file:
    [tablecodec] for the row key, [kv.Handle.EncodedCol], the chunk decoder
    ([DecodeOne] stands for the decode into a one-row chunk followed by
    reading the datum back as a time), and [time.Date(..., time.UTC).UnixNano()]. *)
Class RowCodec : Type := {
  Handle : Type;
  RecordRowKeyLen : nat;
  DecodeRowKey : list Byte.byte -> Outcome Handle;
  EncodedCol : Handle -> Z -> Outcome (list Byte.byte);
  DecodeOne : list Byte.byte -> Outcome types.CoreTime;
  DateUTCUnixNano : Z -> Z -> Z -> Z -> Z -> Z -> Z -> Z
}.

Section TimeRanges.

Context {codec : RowCodec}.

Definition decodeToTime (handle : Handle) : Outcome Z :=
  bindO (EncodedCol handle 0) (fun raw =>
  match DecodeOne raw with
  | Err e => Err e
  | Panic => Panic
  | Ok mysqlTime =>
      Ok (DateUTCUnixNano (types.Year mysqlTime) (types.Month mysqlTime)
            (types.Day mysqlTime) (types.Hour mysqlTime)
            (types.Minute mysqlTime) (types.Second mysqlTime)
            (types.Microsecond mysqlTime * 1000))
  end).

(** One side of a key range: a row key that does not decode gives time 0,
    a handle whose column does not decode gives the error back. *)
Definition decodeBound (key : list Byte.byte) : Outcome Z :=
  match DecodeRowKey key with
  | Err _ => Ok 0
  | Panic => Panic
  | Ok handle => decodeToTime handle
  end.

(** The loop of [decodeTimeRanges], [krs] being the slice appended to.
    The guard tests [kr.Start] twice, as the source does. *)
Fixpoint decodeTimeRangesFrom (keyRanges : list coprocessor.KeyRange)
    (krs : list (Z * Z)) : Outcome (list (Z * Z)) :=
  match keyRanges with
  | [] => Ok krs
  | kr :: rest =>
      if (RecordRowKeyLen <=? List.length (coprocessor.Start kr))%nat
         && (RecordRowKeyLen <=? List.length (coprocessor.Start kr))%nat
      then
        bindO (decodeBound (coprocessor.Start kr)) (fun startTime =>
        bindO (decodeBound (coprocessor.End kr)) (fun endTime =>
        decodeTimeRangesFrom rest (krs ++ [(startTime, endTime)])))
      else decodeTimeRangesFrom rest krs
  end.

Definition decodeTimeRanges (keyRanges : list coprocessor.KeyRange)
    : Outcome (list (Z * Z)) :=
  decodeTimeRangesFrom keyRanges [].

End TimeRanges.

(** ** Expressions and schemas *)

Module expression.

(** [expression.Column]: the fields this file sets or reads.  [Index] is the
    column's position in the row it is evaluated on, a Go [int]. *)
Record Column : Type := mkColumn {
  UniqueID : Z;
  ID : Z;
  Index : Z;
  RetType : types.FieldType
}.

(** Modelled from the spec: an expression decoded from the wire is a column
    reference, a constant, or a function applied to expressions; these are
    the shapes [ExtractColumnsFromExpressions] tells apart (a column is
    collected, a function's arguments are searched, anything else holds no
    column). *)
Inductive Expression : Type :=
| Col (c : Column)
| Constant (value : Z)
| ScalarFunction (FuncName : string) (args : list Expression).

(** [expression.Schema]: the ordered output columns. *)
Record Schema : Type := mkSchema {
  Columns : list Column
}.

Definition NewSchema (cols : list Column) : Schema := mkSchema cols.

Definition Append (s : Schema) (col : Column) : Schema :=
  mkSchema (Columns s ++ [col]).

(** Modelled from the spec: the column references of an expression, left to
    right, appended to [result] ([extractColumns] with no filter). *)
Fixpoint extractColumns (result : list Column) (expr : Expression) : list Column :=
  match expr with
  | Col v => result ++ [v]
  | Constant _ => result
  | ScalarFunction _ args =>
      (fix over (result : list Column) (args : list Expression) : list Column :=
         match args with
         | [] => result
         | arg :: rest => over (extractColumns result arg) rest
         end) result args
  end.

(** Modelled from the spec: the column references of all the expressions,
    in order, appended to [result] (the call of this file passes no
    filter). *)
Fixpoint ExtractColumnsFromExpressions (result : list Column)
    (exprs : list Expression) : list Column :=
  match exprs with
  | [] => result
  | expr :: rest => ExtractColumnsFromExpressions (extractColumns result expr) rest
  end.

End expression.

Module aggregation.
(** [aggregation.AggFuncDesc]: name, arguments and result type. *)
Record AggFuncDesc : Type := mkAggFuncDesc {
  Name : string;
  Args : list expression.Expression;
  RetTp : types.FieldType
}.
End aggregation.

Module util.
Record ByItems : Type := mkByItems {
  Expr : expression.Expression;
  Desc : bool
}.
End util.

(** The expression decoder, called with the builder's type context [tps]. *)
Class ExprDecoder : Type := {
  PBToExpr : tipb.Expr -> list types.FieldType -> Outcome expression.Expression;
  PBToExprs : list tipb.Expr -> list types.FieldType
              -> Outcome (list expression.Expression);
  PBExprToAggFuncDesc : tipb.Expr -> list types.FieldType
                        -> Outcome aggregation.AggFuncDesc
}.

(** The predicate extractor a memory-table scan may carry.  [Extractor_t]
    is its state; [Extract] returns the state after the call and the
    remaining predicates.  [newSlowQueryExtractor] is
    [&SlowQueryExtractor{}]; [setDesc] assigns its [Desc] field. *)
Class MemTablePredicateExtractor : Type := {
  Extractor_t : Type;
  newSlowQueryExtractor : Extractor_t;
  setDesc : Extractor_t -> bool -> Extractor_t;
  setTimeRange : Extractor_t -> Z -> Z -> Extractor_t;
  Extract : Extractor_t -> expression.Schema -> list FieldName.t
            -> list expression.Expression
            -> Extractor_t * list expression.Expression
}.

(** ** Session variables *)

Module variable.

Record SessionVars : Type := mkSessionVars {
  PlanColumnID : Z
}.

(** Modelled from the spec: the session's column-identifier allocator is a
    monotonically increasing counter; each call adds one and returns the new
    value. *)
Definition AllocPlanColumnID (s : SessionVars) : Z * SessionVars :=
  (PlanColumnID s + 1, mkSessionVars (PlanColumnID s + 1)).

End variable.

(** ** Physical plans *)

Module ast.
Record KillStmt : Type := mkKillStmt {
  ConnectionID : Z;
  Query : bool
}.
End ast.

Record Simple : Type := mkSimple {
  Statement : ast.KillStmt;
  IsFromRemote : bool
}.

Section Plans.

Context {extractor : MemTablePredicateExtractor}.

(** [PhysicalMemTable]: [Extractor] is [None] for a nil interface. *)
Record PhysicalMemTable : Type := mkPhysicalMemTable {
  DBName : model.CIStr;
  Table : model.TableInfo.t;
  Columns : list model.ColumnInfo.t;
  schema : expression.Schema;
  Extractor : option Extractor_t
}.

(** What a plan node holds besides its children, by concrete type. *)
Inductive PlanNode : Type :=
| PhysicalMemTable_ (memTable : PhysicalMemTable)
| PhysicalSelection (Conditions : list expression.Expression)
| PhysicalTopN (ByItems : list util.ByItems) (Count : Z)
| PhysicalLimit (Count : Z)
| PhysicalHashAgg (AggFuncs : list aggregation.AggFuncDesc)
    (GroupByItems : list expression.Expression) (aggSchema : expression.Schema)
| PhysicalStreamAgg (AggFuncs : list aggregation.AggFuncDesc)
    (GroupByItems : list expression.Expression) (aggSchema : expression.Schema)
| PhysicalSimpleWrapper (Inner : Simple).

(** A [PhysicalPlan] that is not nil: the node and the [children] slice of
    its [basePhysicalPlan]. *)
Inductive PhysicalPlan : Type :=
| Plan (self : PlanNode) (children : list PhysicalPlan).

Definition Self (p : PhysicalPlan) : PlanNode :=
  match p with Plan self _ => self end.

Definition Children (p : PhysicalPlan) : list PhysicalPlan :=
  match p with Plan _ children => children end.

Definition SetChildren (p : PhysicalPlan) (children : list PhysicalPlan) : PhysicalPlan :=
  match p with Plan self _ => Plan self children end.

(** *** Predicate push-down *)

(** [cols[i].UniqueID = schemaCols[cols[i].Index].UniqueID]: an index
    outside the slice panics. *)
Definition setUniqueID (schemaCols : list expression.Column)
    (c : expression.Column) : Outcome expression.Column :=
  if expression.Index c <? 0 then Panic
  else
    match nth_error schemaCols (Z.to_nat (expression.Index c)) with
    | None => Panic
    | Some sc =>
        Ok (expression.mkColumn (expression.UniqueID sc) (expression.ID c)
              (expression.Index c) (expression.RetType c))
    end.

(** The assignment loop over the columns extracted from the predicates.
    The columns are pointers into the predicates, so the loop updates the
    predicates in place: here every column reference of an expression is
    rewritten where it stands. *)
Fixpoint rebindExpr (schemaCols : list expression.Column)
    (e : expression.Expression) : Outcome expression.Expression :=
  match e with
  | expression.Col c =>
      bindO (setUniqueID schemaCols c) (fun c' => Ok (expression.Col c'))
  | expression.Constant v => Ok (expression.Constant v)
  | expression.ScalarFunction f args =>
      bindO
        ((fix over (args : list expression.Expression)
            : Outcome (list expression.Expression) :=
            match args with
            | [] => Ok []
            | arg :: rest =>
                bindO (rebindExpr schemaCols arg) (fun arg' =>
                bindO (over rest) (fun rest' => Ok (arg' :: rest')))
            end) args)
        (fun args' => Ok (expression.ScalarFunction f args'))
  end.

Definition rebindColumns (schemaCols : list expression.Column)
    (predicates : list expression.Expression)
    : Outcome (list expression.Expression) :=
  mapO (rebindExpr schemaCols) predicates.

Definition fieldNames (memTable : PhysicalMemTable) : list FieldName.t :=
  map (fun col =>
         FieldName.mk (model.TableInfo.Name (Table memTable))
           (model.ColumnInfo.Name col)
           (model.TableInfo.Name (Table memTable))
           (model.ColumnInfo.Name col))
      (Columns memTable).

Definition withExtractor (memTable : PhysicalMemTable) (e : Extractor_t)
    : PhysicalMemTable :=
  mkPhysicalMemTable (DBName memTable) (Table memTable) (Columns memTable)
    (schema memTable) (Some e).

(** [predicatePushDown] on a plan that is not nil.  [p.Children()[0]] of a
    selection without children panics.  A child is never nil (the builder
    sets only plans it has built, the pass only plans it returns), so the
    test [p == nil] is decided where the pass is called on the root, in
    [predicatePushDownNilable]. *)
Fixpoint predicatePushDown (p : PhysicalPlan)
    (predicates : list expression.Expression) {struct p}
    : Outcome (list expression.Expression * PhysicalPlan) :=
  match p with
  | Plan (PhysicalMemTable_ memTable) children =>
      match Extractor memTable with
      | None => Ok (predicates, p)
      | Some ex =>
          let names := fieldNames memTable in
          let schemaCols := expression.Columns (schema memTable) in
          bindO (rebindColumns schemaCols predicates) (fun predicates =>
          let (ex', predicates) := Extract ex (schema memTable) names predicates in
          Ok (predicates, Plan (PhysicalMemTable_ (withExtractor memTable ex')) children))
      end
  | Plan (PhysicalSelection selConditions) children =>
      match children with
      | [] => Panic
      | child0 :: _ =>
          bindO (predicatePushDown child0 selConditions) (fun '(conditions, child) =>
          if (0 <? List.length conditions)%nat
          then Ok (predicates, Plan (PhysicalSelection conditions) [child])
          else Ok (predicates, child))
      end
  | Plan self children =>
      match children with
      | child0 :: _ =>
          bindO (predicatePushDown child0 []) (fun '(_, child) =>
          Ok (predicates, Plan self [child]))
      | [] => Ok (predicates, p)
      end
  end.

(** [predicatePushDown] as called on a possibly nil plan. *)
Definition predicatePushDownNilable (p : option PhysicalPlan)
    (predicates : list expression.Expression)
    : Outcome (list expression.Expression * option PhysicalPlan) :=
  match p with
  | None => Ok (predicates, None)
  | Some p =>
      bindO (predicatePushDown p predicates) (fun '(predicates, p) =>
      Ok (predicates, Some p))
  end.

End Plans.

(** ** The plan builder *)

(** [PBPlanBuilder].  [is_] is the Go field [is], a reserved word here;
    [sctx] stands for the session variables reached through the session
    context; [ranges] is [None] for a nil slice. *)
Record PBPlanBuilder : Type := mkPBPlanBuilder {
  sctx : variable.SessionVars;
  tps : list types.FieldType;
  is_ : infoschema.InfoSchema;
  ranges : option (list coprocessor.KeyRange)
}.

Definition NewPBPlanBuilder (sctx : variable.SessionVars)
    (is_ : infoschema.InfoSchema) (ranges : option (list coprocessor.KeyRange))
    : PBPlanBuilder :=
  mkPBPlanBuilder sctx [] is_ ranges.

(** A method of the builder: the outcome of the call and the builder after
    it. *)
Definition M (A : Type) : Type := PBPlanBuilder -> Outcome A * PBPlanBuilder.

Definition ret {A : Type} (a : A) : M A := fun b => (Ok a, b).

Definition fail {A : Type} (e : error) : M A := fun b => (Err e, b).

Definition panic {A : Type} : M A := fun b => (Panic, b).

Definition bind {A B : Type} (m : M A) (f : A -> M B) : M B :=
  fun b =>
    match m b with
    | (Ok a, b') => f a b'
    | (Err e, b') => (Err e, b')
    | (Panic, b') => (Panic, b')
    end.

Definition lift {A : Type} (o : Outcome A) : M A := fun b => (o, b).

Notation "x <- m ;; k" := (bind m (fun x => k))
  (at level 61, m at next level, right associativity).

Definition setTps (tps : list types.FieldType) : M unit :=
  fun b => (Ok tt, mkPBPlanBuilder (sctx b) tps (is_ b) (ranges b)).

Definition AllocPlanColumnID : M Z :=
  fun b =>
    let (id, vars) := variable.AllocPlanColumnID (sctx b) in
    (Ok id, mkPBPlanBuilder vars (tps b) (is_ b) (ranges b)).

(** Go's [strings] package, through the one function the builder calls.
    [strings.ToUpper] maps every Unicode letter of a string to its upper
    case; the mapping belongs to Go's standard library, and nothing is
    assumed of it here. *)
Class Strings : Type := {
  ToUpper : string -> string
}.

Section Builder.

Context {codec : RowCodec} {decoder : ExprDecoder}
        {extractor : MemTablePredicateExtractor} {strs : Strings}.

(** *** Column resolution *)

(** The inner loop of [convertColumnInfo]: the first catalog column with
    the requested id. *)
Fixpoint findColumn (columnId : Z) (tblColumns : list model.ColumnInfo.t)
    : option model.ColumnInfo.t :=
  match tblColumns with
  | [] => None
  | colInfo :: rest =>
      if columnId =? model.ColumnInfo.ID colInfo then Some colInfo
      else findColumn columnId rest
  end.

(** The outer loop of [convertColumnInfo], [columns] and [tps] being the
    slices appended to. *)
Fixpoint convertColumnInfoFrom (tblInfo : model.TableInfo.t)
    (pbColumns : list tipb.ColumnInfo.t)
    (columns : list model.ColumnInfo.t) (tps : list types.FieldType)
    : Outcome (list model.ColumnInfo.t * list types.FieldType) :=
  match pbColumns with
  | [] => Ok (columns, tps)
  | col :: rest =>
      match findColumn (tipb.ColumnInfo.ColumnId col) (model.TableInfo.Columns tblInfo) with
      | Some colInfo =>
          convertColumnInfoFrom tblInfo rest (columns ++ [colInfo])
            (tps ++ [types.Clone (model.ColumnInfo.FieldType colInfo)])
      | None =>
          Err (ErrColumnNotFound (tipb.ColumnInfo.ColumnId col)
                 (model.L (model.TableInfo.Name tblInfo)))
      end
  end.

Definition convertColumnInfo (tblInfo : model.TableInfo.t)
    (pbColumns : list tipb.ColumnInfo.t) : M (list model.ColumnInfo.t) :=
  res <- lift (convertColumnInfoFrom tblInfo pbColumns [] []) ;;
  _ <- setTps (snd res) ;;
  ret (fst res).

(** *** Schemas *)

(** The inner loop of [buildTableScanSchema] for one catalog column. *)
Fixpoint appendMatching (col : model.ColumnInfo.t)
    (columns : list model.ColumnInfo.t) (schema : expression.Schema)
    : M expression.Schema :=
  match columns with
  | [] => ret schema
  | colInfo :: rest =>
      if negb (model.ColumnInfo.ID col =? model.ColumnInfo.ID colInfo)
      then appendMatching col rest schema
      else
        uid <- AllocPlanColumnID ;;
        appendMatching col rest
          (expression.Append schema
             (expression.mkColumn uid (model.ColumnInfo.ID col) 0
                (model.ColumnInfo.FieldType col)))
  end.

(** The outer loop of [buildTableScanSchema], over the catalog columns. *)
Fixpoint buildTableScanSchemaFrom (tblColumns : list model.ColumnInfo.t)
    (columns : list model.ColumnInfo.t) (schema : expression.Schema)
    : M expression.Schema :=
  match tblColumns with
  | [] => ret schema
  | col :: rest =>
      schema' <- appendMatching col columns schema ;;
      buildTableScanSchemaFrom rest columns schema'
  end.

Definition buildTableScanSchema (tblInfo : model.TableInfo.t)
    (columns : list model.ColumnInfo.t) : M expression.Schema :=
  buildTableScanSchemaFrom (model.TableInfo.Columns tblInfo) columns
    (expression.NewSchema []).

(** The loop of [buildAggSchema]; the group-by expressions are not read. *)
Fixpoint buildAggSchemaFrom (aggFuncs : list aggregation.AggFuncDesc)
    (schema : expression.Schema) : M expression.Schema :=
  match aggFuncs with
  | [] => ret schema
  | agg :: rest =>
      uid <- AllocPlanColumnID ;;
      buildAggSchemaFrom rest
        (expression.Append schema
           (expression.mkColumn uid 0 0 (aggregation.RetTp agg)))
  end.

Definition buildAggSchema (aggFuncs : list aggregation.AggFuncDesc)
    (groupBys : list expression.Expression) : M expression.Schema :=
  buildAggSchemaFrom aggFuncs (expression.NewSchema []).

(** *** One builder per executor kind *)

Definition pbToTableScan (e : tipb.Executor.t) : M PhysicalPlan :=
  match tipb.Executor.TblScan e with
  | None => panic
  | Some tblScan =>
      fun b =>
      match infoschema.TableByID (is_ b) (tipb.TableScan.TableId tblScan) with
      | None => (Err (ErrTableNotExists (tipb.TableScan.TableId tblScan)), b)
      | Some tbl =>
          match infoschema.SchemaByTable (is_ b) (infoschema.Meta tbl) with
          | None => (Err (ErrDatabaseNotExists (tipb.TableScan.TableId tblScan)), b)
          | Some dbInfo =>
              if negb (infoschema.IsClusterTable tbl)
              then (Err (ErrNotClusterTable
                           (model.L (model.TableInfo.Name (infoschema.Meta tbl)))), b)
              else
                (columns <- convertColumnInfo (infoschema.Meta tbl)
                              (tipb.TableScan.Columns tblScan) ;;
                 schema <- buildTableScanSchema (infoschema.Meta tbl) columns ;;
                 let p := mkPhysicalMemTable (model.DBInfo.Name dbInfo)
                            (infoschema.Meta tbl) columns schema None in
                 if String.eqb (ToUpper (model.O (model.TableInfo.Name (Table p))))
                      infoschema.ClusterTableSlowLog
                 then
                   let ex := setDesc newSlowQueryExtractor (tipb.TableScan.Desc tblScan) in
                   fun b =>
                   match ranges b with
                   | Some rs =>
                       (trs <- lift (decodeTimeRanges rs) ;;
                        let ex := fold_left
                                    (fun ex tr => setTimeRange ex (fst tr) (snd tr))
                                    trs ex in
                        ret (Plan (PhysicalMemTable_ (withExtractor p ex)) [])) b
                   | None =>
                       (Ok (Plan (PhysicalMemTable_ (withExtractor p ex)) []), b)
                   end
                 else ret (Plan (PhysicalMemTable_ p) [])) b
          end
      end
  end.

Definition pbToSelection (e : tipb.Executor.t) : M PhysicalPlan :=
  match tipb.Executor.Selection e with
  | None => panic
  | Some sel =>
      fun b =>
      (conds <- lift (PBToExprs (tipb.Selection.Conditions sel) (tps b)) ;;
       ret (Plan (PhysicalSelection conds) [])) b
  end.

Definition pbToTopN (e : tipb.Executor.t) : M PhysicalPlan :=
  match tipb.Executor.TopN e with
  | None => panic
  | Some topN =>
      fun b =>
      (byItems <- lift (mapO (fun item =>
                    bindO (PBToExpr (tipb.ByItem.Expr item) (tps b)) (fun expr =>
                    Ok (util.mkByItems expr (tipb.ByItem.Desc item))))
                  (tipb.TopN.OrderBy topN)) ;;
       ret (Plan (PhysicalTopN byItems (tipb.TopN.Limit topN)) [])) b
  end.

Definition pbToLimit (e : tipb.Executor.t) : M PhysicalPlan :=
  match tipb.Executor.Limit e with
  | None => panic
  | Some limit => ret (Plan (PhysicalLimit (tipb.Limit.Limit limit)) [])
  end.

Definition getAggInfo (executor : tipb.Executor.t)
    : M (list aggregation.AggFuncDesc * list expression.Expression) :=
  match tipb.Executor.Aggregation executor with
  | None => panic
  | Some agg =>
      fun b =>
      (aggFuncs <- lift (mapO (fun expr => PBExprToAggFuncDesc expr (tps b))
                           (tipb.Aggregation.AggFunc agg)) ;;
       groupBys <- lift (PBToExprs (tipb.Aggregation.GroupBy agg) (tps b)) ;;
       ret (aggFuncs, groupBys)) b
  end.

Definition pbToAgg (e : tipb.Executor.t) (isStreamAgg : bool) : M PhysicalPlan :=
  info <- getAggInfo e ;;
  let aggFuncs := fst info in
  let groupBys := snd info in
  schema <- buildAggSchema aggFuncs groupBys ;;
  if isStreamAgg
  then ret (Plan (PhysicalStreamAgg aggFuncs groupBys schema) [])
  else ret (Plan (PhysicalHashAgg aggFuncs groupBys schema) []).

Definition pbToKill (e : tipb.Executor.t) : M PhysicalPlan :=
  match tipb.Executor.Kill e with
  | None => panic
  | Some kill =>
      let node := ast.mkKillStmt (tipb.Kill.ConnID kill) (tipb.Kill.Query kill) in
      let simple := mkSimple node true in
      ret (Plan (PhysicalSimpleWrapper simple) [])
  end.

Definition pbToPhysicalPlan (e : tipb.Executor.t) : M PhysicalPlan :=
  match tipb.Executor.Tp e with
  | tipb.ExecType_TypeTableScan => pbToTableScan e
  | tipb.ExecType_TypeSelection => pbToSelection e
  | tipb.ExecType_TypeTopN => pbToTopN e
  | tipb.ExecType_TypeLimit => pbToLimit e
  | tipb.ExecType_TypeAggregation => pbToAgg e false
  | tipb.ExecType_TypeStreamAgg => pbToAgg e true
  | tipb.ExecType_TypeKill => pbToKill e
  | tipb.ExecType_Other _ => fail (ErrExecTypeNotSupported (tipb.Executor.Tp e))
  end.

(** *** Build *)

(** The loop of [Build]: [src] is the plan built so far, [None] for nil. *)
Fixpoint buildChain (executors : list tipb.Executor.t)
    (src : option PhysicalPlan) : M (option PhysicalPlan) :=
  match executors with
  | [] => ret src
  | e :: rest =>
      curr <- pbToPhysicalPlan e ;;
      let curr := match src with
                  | Some src => SetChildren curr [src]
                  | None => curr
                  end in
      buildChain rest (Some curr)
  end.

Definition Build (executors : list tipb.Executor.t) : M (option PhysicalPlan) :=
  src <- buildChain executors None ;;
  res <- lift (predicatePushDownNilable src []) ;;
  ret (snd res).

End Builder.

(** ** Observations on plans and key ranges

    Functions the statements below are written with. *)

Section Observations.

Context {codec : RowCodec} {extractor : MemTablePredicateExtractor}.

(** The guard of [decodeTimeRanges] as it evaluates: both conjuncts test
    the start key. *)
Definition passesLengthCheck (kr : coprocessor.KeyRange) : bool :=
  (RecordRowKeyLen <=? List.length (coprocessor.Start kr))%nat.

(** The guard the description asks for: start and end key both long
    enough. *)
Definition bothLongEnough (kr : coprocessor.KeyRange) : bool :=
  (RecordRowKeyLen <=? List.length (coprocessor.Start kr))%nat
  && (RecordRowKeyLen <=? List.length (coprocessor.End kr))%nat.

(** The two bounds of one key range. *)
Definition decodePair (kr : coprocessor.KeyRange) : Outcome (Z * Z) :=
  bindO (decodeBound (coprocessor.Start kr)) (fun startTime =>
  bindO (decodeBound (coprocessor.End kr)) (fun endTime =>
  Ok (startTime, endTime))).

(** A key whose handle, when the row key decodes, yields a time. *)
Definition boundDecodes (key : list Byte.byte) : Prop :=
  match DecodeRowKey key with
  | Ok handle => exists t, decodeToTime handle = Ok t
  | Err _ => True
  | Panic => False
  end.

(** The time a bound contributes: 0 unless row key and column decode. *)
Definition boundTime (key : list Byte.byte) : Z :=
  match DecodeRowKey key with
  | Ok handle => match decodeToTime handle with Ok t => t | _ => 0 end
  | _ => 0
  end.

(** Nodes from the root down the first children. *)
Fixpoint spine (p : PhysicalPlan) : list PlanNode :=
  match p with
  | Plan self children =>
      self :: match children with
              | [] => []
              | child0 :: _ => spine child0
              end
  end.

(** Number of nodes of the whole tree. *)
Fixpoint nodeCount (p : PhysicalPlan) : nat :=
  match p with
  | Plan _ children =>
      S ((fix sum (cs : list PhysicalPlan) : nat :=
            match cs with
            | [] => O
            | c :: rest => (nodeCount c + sum rest)%nat
            end) children)
  end.

(** Every node has at most one child. *)
Fixpoint isChain (p : PhysicalPlan) : Prop :=
  match p with
  | Plan _ children =>
      (List.length children <= 1)%nat /\
      (fix all (cs : list PhysicalPlan) : Prop :=
         match cs with
         | [] => True
         | c :: rest => isChain c /\ all rest
         end) children
  end.

(** The conditions a node holds: those of a selection, none otherwise. *)
Definition ownConditions (self : PlanNode) : list expression.Expression :=
  match self with
  | PhysicalSelection conds => conds
  | _ => []
  end.

(** The conditions of every selection of the tree, root first. *)
Fixpoint selectionConditions (p : PhysicalPlan) : list expression.Expression :=
  match p with
  | Plan self children =>
      ownConditions self
      ++ (fix all (cs : list PhysicalPlan) : list expression.Expression :=
            match cs with
            | [] => []
            | c :: rest => selectionConditions c ++ all rest
            end) children
  end.

Definition isSelection (p : PhysicalPlan) : bool :=
  match Self p with
  | PhysicalSelection _ => true
  | _ => false
  end.

(** On the path the push-down pass walks, no selection sits directly on
    another selection. *)
Fixpoint noStackedSelection (p : PhysicalPlan) : Prop :=
  match p with
  | Plan (PhysicalMemTable_ _) _ => True
  | Plan self children =>
      match children with
      | [] => True
      | child0 :: _ =>
          (match self with
           | PhysicalSelection _ => isSelection child0 = false
           | _ => True
           end) /\ noStackedSelection child0
      end
  end.




(** The column that [setUniqueID] leaves for [c] when [c]'s index is in
    range. *)
Definition boundTo (schemaCols : list expression.Column) (c : expression.Column)
    : expression.Column :=
  expression.mkColumn
    (expression.UniqueID
       (nth (Z.to_nat (expression.Index c)) schemaCols c))
    (expression.ID c) (expression.Index c) (expression.RetType c).

Definition indexInRange (schemaCols : list expression.Column)
    (c : expression.Column) : Prop :=
  0 <= expression.Index c < Z.of_nat (List.length schemaCols).

(** What the extractor of a scan has to satisfy for a second pass to change
    nothing: asked again with what it left, in the state it reached, it
    leaves the same and stays in that state; and it returns only predicates
    it was given. *)
Definition extractorSettles : Prop :=
  forall ex sch names ps ex' remained,
    Extract ex sch names ps = (ex', remained) ->
    Extract ex' sch names remained = (ex', remained) /\ incl remained ps.

End Observations.

(** The column references of one expression. *)
Definition columnsOf (e : expression.Expression) : list expression.Column :=
  expression.extractColumns [] e.

(** *** Schemas and requests *)

(** The catalog columns a request matches, in catalog order: each catalog
    column once per requested column of the same id. *)
Definition catalogOrder (tblColumns columns : list model.ColumnInfo.t)
    : list model.ColumnInfo.t :=
  flat_map
    (fun col =>
       map (fun _ => col)
         (filter (fun colInfo =>
                    model.ColumnInfo.ID col =? model.ColumnInfo.ID colInfo)
            columns))
    tblColumns.

(** Schema columns for the catalog columns [cols], numbered upwards from
    the identifier after [n]. *)
Fixpoint scanColumnsFrom (n : Z) (cols : list model.ColumnInfo.t)
    : list expression.Column :=
  match cols with
  | [] => []
  | col :: rest =>
      expression.mkColumn (n + 1) (model.ColumnInfo.ID col) 0
        (model.ColumnInfo.FieldType col)
      :: scanColumnsFrom (n + 1) rest
  end.

(** Schema columns for the aggregate functions, numbered likewise. *)
Fixpoint aggColumnsFrom (n : Z) (aggFuncs : list aggregation.AggFuncDesc)
    : list expression.Column :=
  match aggFuncs with
  | [] => []
  | agg :: rest =>
      expression.mkColumn (n + 1) 0 0 (aggregation.RetTp agg)
      :: aggColumnsFrom (n + 1) rest
  end.

(** The builder after [k] identifiers were allocated. *)
Definition afterAlloc (b : PBPlanBuilder) (k : nat) : PBPlanBuilder :=
  mkPBPlanBuilder
    (variable.mkSessionVars (variable.PlanColumnID (sctx b) + Z.of_nat k))
    (tps b) (is_ b) (ranges b).

(** The requested identifiers all name a catalog column. *)
Definition allResolvable (tblInfo : model.TableInfo.t)
    (pbColumns : list tipb.ColumnInfo.t) : Prop :=
  forall col, In col pbColumns ->
    exists colInfo, In colInfo (model.TableInfo.Columns tblInfo)
      /\ model.ColumnInfo.ID colInfo = tipb.ColumnInfo.ColumnId col.

(** [col] is the first requested column that names no catalog column. *)
Definition firstMissing (tblInfo : model.TableInfo.t)
    (pbColumns : list tipb.ColumnInfo.t) (col : tipb.ColumnInfo.t) : Prop :=
  exists found rest,
    pbColumns = found ++ col :: rest
    /\ allResolvable tblInfo found
    /\ forall colInfo, In colInfo (model.TableInfo.Columns tblInfo) ->
         model.ColumnInfo.ID colInfo <> tipb.ColumnInfo.ColumnId col.

(** The output schema of an aggregation node. *)
Definition aggregationSchema {extractor : MemTablePredicateExtractor}
    (p : PhysicalPlan) : option expression.Schema :=
  match Self p with
  | PhysicalHashAgg _ _ s => Some s
  | PhysicalStreamAgg _ _ s => Some s
  | _ => None
  end.

(** *** Chains *)

Section ChainObservations.

Context {codec : RowCodec} {decoder : ExprDecoder}
        {extractor : MemTablePredicateExtractor} {strs : Strings}.

(** The per-executor builders called one after the other, each on the
    builder the one before left, up to the first that does not return a
    plan. *)
Fixpoint buildAll (executors : list tipb.Executor.t) : M (list PhysicalPlan) :=
  match executors with
  | [] => ret []
  | e :: rest =>
      p <- pbToPhysicalPlan e ;;
      ps <- buildAll rest ;;
      ret (p :: ps)
  end.

(** The plans [plans], built in this order, each set on top of the ones
    before it, [src] being the plan below the first. *)
Definition chainOf (plans : list PhysicalPlan) (src : option PhysicalPlan)
    : option PhysicalPlan :=
  fold_left
    (fun src curr =>
       Some (match src with
             | Some src => SetChildren curr [src]
             | None => curr
             end))
    plans src.

(** The schema columns a node produces: those of a scan or of an
    aggregation. *)
Definition ownSchema (self : PlanNode) : list expression.Column :=
  match self with
  | PhysicalMemTable_ memTable => expression.Columns (schema memTable)
  | PhysicalHashAgg _ _ aggSchema => expression.Columns aggSchema
  | PhysicalStreamAgg _ _ aggSchema => expression.Columns aggSchema
  | _ => []
  end.

(** The schema columns of every node of the tree, root first. *)
Fixpoint schemaColumns (p : PhysicalPlan) : list expression.Column :=
  match p with
  | Plan self children =>
      ownSchema self
      ++ (fix all (cs : list PhysicalPlan) : list expression.Column :=
            match cs with
            | [] => []
            | c :: rest => schemaColumns c ++ all rest
            end) children
  end.

(** The identifiers of the schema columns of the tree. *)
Definition identifiers (p : PhysicalPlan) : list Z :=
  map expression.UniqueID (schemaColumns p).

Definition schemaColumnsOpt (src : option PhysicalPlan) : list expression.Column :=
  match src with
  | Some p => schemaColumns p
  | None => []
  end.

(** The identifiers [n + 1], ..., [n + k]. *)
Definition counted (n : Z) (k : nat) : list Z :=
  map (fun i => n + Z.of_nat i) (seq 1 k).

(** Spine, size and shape of a plan that may be nil. *)
Definition spineOpt (src : option PhysicalPlan) : list PlanNode :=
  match src with
  | Some p => spine p
  | None => []
  end.

Definition nodeCountOpt (src : option PhysicalPlan) : nat :=
  match src with
  | Some p => nodeCount p
  | None => O
  end.

Definition isChainOpt (src : option PhysicalPlan) : Prop :=
  match src with
  | Some p => isChain p
  | None => True
  end.

End ChainObservations.

(** *** Further observations *)

(** [l] is [l'] with some elements left out, the rest in the same order. *)
Inductive subsequence {A : Type} : list A -> list A -> Prop :=
| subsequence_nil : subsequence [] []
| subsequence_skip (x : A) (l l' : list A) :
    subsequence l l' -> subsequence l (x :: l')
| subsequence_take (x : A) (l l' : list A) :
    subsequence l l' -> subsequence (x :: l) (x :: l').

(** The builder with another type context. *)
Definition withTps (b : PBPlanBuilder) (tps : list types.FieldType)
    : PBPlanBuilder :=
  mkPBPlanBuilder (sctx b) tps (is_ b) (ranges b).

(** The types [convertColumnInfo] stores for the columns it resolved. *)
Definition clonedTypes (columns : list model.ColumnInfo.t)
    : list types.FieldType :=
  map (fun c => types.Clone (model.ColumnInfo.FieldType c)) columns.

(** The scan is of the cluster slow-log table, as [pbToTableScan] tests it. *)
Definition isSlowLog {strs : Strings} (tblInfo : model.TableInfo.t) : bool :=
  String.eqb (ToUpper (model.O (model.TableInfo.Name tblInfo)))
    infoschema.ClusterTableSlowLog.

(** The executor is a scan of the slow-log table that [pbToTableScan]
    takes as far as the key ranges: table and database are found, the
    table is a cluster table and every requested column resolves. *)
Definition scansSlowLog {strs : Strings} (e : tipb.Executor.t)
    (b : PBPlanBuilder) : Prop :=
  tipb.Executor.Tp e = tipb.ExecType_TypeTableScan
  /\ exists tblScan tbl,
       tipb.Executor.TblScan e = Some tblScan
       /\ infoschema.TableByID (is_ b) (tipb.TableScan.TableId tblScan) = Some tbl
       /\ infoschema.SchemaByTable (is_ b) (infoschema.Meta tbl) <> None
       /\ infoschema.IsClusterTable tbl = true
       /\ allResolvable (infoschema.Meta tbl) (tipb.TableScan.Columns tblScan)
       /\ isSlowLog (infoschema.Meta tbl) = true.

Definition isTableScan (tp : tipb.ExecType) : bool :=
  match tp with
  | tipb.ExecType_TypeTableScan => true
  | _ => false
  end.

(** The executor kinds whose builder takes identifiers from the session's
    counter: the scan and the two aggregations. *)
Definition takesIdentifiers (tp : tipb.ExecType) : bool :=
  match tp with
  | tipb.ExecType_TypeTableScan
  | tipb.ExecType_TypeAggregation
  | tipb.ExecType_TypeStreamAgg => true
  | _ => false
  end.

Section PlanShapes.

Context {extractor : MemTablePredicateExtractor}.

(** The extractor of a scan after the time ranges [trs] were set on it, one
    call of [setTimeRange] per range, in order. *)
Definition withTimeRanges (ex : Extractor_t) (trs : list (Z * Z)) : Extractor_t :=
  fold_left (fun ex tr => setTimeRange ex (fst tr) (snd tr)) trs ex.

Definition isSelectionNode (self : PlanNode) : bool :=
  match self with
  | PhysicalSelection _ => true
  | _ => false
  end.

Definition isMemTableNode (self : PlanNode) : bool :=
  match self with
  | PhysicalMemTable_ _ => true
  | _ => false
  end.

(** A node without the state of its extractor: what the pass cannot change
    of a node that is no selection. *)
Definition withoutExtractorState (self : PlanNode) : PlanNode :=
  match self with
  | PhysicalMemTable_ memTable =>
      PhysicalMemTable_
        (mkPhysicalMemTable (DBName memTable) (Table memTable)
           (Columns memTable) (schema memTable)
           (match Extractor memTable with
            | Some _ => Some newSlowQueryExtractor
            | None => None
            end))
  | _ => self
  end.

(** A chain the pass has nothing to do on: down to the first scan, every
    selection has conditions and a child, no node has a second child, and
    the scan, if there is one, has no extractor. *)
Fixpoint inert (p : PhysicalPlan) : Prop :=
  match p with
  | Plan (PhysicalMemTable_ memTable) _ => Extractor memTable = None
  | Plan (PhysicalSelection conds) children =>
      conds <> [] /\
      match children with
      | [child0] => inert child0
      | _ => False
      end
  | Plan _ children =>
      match children with
      | [] => True
      | [child0] => inert child0
      | _ => False
      end
  end.

(** The plan is a scan that carries an extractor. *)
Definition carriesExtractor (p : PhysicalPlan) : bool :=
  match Self p with
  | PhysicalMemTable_ memTable =>
      match Extractor memTable with
      | Some _ => true
      | None => false
      end
  | _ => false
  end.

(** On the path the pass walks, no selection that has conditions sits on a
    selection in whose place the pass puts a scan that carries an
    extractor: the pass removes the lower selection, and whatever other
    selections are between it and the scan, and leaves the upper one
    directly on that scan. *)
Fixpoint noExposedSelection (p : PhysicalPlan) : Prop :=
  match p with
  | Plan (PhysicalMemTable_ _) _ => True
  | Plan self children =>
      match children with
      | [] => True
      | child0 :: _ =>
          (match self with
           | PhysicalSelection conds =>
               isSelection child0 = true -> conds <> [] ->
               forall res child,
                 predicatePushDown child0 conds = Ok (res, child) ->
                 carriesExtractor child = false
           | _ => True
           end) /\ noExposedSelection child0
      end
  end.

(** Walking down the first children from the root, the pass comes to a
    selection without a child before it comes to a scan. *)
Fixpoint reachesBareSelection (p : PhysicalPlan) : bool :=
  match p with
  | Plan (PhysicalMemTable_ _) _ => false
  | Plan self children =>
      match children with
      | [] => isSelectionNode self
      | child0 :: _ => reachesBareSelection child0
      end
  end.

End PlanShapes.

(** ** A concrete environment

    One catalog, one codec, one decoder and one extractor to run the
    builder on.  They follow the collaborators' interfaces and are used for
    closed examples only; every general statement below quantifies over
    all collaborators. *)

Module Sample.

Definition byte_eqb (x y : Byte.byte) : bool :=
  (Byte.to_nat x =? Byte.to_nat y)%nat.

(** Days from 1970-01-01 to the given civil date. *)
Definition daysFromCivil (y m d : Z) : Z :=
  let y' := if m <=? 2 then y - 1 else y in
  let era := y' / 400 in
  let yoe := y' - era * 400 in
  let doy := (153 * (m + (if 2 <? m then -3 else 9)) + 2) / 5 + d - 1 in
  let doe := yoe * 365 + yoe / 4 - yoe / 100 + doy in
  era * 146097 + doe - 719468.

Definition unixNano (y mo d h mi s nsec : Z) : Z :=
  ((daysFromCivil y mo d * 86400 + h * 3600 + mi * 60 + s) * 1000000000) + nsec.

(** A row key is ['t'], eight bytes of table id, ['_r'] and the handle:
    nineteen bytes or more. *)
Definition decodeRowKey (key : list Byte.byte) : Outcome (list Byte.byte) :=
  if (List.length key <? 19)%nat then Err (ErrExternal 1)
  else
    match nth_error key 0, nth_error key 9, nth_error key 10 with
    | Some t, Some u, Some r =>
        if byte_eqb t Byte.x74 && byte_eqb u Byte.x5f && byte_eqb r Byte.x72
        then Ok (skipn 11 key)
        else Err (ErrExternal 1)
    | _, _, _ => Err (ErrExternal 1)
    end.

(** A datum is the flag [0x04] and one byte of seconds after midnight of
    2020-01-01; any other flag is rejected. *)
Definition decodeOne (raw : list Byte.byte) : Outcome types.CoreTime :=
  match raw with
  | flag :: sec :: _ =>
      if byte_eqb flag Byte.x04
      then Ok (types.mkCoreTime 2020 1 1 0 0 (Z.of_nat (Byte.to_nat sec)) 0)
      else Err (ErrExternal 2)
  | _ => Err (ErrExternal 2)
  end.

#[export] Instance codec : RowCodec := {|
  Handle := list Byte.byte;
  RecordRowKeyLen := 19;
  DecodeRowKey := decodeRowKey;
  EncodedCol := fun handle _ => Ok handle;
  DecodeOne := decodeOne;
  DateUTCUnixNano := unixNano
|}.

(** Wire expressions: tag 201 is a column reference whose offset is the
    length of the payload, tag 1 a constant, any other tag a function of
    the children. *)
Fixpoint pbToExpr (tps : list types.FieldType) (e : tipb.Expr)
    : Outcome expression.Expression :=
  match e with
  | tipb.mkExpr tp val children =>
      if tp =? 201 then
        match nth_error tps (List.length val) with
        | Some ft =>
            Ok (expression.Col
                  (expression.mkColumn 0 0 (Z.of_nat (List.length val)) ft))
        | None => Panic
        end
      else if tp =? 1 then Ok (expression.Constant (Z.of_nat (List.length val)))
      else
        bindO
          ((fix over (es : list tipb.Expr) : Outcome (list expression.Expression) :=
              match es with
              | [] => Ok []
              | x :: rest =>
                  bindO (pbToExpr tps x) (fun x' =>
                  bindO (over rest) (fun rest' => Ok (x' :: rest')))
              end) children)
          (fun args =>
             Ok (expression.ScalarFunction (if tp =? 100 then "ge" else "eq") args))
  end.

Definition bigintType : types.FieldType := types.mkFieldType 8 0 20 0.
Definition datetimeType : types.FieldType := types.mkFieldType 12 0 26 6.
Definition textType : types.FieldType := types.mkFieldType 252 0 65535 0.

#[export] Instance decoder : ExprDecoder := {|
  PBToExpr := fun e tps => pbToExpr tps e;
  PBToExprs := fun es tps => mapO (pbToExpr tps) es;
  PBExprToAggFuncDesc := fun e tps =>
    bindO (match e with
           | tipb.mkExpr _ _ children => mapO (pbToExpr tps) children
           end)
      (fun args => Ok (aggregation.mkAggFuncDesc "count" args bigintType))
|}.

(** Upper case of the ASCII letters, other characters as they are. *)
Definition upperAscii (c : ascii) : ascii :=
  let n := nat_of_ascii c in
  if ((97 <=? n) && (n <=? 122))%nat then ascii_of_nat (n - 32) else c.

Fixpoint toUpper (s : string) : string :=
  match s with
  | EmptyString => EmptyString
  | String c rest => String (upperAscii c) (toUpper rest)
  end.

#[export] Instance strs : Strings := {|
  ToUpper := toUpper
|}.

(** The extractor absorbs the comparisons whose first argument is the
    column named [time] and leaves the rest. *)
Record State : Type := mkState {
  Desc : bool;
  TimeRanges : list (Z * Z);
  Absorbed : list expression.Expression
}.

Definition onTime (names : list FieldName.t) (e : expression.Expression) : bool :=
  match e with
  | expression.ScalarFunction _ (expression.Col c :: _) =>
      match nth_error names (Z.to_nat (expression.Index c)) with
      | Some name => String.eqb (model.L (FieldName.ColName name)) "time"
      | None => false
      end
  | _ => false
  end.

Definition extract (st : State) (sch : expression.Schema)
    (names : list FieldName.t) (predicates : list expression.Expression)
    : State * list expression.Expression :=
  (mkState (Desc st) (TimeRanges st)
     (Absorbed st ++ filter (onTime names) predicates),
   filter (fun e => negb (onTime names e)) predicates).

#[export] Instance extractor : MemTablePredicateExtractor := {|
  Extractor_t := State;
  newSlowQueryExtractor := mkState false [] [];
  setDesc := fun st desc => mkState desc (TimeRanges st) (Absorbed st);
  setTimeRange := fun st s e => mkState (Desc st) (TimeRanges st ++ [(s, e)]) (Absorbed st);
  Extract := extract
|}.

(** The catalog: table 1 is the cluster slow-log table, table 2 another
    cluster table, table 3 an ordinary table. *)
Definition ci (name : string) : model.CIStr := model.mkCIStr name name.

Definition slowLogInfo : model.TableInfo.t :=
  model.TableInfo.mk 1 (model.mkCIStr "CLUSTER_SLOW_QUERY" "cluster_slow_query")
    [ model.ColumnInfo.mk 1 (ci "conn_id") bigintType;
      model.ColumnInfo.mk 2 (ci "time") datetimeType;
      model.ColumnInfo.mk 3 (ci "query") textType ].

Definition processInfo : model.TableInfo.t :=
  model.TableInfo.mk 2 (model.mkCIStr "CLUSTER_PROCESSLIST" "cluster_processlist")
    [ model.ColumnInfo.mk 1 (ci "id") bigintType;
      model.ColumnInfo.mk 2 (ci "info") textType ].

Definition userInfo : model.TableInfo.t :=
  model.TableInfo.mk 3 (ci "users")
    [ model.ColumnInfo.mk 1 (ci "id") bigintType ].

Definition catalog : infoschema.InfoSchema :=
  infoschema.mkInfoSchema
    (fun id =>
       if id =? 1 then Some (infoschema.mkTable slowLogInfo true)
       else if id =? 2 then Some (infoschema.mkTable processInfo true)
       else if id =? 3 then Some (infoschema.mkTable userInfo false)
       else None)
    (fun _ => Some (model.DBInfo.mk (ci "information_schema"))).

Definition builder (ranges : option (list coprocessor.KeyRange)) : PBPlanBuilder :=
  NewPBPlanBuilder (variable.mkSessionVars 0) catalog ranges.

(** Executors. *)
Definition scan (table : Z) (columns : list Z) : tipb.Executor.t :=
  tipb.Executor.mk tipb.ExecType_TypeTableScan
    (Some (tipb.TableScan.mk table (map tipb.ColumnInfo.mk columns) false))
    None None None None None.

Definition selection (conds : list tipb.Expr) : tipb.Executor.t :=
  tipb.Executor.mk tipb.ExecType_TypeSelection None
    (Some (tipb.Selection.mk conds)) None None None None.

Definition limit (n : Z) : tipb.Executor.t :=
  tipb.Executor.mk tipb.ExecType_TypeLimit None None None
    (Some (tipb.Limit.mk n)) None None.

Definition agg (stream : bool) (funcs groupBy : list tipb.Expr) : tipb.Executor.t :=
  tipb.Executor.mk
    (if stream then tipb.ExecType_TypeStreamAgg else tipb.ExecType_TypeAggregation)
    None None None None (Some (tipb.Aggregation.mk groupBy funcs)) None.

(** Wire expressions over the requested columns, by offset. *)
Definition colRef (offset : nat) : tipb.Expr :=
  tipb.mkExpr 201 (repeat Byte.x00 offset) [].

Definition const (n : nat) : tipb.Expr :=
  tipb.mkExpr 1 (repeat Byte.x00 n) [].

Definition ge (offset n : nat) : tipb.Expr :=
  tipb.mkExpr 100 [] [colRef offset; const n].

Definition eq (offset n : nat) : tipb.Expr :=
  tipb.mkExpr 101 [] [colRef offset; const n].

(** Keys. *)
Definition rowKey (handle : list Byte.byte) : list Byte.byte :=
  [Byte.x74] ++ repeat Byte.x00 8 ++ [Byte.x5f; Byte.x72] ++ handle.

(** A well-formed row key whose handle holds a time datum. *)
Definition timeKey (sec : Byte.byte) : list Byte.byte :=
  rowKey ([Byte.x04; sec] ++ repeat Byte.x00 6).

(** A well-formed row key whose handle holds a datum of another flag. *)
Definition garbledKey : list Byte.byte :=
  rowKey (repeat Byte.xff 8).

(** Long enough, not a row key. *)
Definition foreignKey : list Byte.byte := repeat Byte.x00 19.

(** Plans.  [chain] is what the loop of [Build] assembles, before the
    push-down pass; [pushedDown] is what the pass returns for it. *)
Definition nothing : PhysicalPlan :=
  Plan (PhysicalSimpleWrapper (mkSimple (ast.mkKillStmt 0 false) true)) [].

Definition chain (executors : list tipb.Executor.t) : PhysicalPlan :=
  match fst (buildChain executors None (builder None)) with
  | Ok (Some p) => p
  | _ => nothing
  end.

Definition pushedDown (p : PhysicalPlan) : PhysicalPlan :=
  match predicatePushDown p [] with
  | Ok (_, p') => p'
  | _ => nothing
  end.

Definition firstChild (p : PhysicalPlan) : PhysicalPlan :=
  match Children p with
  | child0 :: _ => child0
  | [] => p
  end.

Definition tableOf (p : PhysicalPlan) : PhysicalMemTable :=
  match Self p with
  | PhysicalMemTable_ memTable => memTable
  | _ => mkPhysicalMemTable (ci "") slowLogInfo [] (expression.NewSchema []) None
  end.

(** The slow-log scan of all three columns, alone. *)
Definition scanOnly : PhysicalPlan := chain [scan 1 [1; 2; 3]].

(** [time >= 5] and [conn_id = 7], as decoded against that scan. *)
Definition timeCond : expression.Expression :=
  expression.ScalarFunction "ge"
    [expression.Col (expression.mkColumn 0 0 1 datetimeType);
     expression.Constant 5].

Definition connCond : expression.Expression :=
  expression.ScalarFunction "eq"
    [expression.Col (expression.mkColumn 0 0 0 bigintType);
     expression.Constant 7].

(** A condition on a fourth column, which the scan does not have. *)
Definition strayCond : expression.Expression :=
  expression.ScalarFunction "eq"
    [expression.Col (expression.mkColumn 0 0 3 bigintType);
     expression.Constant 7].

(** The predicates as the pass hands them to the extractor of that scan. *)
Definition rebound (predicates : list expression.Expression)
    : list expression.Expression * bool :=
  match rebindColumns (expression.Columns (schema (tableOf scanOnly))) predicates with
  | Ok predicates' => (predicates', true)
  | _ => ([], false)
  end.

(** Scan, one selection with a condition on [time] and one on [conn_id],
    limit. *)
Definition filtered : PhysicalPlan :=
  chain [scan 1 [1; 2; 3]; selection [ge 1 5; eq 0 7]; limit 10].

(** Executors: a scan (columns requested out of catalog order), a selection
    and a streaming aggregation with two functions and one group-by
    expression. *)
Definition aggregated : list tipb.Executor.t :=
  [ scan 1 [3; 1; 2];
    selection [eq 0 7];
    agg true
      [ tipb.mkExpr 3001 [] [colRef 0]; tipb.mkExpr 3001 [] [colRef 2] ]
      [colRef 1] ].

(** Scan and two selections, each with a condition on [time]. *)
Definition stacked : PhysicalPlan :=
  chain [scan 1 [1; 2; 3]; selection [ge 1 5]; selection [ge 1 7]].

(** Scan and two selections, the lower with a condition on [conn_id],
    which the extractor leaves, the upper with one on [time]. *)
Definition stackedKept : PhysicalPlan :=
  chain [scan 1 [1; 2; 3]; selection [eq 0 7]; selection [ge 1 5]].

(** A scan of the process-list table, a selection and a limit: the scan
    carries no extractor. *)
Definition plain : PhysicalPlan :=
  chain [scan 2 [1; 2]; selection [eq 0 7]; limit 10].

(** Executors that start with a selection: no scan is below it. *)
Definition selectionFirst : list tipb.Executor.t :=
  [selection [const 1]; limit 10].

Definition topN (items : list (tipb.Expr * bool)) (n : Z) : tipb.Executor.t :=
  tipb.Executor.mk tipb.ExecType_TypeTopN None None
    (Some (tipb.TopN.mk
             (map (fun item => tipb.ByItem.mk (fst item) (snd item)) items) n))
    None None None.

(** One key range, from second 5 to second 9. *)
Definition window : list coprocessor.KeyRange :=
  [coprocessor.mkKeyRange (timeKey Byte.x05) (timeKey Byte.x09)].

(** The slow-log scan of all three columns as built with the key ranges
    [ranges]. *)
Definition scanned (ranges : option (list coprocessor.KeyRange)) : PhysicalPlan :=
  match fst (pbToTableScan (scan 1 [1; 2; 3]) (builder ranges)) with
  | Ok p => p
  | _ => nothing
  end.

(** The nodes the builders return for [executors], one after the other. *)
Definition built (executors : list tipb.Executor.t) : list PhysicalPlan :=
  match fst (buildAll executors (builder None)) with
  | Ok plans => plans
  | _ => []
  end.

End Sample.

(** * Properties *)

(** ** The time-range decoder *)

Section TimeRangeFacts.

Context {codec : RowCodec}.

Lemma bindO_Ok_inv {A B : Type} (m : Outcome A) (f : A -> Outcome B) (b : B) :
  bindO m f = Ok b -> exists a, m = Ok a /\ f a = Ok b.
Proof.
  destruct m as [a | e |]; simpl; intros H; try discriminate.
  exists a. split; [reflexivity | exact H].
Qed.

Lemma decodeTimeRangesFrom_acc (keyRanges : list coprocessor.KeyRange) :
  forall krs,
    decodeTimeRangesFrom keyRanges krs =
    bindO (mapO decodePair (filter passesLengthCheck keyRanges))
      (fun out => Ok (krs ++ out)).
Proof.
  induction keyRanges as [| kr rest IH]; intros krs; simpl.
  - now rewrite app_nil_r.
  - unfold passesLengthCheck at 1.
    rewrite andb_diag.
    destruct (RecordRowKeyLen <=? List.length (coprocessor.Start kr))%nat; simpl.
    + unfold decodePair at 1.
      destruct (decodeBound (coprocessor.Start kr)) as [s | e |]; simpl; trivial.
      destruct (decodeBound (coprocessor.End kr)) as [t | e |]; simpl; trivial.
      rewrite IH.
      destruct (mapO decodePair (filter passesLengthCheck rest)); simpl; trivial.
      f_equal. symmetry. apply (app_assoc krs [(s, t)]).
    + apply IH.
Qed.

(** The decoder keeps exactly the ranges whose start key is long
    enough, in input order, and decodes both bounds of each; the end key's
    length is not looked at. *)
Lemma decodeTimeRanges_filter (keyRanges : list coprocessor.KeyRange) :
  decodeTimeRanges keyRanges =
  mapO decodePair (filter passesLengthCheck keyRanges).
Proof.
  unfold decodeTimeRanges. rewrite decodeTimeRangesFrom_acc.
  destruct (mapO decodePair (filter passesLengthCheck keyRanges)); reflexivity.
Qed.

Lemma decodeBound_boundTime (key : list Byte.byte) :
  boundDecodes key -> decodeBound key = Ok (boundTime key).
Proof.
  unfold boundDecodes, decodeBound, boundTime.
  destruct (DecodeRowKey key) as [h | e |]; intros H.
  - destruct H as [t Ht]. now rewrite Ht.
  - reflexivity.
  - contradiction.
Qed.

(** A range with a long enough start key and a shorter end key is never
    left out: the outcome is not the empty list. *)
Lemma short_end_not_omitted (kr : coprocessor.KeyRange) :
  passesLengthCheck kr = true ->
  decodeTimeRanges [kr] <> Ok [].
Proof.
  intros Hlen. rewrite decodeTimeRanges_filter. simpl. rewrite Hlen. simpl.
  destruct (decodePair kr); simpl; discriminate.
Qed.

Lemma mapO_first_error {A B : Type} (f : A -> Outcome B)
    (pre : list A) (x : A) (post : list A) (e : error) :
  (forall y, In y pre -> exists b, f y = Ok b) ->
  f x = Err e ->
  mapO f (pre ++ x :: post) = Err e.
Proof.
  intros Hpre Hx. induction pre as [| y pre IH]; simpl.
  - now rewrite Hx.
  - destruct (Hpre y (or_introl eq_refl)) as [b Hb]. rewrite Hb. simpl.
    rewrite IH; [reflexivity |]. intros z Hz. apply Hpre. now right.
Qed.

Lemma decodePair_boundTime (kr : coprocessor.KeyRange) :
  boundDecodes (coprocessor.Start kr) -> boundDecodes (coprocessor.End kr) ->
  decodePair kr
  = Ok (boundTime (coprocessor.Start kr), boundTime (coprocessor.End kr)).
Proof.
  intros Hs He. unfold decodePair.
  now rewrite (decodeBound_boundTime _ Hs), (decodeBound_boundTime _ He).
Qed.

(** What the decoder does with a bound that does not decode.  A row key
    that fails to decode, on the start or the end side of a range that
    passes the length check, gives time 0 and the remaining ranges are
    decoded; the call returns without error whenever every row key that
    does decode yields a handle whose first column decodes as a time.  A
    handle whose column does not decode ends the call: the error of the
    first such bound is what it returns. *)
Lemma decodeTimeRanges_bound_failures
    (keyRanges : list coprocessor.KeyRange) :
  ((forall kr, In kr keyRanges -> passesLengthCheck kr = true ->
      boundDecodes (coprocessor.Start kr) /\ boundDecodes (coprocessor.End kr)) ->
   decodeTimeRanges keyRanges =
     Ok (map (fun kr => (boundTime (coprocessor.Start kr),
                         boundTime (coprocessor.End kr)))
           (filter passesLengthCheck keyRanges)))
  /\ (forall key e, DecodeRowKey key = Err e ->
        decodeBound key = Ok 0 /\ boundTime key = 0)
  /\ (forall key handle e,
        DecodeRowKey key = Ok handle -> decodeToTime handle = Err e ->
        decodeBound key = Err e)
  /\ (forall pre kr post e,
        keyRanges = pre ++ kr :: post ->
        (forall kr', In kr' pre -> passesLengthCheck kr' = true ->
           boundDecodes (coprocessor.Start kr')
           /\ boundDecodes (coprocessor.End kr')) ->
        passesLengthCheck kr = true ->
        decodePair kr = Err e ->
        decodeTimeRanges keyRanges = Err e).
Proof.
  split; [| split; [| split]].
  - intros Hdec. rewrite decodeTimeRanges_filter.
    induction keyRanges as [| kr rest IH]; simpl; [reflexivity |].
    destruct (passesLengthCheck kr) eqn:Hlen; simpl.
    + destruct (Hdec kr (or_introl eq_refl) Hlen) as [Hs He].
      rewrite (decodePair_boundTime _ Hs He). simpl.
      rewrite IH; [reflexivity |].
      intros kr' Hin. apply Hdec. now right.
    + apply IH. intros kr' Hin. apply Hdec. now right.
  - intros key e Hkey. unfold decodeBound, boundTime. now rewrite Hkey.
  - intros key handle e Hkey Htime. unfold decodeBound. now rewrite Hkey.
  - intros pre kr post e -> Hpre Hlen Hpair.
    rewrite decodeTimeRanges_filter, filter_app. simpl. rewrite Hlen.
    apply mapO_first_error; [| exact Hpair].
    intros y Hy. apply filter_In in Hy. destruct Hy as [Hin Hpass].
    destruct (Hpre y Hin Hpass) as [Hs He].
    eexists. exact (decodePair_boundTime _ Hs He).
Qed.

End TimeRangeFacts.

(** Against C1 as stated: the start key is a well-formed row key and passes
    the length check, the column of its handle does not decode, and the
    error ends the decoding and the build of the scan. *)
Lemma decodeTimeRanges_column_failure_is_fatal :
  let kr := coprocessor.mkKeyRange Sample.garbledKey (Sample.timeKey Byte.x09) in
  passesLengthCheck (codec := Sample.codec) kr = true
  /\ (exists handle,
        DecodeRowKey (RowCodec := Sample.codec) (coprocessor.Start kr) = Ok handle
        /\ decodeToTime (codec := Sample.codec) handle = Err (ErrExternal 2))
  /\ decodeTimeRanges (codec := Sample.codec) [kr] = Err (ErrExternal 2)
  /\ fst (Build (strs := Sample.strs) (codec := Sample.codec) (decoder := Sample.decoder)
            (extractor := Sample.extractor)
            [Sample.scan 1 [1; 2; 3]] (Sample.builder (Some [kr])))
     = Err (ErrExternal 2).
Proof.
  cbv zeta. split; [vm_compute; reflexivity |]. split.
  - exists (repeat Byte.xff 8). split; vm_compute; reflexivity.
  - split; vm_compute; reflexivity.
Qed.

(** C2 at a failing input: the start key is nineteen bytes, the end key is
    empty, and the range is in the output, with both times 0. *)
Theorem decodeTimeRanges_keeps_short_end :
  let kr := coprocessor.mkKeyRange Sample.foreignKey [] in
  bothLongEnough (codec := Sample.codec) kr = false
  /\ decodeTimeRanges (codec := Sample.codec) [kr] = Ok [(0, 0)].
Proof.
  cbv zeta. split; vm_compute; reflexivity.
Qed.

(** ** Column resolution and schemas *)

Section SchemaFacts.

Lemma findColumn_Some (columnId : Z) (tblColumns : list model.ColumnInfo.t)
    (colInfo : model.ColumnInfo.t) :
  findColumn columnId tblColumns = Some colInfo ->
  In colInfo tblColumns /\ model.ColumnInfo.ID colInfo = columnId.
Proof.
  induction tblColumns as [| c rest IH]; simpl; [discriminate |].
  destruct (columnId =? model.ColumnInfo.ID c) eqn:E.
  - intros [= <-]. apply Z.eqb_eq in E. split; [now left | now symmetry].
  - intros H. destruct (IH H) as [Hin Hid]. split; [now right | exact Hid].
Qed.

Lemma findColumn_None (columnId : Z) (tblColumns : list model.ColumnInfo.t) :
  findColumn columnId tblColumns = None <->
  forall colInfo, In colInfo tblColumns -> model.ColumnInfo.ID colInfo <> columnId.
Proof.
  induction tblColumns as [| c rest IH]; simpl.
  - split; [intros _ ? [] | reflexivity].
  - destruct (columnId =? model.ColumnInfo.ID c) eqn:E.
    + apply Z.eqb_eq in E. split; [discriminate |].
      intros H. exfalso. apply (H c); [now left | now symmetry].
    + apply Z.eqb_neq in E. rewrite IH. split.
      * intros H ci [<- | Hin]; [congruence | now apply H].
      * intros H ci Hin. apply H. now right.
Qed.

Lemma findColumn_resolvable (columnId : Z) (tblColumns : list model.ColumnInfo.t) :
  (exists colInfo, In colInfo tblColumns /\ model.ColumnInfo.ID colInfo = columnId) ->
  exists colInfo, findColumn columnId tblColumns = Some colInfo.
Proof.
  intros [ci [Hin Hid]].
  destruct (findColumn columnId tblColumns) as [c |] eqn:E; [now exists c |].
  exfalso. exact (proj1 (findColumn_None _ _) E ci Hin Hid).
Qed.

(** The loop on a request that resolves: the slices grow by the catalog
    columns found and their types, in request order. *)
Lemma convertColumnInfoFrom_resolvable (tblInfo : model.TableInfo.t)
    (pbColumns : list tipb.ColumnInfo.t) :
  allResolvable tblInfo pbColumns ->
  forall columns tps,
  exists found,
    convertColumnInfoFrom tblInfo pbColumns columns tps =
      Ok (columns ++ found,
          tps ++ map (fun c => types.Clone (model.ColumnInfo.FieldType c)) found)
    /\ map model.ColumnInfo.ID found = map tipb.ColumnInfo.ColumnId pbColumns
    /\ map Some found =
       map (fun col => findColumn (tipb.ColumnInfo.ColumnId col)
                         (model.TableInfo.Columns tblInfo)) pbColumns.
Proof.
  induction pbColumns as [| col rest IH]; intros Hall columns tps; simpl.
  - exists []. simpl. now rewrite !app_nil_r.
  - destruct (findColumn_resolvable _ _ (Hall col (or_introl eq_refl)))
      as [ci Hci].
    rewrite Hci.
    destruct (IH (fun c Hin => Hall c (or_intror Hin))
                (columns ++ [ci])
                (tps ++ [types.Clone (model.ColumnInfo.FieldType ci)]))
      as [found [Hrun [Hids Hfirst]]].
    exists (ci :: found). rewrite Hrun. simpl.
    rewrite <- !app_assoc. simpl.
    split; [reflexivity |]. split.
    + f_equal; [apply (findColumn_Some _ _ _ Hci) | exact Hids].
    + now rewrite Hfirst.
Qed.

(** The loop on a request with a column that is not in the catalog: the
    error names the first such column. *)
Lemma convertColumnInfoFrom_missing (tblInfo : model.TableInfo.t)
    (pbColumns : list tipb.ColumnInfo.t) (col : tipb.ColumnInfo.t) :
  firstMissing tblInfo pbColumns col ->
  forall columns tps,
    convertColumnInfoFrom tblInfo pbColumns columns tps =
      Err (ErrColumnNotFound (tipb.ColumnInfo.ColumnId col)
             (model.L (model.TableInfo.Name tblInfo))).
Proof.
  intros [found [rest [-> [Hfound Hmiss]]]].
  induction found as [| c found IH]; intros columns tps; simpl.
  - now rewrite (proj2 (findColumn_None _ _) Hmiss).
  - destruct (findColumn_resolvable _ _ (Hfound c (or_introl eq_refl)))
      as [ci Hci].
    rewrite Hci. apply IH. intros c' Hin. apply Hfound. now right.
Qed.

(** Every request resolves or has a first column that does not. *)
Lemma resolvable_or_missing (tblInfo : model.TableInfo.t)
    (pbColumns : list tipb.ColumnInfo.t) :
  allResolvable tblInfo pbColumns
  \/ exists col, firstMissing tblInfo pbColumns col.
Proof.
  induction pbColumns as [| col rest IH].
  - left. intros ? [].
  - destruct (findColumn (tipb.ColumnInfo.ColumnId col)
                (model.TableInfo.Columns tblInfo)) as [ci |] eqn:E.
    + destruct (findColumn_Some _ _ _ E) as [Hin Hid].
      destruct IH as [Hall | [c [found [rest' [-> [Hfound Hmiss]]]]]].
      * left. intros c [<- | Hc]; [now exists ci | now apply Hall].
      * right. exists c, (col :: found), rest'. split; [reflexivity |].
        split; [| exact Hmiss].
        intros c' [<- | Hc']; [now exists ci | now apply Hfound].
    + right. exists col, [], rest. split; [reflexivity |]. split.
      * intros ? [].
      * exact (proj1 (findColumn_None _ _) E).
Qed.

End SchemaFacts.

Section ResolutionFacts.

Context {codec : RowCodec} {decoder : ExprDecoder}
        {extractor : MemTablePredicateExtractor} {strs : Strings}.

Lemma convertColumnInfo_resolvable (tblInfo : model.TableInfo.t)
    (pbColumns : list tipb.ColumnInfo.t) (b : PBPlanBuilder) :
  allResolvable tblInfo pbColumns ->
  exists columns,
    convertColumnInfo tblInfo pbColumns b =
      (Ok columns,
       mkPBPlanBuilder (sctx b)
         (map (fun c => types.Clone (model.ColumnInfo.FieldType c)) columns)
         (is_ b) (ranges b))
    /\ map model.ColumnInfo.ID columns = map tipb.ColumnInfo.ColumnId pbColumns
    /\ map Some columns =
       map (fun col => findColumn (tipb.ColumnInfo.ColumnId col)
                         (model.TableInfo.Columns tblInfo)) pbColumns.
Proof.
  intros Hall.
  destruct (convertColumnInfoFrom_resolvable tblInfo pbColumns Hall [] [])
    as [found [Hrun Hrest]].
  exists found. split; [| exact Hrest].
  unfold convertColumnInfo, bind, lift. rewrite Hrun. reflexivity.
Qed.

Lemma convertColumnInfo_missing (tblInfo : model.TableInfo.t)
    (pbColumns : list tipb.ColumnInfo.t) (col : tipb.ColumnInfo.t)
    (b : PBPlanBuilder) :
  firstMissing tblInfo pbColumns col ->
  convertColumnInfo tblInfo pbColumns b =
    (Err (ErrColumnNotFound (tipb.ColumnInfo.ColumnId col)
            (model.L (model.TableInfo.Name tblInfo))), b).
Proof.
  intros Hmiss. unfold convertColumnInfo, bind, lift.
  now rewrite (convertColumnInfoFrom_missing _ _ _ Hmiss).
Qed.

(** An error of the first executor is the outcome of [Build], and the
    builder is as that executor left it. *)
Lemma Build_first_error (e : tipb.Executor.t) (rest : list tipb.Executor.t)
    (b b' : PBPlanBuilder) (err : error) :
  pbToPhysicalPlan e b = (Err err, b') ->
  Build (e :: rest) b = (Err err, b').
Proof.
  intros H. unfold Build, bind. simpl. unfold bind. now rewrite H.
Qed.

(** C6.  Column resolution is all or nothing.  Either every requested id
    names a catalog column, and the resolver returns one catalog column per
    request, in request order (the first of that id in the catalog), and
    stores their cloned types as the builder's type context; or it fails
    with [ErrColumnNotFound] for the first requested id that is missing and
    the table's name, the builder is left as it was (no type context, no
    identifier allocated), and a build whose scan makes this request fails
    with the same error. *)
Theorem convertColumnInfo_all_or_nothing (tblInfo : model.TableInfo.t)
    (pbColumns : list tipb.ColumnInfo.t) (b : PBPlanBuilder) :
  (allResolvable tblInfo pbColumns
   /\ exists columns,
        convertColumnInfo tblInfo pbColumns b =
          (Ok columns,
           mkPBPlanBuilder (sctx b)
             (map (fun c => types.Clone (model.ColumnInfo.FieldType c)) columns)
             (is_ b) (ranges b))
        /\ map model.ColumnInfo.ID columns
           = map tipb.ColumnInfo.ColumnId pbColumns
        /\ map Some columns =
           map (fun col => findColumn (tipb.ColumnInfo.ColumnId col)
                             (model.TableInfo.Columns tblInfo)) pbColumns)
  \/
  (exists col,
     firstMissing tblInfo pbColumns col
     /\ convertColumnInfo tblInfo pbColumns b =
          (Err (ErrColumnNotFound (tipb.ColumnInfo.ColumnId col)
                  (model.L (model.TableInfo.Name tblInfo))), b)
     /\ forall e tblScan tbl dbInfo rest,
          tipb.Executor.Tp e = tipb.ExecType_TypeTableScan ->
          tipb.Executor.TblScan e = Some tblScan ->
          tipb.TableScan.Columns tblScan = pbColumns ->
          infoschema.TableByID (is_ b) (tipb.TableScan.TableId tblScan) = Some tbl ->
          infoschema.Meta tbl = tblInfo ->
          infoschema.SchemaByTable (is_ b) tblInfo = Some dbInfo ->
          infoschema.IsClusterTable tbl = true ->
          Build (e :: rest) b =
            (Err (ErrColumnNotFound (tipb.ColumnInfo.ColumnId col)
                    (model.L (model.TableInfo.Name tblInfo))), b)).
Proof.
  destruct (resolvable_or_missing tblInfo pbColumns) as [Hall | [col Hmiss]].
  - left. split; [exact Hall |].
    exact (convertColumnInfo_resolvable tblInfo pbColumns b Hall).
  - right. exists col. split; [exact Hmiss |].
    split; [exact (convertColumnInfo_missing _ _ _ b Hmiss) |].
    intros e tblScan tbl dbInfo rest Htp Hscan Hcols Htbl Hmeta Hdb Hcluster.
    apply Build_first_error.
    unfold pbToPhysicalPlan. rewrite Htp.
    unfold pbToTableScan. rewrite Hscan, Htbl, Hmeta, Hdb, Hcluster, Hcols.
    simpl. unfold bind at 1.
    now rewrite (convertColumnInfo_missing _ _ _ b Hmiss).
Qed.

End ResolutionFacts.

(** A request for columns 3 and 2 of the slow-log table resolves in request
    order; a request that also names column 7 fails for 7, whatever comes
    after it, and so does the build. *)
Example convertColumnInfo_resolves :
  convertColumnInfo Sample.slowLogInfo (map tipb.ColumnInfo.mk [3; 2])
    (Sample.builder None)
  = (Ok [ model.ColumnInfo.mk 3 (Sample.ci "query") Sample.textType;
          model.ColumnInfo.mk 2 (Sample.ci "time") Sample.datetimeType ],
     mkPBPlanBuilder (variable.mkSessionVars 0)
       [Sample.textType; Sample.datetimeType] Sample.catalog None).
Proof. vm_compute. reflexivity. Qed.

Example convertColumnInfo_fails :
  convertColumnInfo Sample.slowLogInfo (map tipb.ColumnInfo.mk [3; 7; 2; 9])
    (Sample.builder None)
  = (Err (ErrColumnNotFound 7 "cluster_slow_query"), Sample.builder None)
  /\ Build (strs := Sample.strs) (codec := Sample.codec) (decoder := Sample.decoder)
       (extractor := Sample.extractor)
       [Sample.scan 1 [3; 7; 2; 9]; Sample.limit 10] (Sample.builder None)
     = (Err (ErrColumnNotFound 7 "cluster_slow_query"), Sample.builder None).
Proof. split; vm_compute; reflexivity. Qed.

(** ** Output schemas *)

Section SchemaBuilderFacts.

Lemma afterAlloc_0 (b : PBPlanBuilder) : afterAlloc b 0 = b.
Proof.
  destruct b as [[n] t i r]. unfold afterAlloc. simpl. now rewrite Z.add_0_r.
Qed.

Lemma afterAlloc_S (b : PBPlanBuilder) (k : nat) :
  afterAlloc (afterAlloc b 1) k = afterAlloc b (S k).
Proof.
  unfold afterAlloc. simpl. do 2 f_equal. lia.
Qed.

Lemma afterAlloc_add (b : PBPlanBuilder) (j k : nat) :
  afterAlloc (afterAlloc b j) k = afterAlloc b (j + k).
Proof.
  unfold afterAlloc. simpl. do 2 f_equal. lia.
Qed.

Lemma AllocPlanColumnID_afterAlloc (b : PBPlanBuilder) :
  AllocPlanColumnID b = (Ok (variable.PlanColumnID (sctx b) + 1), afterAlloc b 1).
Proof. reflexivity. Qed.

Lemma scanColumnsFrom_app (n : Z) (l1 l2 : list model.ColumnInfo.t) :
  scanColumnsFrom n (l1 ++ l2) =
  scanColumnsFrom n l1 ++ scanColumnsFrom (n + Z.of_nat (List.length l1)) l2.
Proof.
  revert n. induction l1 as [| c l1 IH]; intros n; simpl.
  - now rewrite Z.add_0_r.
  - rewrite IH. do 3 f_equal. lia.
Qed.

(** The inner loop allocates one identifier for every requested column
    with the id of [col] and appends a schema column made from [col]. *)
Lemma appendMatching_spec (col : model.ColumnInfo.t)
    (columns : list model.ColumnInfo.t) :
  forall schema b,
    let hits := map (fun _ : model.ColumnInfo.t => col)
                  (filter (fun colInfo =>
                             model.ColumnInfo.ID col =? model.ColumnInfo.ID colInfo)
                     columns) in
    appendMatching col columns schema b =
      (Ok (expression.mkSchema
             (expression.Columns schema
              ++ scanColumnsFrom (variable.PlanColumnID (sctx b)) hits)),
       afterAlloc b (List.length hits)).
Proof.
  induction columns as [| colInfo rest IH]; intros schema b; simpl.
  - rewrite app_nil_r, afterAlloc_0. now destruct schema.
  - destruct (model.ColumnInfo.ID col =? model.ColumnInfo.ID colInfo); simpl.
    + unfold bind. rewrite AllocPlanColumnID_afterAlloc.
      rewrite IH. simpl. rewrite afterAlloc_S, <- app_assoc. reflexivity.
    + apply IH.
Qed.

Lemma buildTableScanSchemaFrom_spec (tblColumns columns : list model.ColumnInfo.t) :
  forall schema b,
    buildTableScanSchemaFrom tblColumns columns schema b =
      (Ok (expression.mkSchema
             (expression.Columns schema
              ++ scanColumnsFrom (variable.PlanColumnID (sctx b))
                   (catalogOrder tblColumns columns))),
       afterAlloc b (List.length (catalogOrder tblColumns columns))).
Proof.
  induction tblColumns as [| col rest IH]; intros schema b; simpl.
  - rewrite app_nil_r, afterAlloc_0. now destruct schema.
  - unfold bind. rewrite appendMatching_spec. cbv zeta.
    rewrite IH. simpl.
    rewrite afterAlloc_add, <- app_assoc, scanColumnsFrom_app, <- length_app.
    reflexivity.
Qed.

Lemma scanColumnsFrom_ID (n : Z) (cols : list model.ColumnInfo.t) :
  map expression.ID (scanColumnsFrom n cols) = map model.ColumnInfo.ID cols.
Proof.
  revert n. induction cols as [| c rest IH]; intros n; simpl; [reflexivity |].
  now rewrite IH.
Qed.

Lemma scanColumnsFrom_RetType (n : Z) (cols : list model.ColumnInfo.t) :
  map expression.RetType (scanColumnsFrom n cols) =
  map model.ColumnInfo.FieldType cols.
Proof.
  revert n. induction cols as [| c rest IH]; intros n; simpl; [reflexivity |].
  now rewrite IH.
Qed.

Lemma scanColumnsFrom_UniqueID (n : Z) (cols : list model.ColumnInfo.t) :
  map expression.UniqueID (scanColumnsFrom n cols) =
  map (fun i => n + Z.of_nat i) (seq 1 (List.length cols)).
Proof.
  revert n. induction cols as [| c rest IH]; intros n; simpl; [reflexivity |].
  rewrite IH, <- (seq_shift _ 1), map_map. f_equal.
  apply map_ext. intros i. lia.
Qed.

Lemma aggColumnsFrom_UniqueID (n : Z) (aggFuncs : list aggregation.AggFuncDesc) :
  map expression.UniqueID (aggColumnsFrom n aggFuncs) =
  map (fun i => n + Z.of_nat i) (seq 1 (List.length aggFuncs)).
Proof.
  revert n. induction aggFuncs as [| c rest IH]; intros n; simpl; [reflexivity |].
  rewrite IH, <- (seq_shift _ 1), map_map. f_equal.
  apply map_ext. intros i. lia.
Qed.

Lemma aggColumnsFrom_RetType (n : Z) (aggFuncs : list aggregation.AggFuncDesc) :
  map expression.RetType (aggColumnsFrom n aggFuncs) =
  map aggregation.RetTp aggFuncs.
Proof.
  revert n. induction aggFuncs as [| c rest IH]; intros n; simpl; [reflexivity |].
  now rewrite IH.
Qed.

(** Identifiers counted upwards from [n] are pairwise different and lie
    between [n + 1] and [n + k]. *)
Lemma counted_NoDup (n : Z) (k : nat) :
  NoDup (map (fun i => n + Z.of_nat i) (seq 1 k)).
Proof.
  apply Finite.Injective_map_NoDup; [| apply seq_NoDup].
  intros i j H. lia.
Qed.

Lemma counted_range (n : Z) (k : nat) (u : Z) :
  In u (map (fun i => n + Z.of_nat i) (seq 1 k)) -> n < u <= n + Z.of_nat k.
Proof.
  rewrite in_map_iff. intros [i [<- Hi]]. apply in_seq in Hi. lia.
Qed.

Lemma filter_length_Permutation {A : Type} (f : A -> bool) (l l' : list A) :
  Permutation l l' -> List.length (filter f l) = List.length (filter f l').
Proof.
  induction 1 as [| x l l' _ IH | x y l | l l' l'' _ IH1 _ IH2]; simpl.
  - reflexivity.
  - destruct (f x); simpl; now rewrite IH.
  - destruct (f x), (f y); reflexivity.
  - now rewrite IH1.
Qed.

Lemma map_const_length {A B : Type} (b : B) (l l' : list A) :
  List.length l = List.length l' ->
  map (fun _ => b) l = map (fun _ => b) l'.
Proof.
  revert l'. induction l as [| x l IH]; intros [| y l'] H; simpl in *;
    try discriminate; [reflexivity |].
  f_equal. apply IH. now injection H.
Qed.

(** The matched catalog columns do not depend on the order of the request. *)
Lemma catalogOrder_Permutation (tblColumns columns columns' : list model.ColumnInfo.t) :
  Permutation columns columns' ->
  catalogOrder tblColumns columns = catalogOrder tblColumns columns'.
Proof.
  intros Hperm. unfold catalogOrder.
  induction tblColumns as [| col rest IH]; simpl; [reflexivity |].
  rewrite IH. f_equal.
  apply map_const_length. now apply filter_length_Permutation.
Qed.

(** C7.  The scan's schema lists the matched columns in the order of the
    catalog's column list, each a schema column with the catalog column's
    id and type; the builder allocates exactly one identifier per schema
    column, the identifiers are pairwise different and newer than any the
    session allocated before, and any reordering of the request gives the
    same schema. *)
Theorem buildTableScanSchema_catalog_order (tblInfo : model.TableInfo.t)
    (columns : list model.ColumnInfo.t) (b : PBPlanBuilder) :
  let n := variable.PlanColumnID (sctx b) in
  let matched := catalogOrder (model.TableInfo.Columns tblInfo) columns in
  exists schema,
    buildTableScanSchema tblInfo columns b
      = (Ok schema, afterAlloc b (List.length matched))
    /\ map expression.ID (expression.Columns schema)
       = map model.ColumnInfo.ID matched
    /\ map expression.RetType (expression.Columns schema)
       = map model.ColumnInfo.FieldType matched
    /\ map expression.UniqueID (expression.Columns schema)
       = map (fun i => n + Z.of_nat i) (seq 1 (List.length matched))
    /\ NoDup (map expression.UniqueID (expression.Columns schema))
    /\ (forall c, In c (expression.Columns schema) ->
          n < expression.UniqueID c
            <= variable.PlanColumnID (sctx (afterAlloc b (List.length matched))))
    /\ (forall columns', Permutation columns columns' ->
          buildTableScanSchema tblInfo columns' b
            = (Ok schema, afterAlloc b (List.length matched))).
Proof.
  intros n matched.
  exists (expression.mkSchema (scanColumnsFrom n matched)).
  unfold buildTableScanSchema.
  repeat split.
  - now rewrite buildTableScanSchemaFrom_spec.
  - apply scanColumnsFrom_ID.
  - apply scanColumnsFrom_RetType.
  - apply scanColumnsFrom_UniqueID.
  - simpl. rewrite scanColumnsFrom_UniqueID. apply counted_NoDup.
  - apply (counted_range n (List.length matched)).
    rewrite <- scanColumnsFrom_UniqueID. now apply in_map.
  - apply (counted_range n (List.length matched)).
    rewrite <- scanColumnsFrom_UniqueID. now apply in_map.
  - intros columns' Hperm. rewrite buildTableScanSchemaFrom_spec.
    now rewrite <- (catalogOrder_Permutation _ _ _ Hperm).
Qed.

End SchemaBuilderFacts.

(** Columns 3 and 2 requested in that order: the schema has catalog column
    2 first, then 3, with the next two identifiers of a session that had
    allocated 40. *)
Example buildTableScanSchema_example :
  let requested :=
    [ model.ColumnInfo.mk 3 (Sample.ci "query") Sample.textType;
      model.ColumnInfo.mk 2 (Sample.ci "time") Sample.datetimeType ] in
  let b := NewPBPlanBuilder (variable.mkSessionVars 40) Sample.catalog None in
  fst (buildTableScanSchema Sample.slowLogInfo requested b)
  = Ok (expression.mkSchema
          [ expression.mkColumn 41 2 0 Sample.datetimeType;
            expression.mkColumn 42 3 0 Sample.textType ])
  /\ sctx (snd (buildTableScanSchema Sample.slowLogInfo requested b))
     = variable.mkSessionVars 42.
Proof. cbv zeta. split; vm_compute; reflexivity. Qed.

Section AggregationFacts.

Context {decoder : ExprDecoder} {extractor : MemTablePredicateExtractor}.

Lemma buildAggSchemaFrom_spec (aggFuncs : list aggregation.AggFuncDesc) :
  forall schema b,
    buildAggSchemaFrom aggFuncs schema b =
      (Ok (expression.mkSchema
             (expression.Columns schema
              ++ aggColumnsFrom (variable.PlanColumnID (sctx b)) aggFuncs)),
       afterAlloc b (List.length aggFuncs)).
Proof.
  induction aggFuncs as [| agg rest IH]; intros schema b; simpl.
  - rewrite app_nil_r, afterAlloc_0. now destruct schema.
  - unfold bind. rewrite AllocPlanColumnID_afterAlloc.
    rewrite IH. simpl. rewrite afterAlloc_S, <- app_assoc. reflexivity.
Qed.

Lemma buildAggSchema_spec (aggFuncs : list aggregation.AggFuncDesc)
    (groupBys : list expression.Expression) (b : PBPlanBuilder) :
  buildAggSchema aggFuncs groupBys b =
    (Ok (expression.mkSchema
           (aggColumnsFrom (variable.PlanColumnID (sctx b)) aggFuncs)),
     afterAlloc b (List.length aggFuncs)).
Proof. unfold buildAggSchema. now rewrite buildAggSchemaFrom_spec. Qed.

Lemma mapO_length {A B : Type} (f : A -> Outcome B) (xs : list A) (ys : list B) :
  mapO f xs = Ok ys -> List.length ys = List.length xs.
Proof.
  revert ys. induction xs as [| x rest IH]; intros ys; simpl.
  - now intros [= <-].
  - destruct (f x) as [y | |]; simpl; try discriminate.
    destruct (mapO f rest) as [ys' | |]; simpl; try discriminate.
    intros [= <-]. simpl. f_equal. now apply IH.
Qed.

Lemma aggColumnsFrom_length (n : Z) (aggFuncs : list aggregation.AggFuncDesc) :
  List.length (aggColumnsFrom n aggFuncs) = List.length aggFuncs.
Proof.
  revert n. induction aggFuncs as [| a rest IH]; intros n; simpl; [reflexivity |].
  now rewrite IH.
Qed.

Lemma aggColumnsFrom_ID (n : Z) (aggFuncs : list aggregation.AggFuncDesc) :
  map expression.ID (aggColumnsFrom n aggFuncs) = map (fun _ => 0) aggFuncs.
Proof.
  revert n. induction aggFuncs as [| a rest IH]; intros n; simpl; [reflexivity |].
  now rewrite IH.
Qed.

(** C8.  An aggregation executor, hash or streaming, whose aggregate
    functions and group-by expressions decode yields an aggregation node of
    that mode whose schema has exactly one column per aggregate function,
    in function order and with the function's result type; the schema is
    the same whatever the group-by expressions are, and holds nothing of
    them. *)
Theorem pbToAgg_schema (e : tipb.Executor.t) (isStreamAgg : bool)
    (b : PBPlanBuilder) (agg : tipb.Aggregation.t)
    (aggFuncs : list aggregation.AggFuncDesc)
    (groupBys : list expression.Expression) :
  tipb.Executor.Aggregation e = Some agg ->
  mapO (fun expr => PBExprToAggFuncDesc expr (tps b))
    (tipb.Aggregation.AggFunc agg) = Ok aggFuncs ->
  PBToExprs (tipb.Aggregation.GroupBy agg) (tps b) = Ok groupBys ->
  exists schema,
    pbToAgg e isStreamAgg b =
      (Ok (Plan (if isStreamAgg
                 then PhysicalStreamAgg aggFuncs groupBys schema
                 else PhysicalHashAgg aggFuncs groupBys schema) []),
       afterAlloc b (List.length aggFuncs))
    /\ List.length (expression.Columns schema)
       = List.length (tipb.Aggregation.AggFunc agg)
    /\ map expression.RetType (expression.Columns schema)
       = map aggregation.RetTp aggFuncs
    /\ map expression.ID (expression.Columns schema)
       = map (fun _ => 0) aggFuncs
    /\ NoDup (map expression.UniqueID (expression.Columns schema))
    /\ (forall groupBys', fst (buildAggSchema aggFuncs groupBys' b) = Ok schema).
Proof.
  intros Hagg Hfuncs Hgroup.
  exists (expression.mkSchema
            (aggColumnsFrom (variable.PlanColumnID (sctx b)) aggFuncs)).
  split.
  - unfold pbToAgg, getAggInfo. rewrite Hagg.
    unfold bind, lift, ret. rewrite Hfuncs, Hgroup. simpl.
    rewrite buildAggSchema_spec. now destruct isStreamAgg.
  - simpl. repeat split.
    + rewrite aggColumnsFrom_length. now apply mapO_length in Hfuncs.
    + apply aggColumnsFrom_RetType.
    + apply aggColumnsFrom_ID.
    + rewrite aggColumnsFrom_UniqueID. apply counted_NoDup.
    + intros groupBys'. now rewrite buildAggSchema_spec.
Qed.

End AggregationFacts.

(** Two aggregate functions and one group-by expression above a scan of
    three columns: the streaming aggregation's schema has two columns. *)
Lemma pbToAgg_schema_witness :
  let b := snd (pbToTableScan (strs := Sample.strs) (codec := Sample.codec)
                  (extractor := Sample.extractor)
                  (Sample.scan 1 [1; 2; 3]) (Sample.builder None)) in
  let count := fun offset => tipb.mkExpr 3001 [] [Sample.colRef offset] in
  exists schema aggFuncs groupBys,
    fst (pbToAgg (decoder := Sample.decoder) (extractor := Sample.extractor)
           (Sample.agg true [count 0%nat; count 2%nat] [Sample.colRef 1]) true b)
    = Ok (Plan (PhysicalStreamAgg aggFuncs groupBys schema) [])
    /\ List.length (expression.Columns schema) = 2%nat
    /\ List.length groupBys = 1%nat.
Proof.
  cbv zeta.
  destruct (pbToAgg_schema (decoder := Sample.decoder)
              (extractor := Sample.extractor)
              (Sample.agg true
                 [tipb.mkExpr 3001 [] [Sample.colRef 0];
                  tipb.mkExpr 3001 [] [Sample.colRef 2]] [Sample.colRef 1])
              true
              (snd (pbToTableScan (strs := Sample.strs) (codec := Sample.codec)
                      (extractor := Sample.extractor)
                      (Sample.scan 1 [1; 2; 3]) (Sample.builder None)))
              _ _ _ eq_refl eq_refl eq_refl)
    as [schema [Hrun [Hlen _]]].
  eexists schema, _, _. rewrite Hrun. simpl.
  split; [reflexivity |]. split; [exact Hlen | reflexivity].
Defined.

(** ** The executor decoder *)

Section BuildFacts.

Context {codec : RowCodec} {decoder : ExprDecoder}
        {extractor : MemTablePredicateExtractor} {strs : Strings}.

Ltac run_builder :=
  unfold bind, lift, ret, fail, panic in *;
  repeat match goal with
         | H : (_, _) = (_, _) |- _ => injection H as H ?; subst
         | H : Ok _ = Ok _ |- _ => injection H as H; subst
         | H : context [match ?x with _ => _ end] |- _ =>
             destruct x eqn:?; simpl in H; try discriminate H
         end.

Lemma pbToTableScan_no_children (e : tipb.Executor.t) (b b' : PBPlanBuilder)
    (p : PhysicalPlan) :
  pbToTableScan e b = (Ok p, b') -> Children p = [].
Proof.
  unfold pbToTableScan. intros H. run_builder; reflexivity.
Qed.

Lemma pbToAgg_no_children (e : tipb.Executor.t) (isStreamAgg : bool)
    (b b' : PBPlanBuilder) (p : PhysicalPlan) :
  pbToAgg e isStreamAgg b = (Ok p, b') -> Children p = [].
Proof.
  unfold pbToAgg, getAggInfo. intros H. run_builder; reflexivity.
Qed.

(** A freshly built node has no children. *)
Lemma pbToPhysicalPlan_no_children (e : tipb.Executor.t) (b b' : PBPlanBuilder)
    (p : PhysicalPlan) :
  pbToPhysicalPlan e b = (Ok p, b') -> Children p = [].
Proof.
  unfold pbToPhysicalPlan. destruct (tipb.Executor.Tp e).
  - apply pbToTableScan_no_children.
  - unfold pbToSelection. intros H. run_builder; reflexivity.
  - unfold pbToTopN. intros H. run_builder; reflexivity.
  - unfold pbToLimit. intros H. run_builder; reflexivity.
  - apply pbToAgg_no_children.
  - apply pbToAgg_no_children.
  - unfold pbToKill. intros H. run_builder; reflexivity.
  - discriminate.
Qed.

Lemma buildAll_no_children (executors : list tipb.Executor.t) :
  forall b b' plans,
    buildAll executors b = (Ok plans, b') ->
    Forall (fun p => Children p = []) plans
    /\ List.length plans = List.length executors.
Proof.
  induction executors as [| e rest IH]; intros b b' plans; simpl.
  - intros [= <- <-]. split; [constructor | reflexivity].
  - unfold bind at 1.
    destruct (pbToPhysicalPlan e b) as [[p | err |] b1] eqn:Hp; try discriminate.
    unfold bind at 1.
    destruct (buildAll rest b1) as [[ps | err |] b2] eqn:Hps; try discriminate.
    intros [= <- <-]. destruct (IH _ _ _ Hps) as [Hall Hlen].
    split; [| simpl; now rewrite Hlen].
    constructor; [| exact Hall].
    exact (pbToPhysicalPlan_no_children _ _ _ _ Hp).
Qed.

(** The loop of [Build] sets each built plan on top of the ones before. *)
Lemma buildChain_buildAll (executors : list tipb.Executor.t) :
  forall src b,
    buildChain executors src b =
    match buildAll executors b with
    | (Ok plans, b') => (Ok (chainOf plans src), b')
    | (Err err, b') => (Err err, b')
    | (Panic, b') => (Panic, b')
    end.
Proof.
  induction executors as [| e rest IH]; intros src b; simpl; [reflexivity |].
  unfold bind.
  destruct (pbToPhysicalPlan e b) as [[p | err |] b1]; try reflexivity.
  rewrite IH.
  destruct (buildAll rest b1) as [[ps | err |] b2]; reflexivity.
Qed.

Lemma buildChain_app (done rest : list tipb.Executor.t) :
  forall src b,
    buildChain (done ++ rest) src b =
    bind (buildChain done src) (fun src' => buildChain rest src') b.
Proof.
  induction done as [| e done IH]; intros src b; simpl.
  - unfold bind, ret. reflexivity.
  - unfold bind in *.
    destruct (pbToPhysicalPlan e b) as [[p | err |] b1]; try reflexivity.
    apply IH.
Qed.

Lemma chainOf_spine (plans : list PhysicalPlan) :
  Forall (fun p => Children p = []) plans ->
  forall src,
    spineOpt (chainOf plans src) = rev (map Self plans) ++ spineOpt src.
Proof.
  induction 1 as [| p ps Hp _ IH]; intros src; simpl; [reflexivity |].
  unfold chainOf in *. simpl. rewrite IH. rewrite <- app_assoc. f_equal.
  destruct p as [self cs]. simpl in Hp. subst cs.
  destruct src as [[s c] |]; reflexivity.
Qed.

Lemma chainOf_nodeCount (plans : list PhysicalPlan) :
  Forall (fun p => Children p = []) plans ->
  forall src,
    nodeCountOpt (chainOf plans src)
    = (List.length plans + nodeCountOpt src)%nat.
Proof.
  induction 1 as [| p ps Hp _ IH]; intros src; simpl; [reflexivity |].
  unfold chainOf in *. simpl. rewrite IH.
  destruct p as [self cs]. simpl in Hp. subst cs.
  destruct src as [[s c] |]; simpl; lia.
Qed.

Lemma chainOf_isChain (plans : list PhysicalPlan) :
  Forall (fun p => Children p = []) plans ->
  forall src, isChainOpt src -> isChainOpt (chainOf plans src).
Proof.
  induction 1 as [| p ps Hp _ IH]; intros src Hsrc; simpl; [exact Hsrc |].
  unfold chainOf in *. simpl. apply IH.
  destruct p as [self cs]. simpl in Hp. subst cs.
  destruct src as [s |]; simpl in *; [| split; [lia | exact I]].
  split; [lia | split; [exact Hsrc | exact I]].
Qed.

(** C5.  When every builder returns a plan, the loop of [Build] hands the
    push-down pass a chain of exactly as many nodes as there are
    executors, each with at most one child, whose nodes from the root down
    are the built nodes from the last executor to the first.  When the
    builders of a prefix return plans and the next executor's builder
    returns an error, [Build] returns that error and no plan. *)
Theorem Build_chain (executors : list tipb.Executor.t) (b : PBPlanBuilder) :
  (forall plans b',
     buildAll executors b = (Ok plans, b') ->
     exists src,
       buildChain executors None b = (Ok src, b')
       /\ nodeCountOpt src = List.length executors
       /\ spineOpt src = rev (map Self plans)
       /\ isChainOpt src
       /\ List.length plans = List.length executors)
  /\
  (forall done e rest plans b1 b2 err,
     executors = done ++ e :: rest ->
     buildAll done b = (Ok plans, b1) ->
     pbToPhysicalPlan e b1 = (Err err, b2) ->
     Build executors b = (Err err, b2)).
Proof.
  split.
  - intros plans b' Hall.
    destruct (buildAll_no_children _ _ _ _ Hall) as [Hleaf Hlen].
    exists (chainOf plans None).
    rewrite buildChain_buildAll, Hall.
    split; [reflexivity |]. split.
    + rewrite (chainOf_nodeCount _ Hleaf). simpl. lia.
    + split; [| split; [now apply chainOf_isChain | exact Hlen]].
      rewrite (chainOf_spine _ Hleaf). simpl. apply app_nil_r.
  - intros done e rest plans b1 b2 err -> Hdone He.
    unfold Build. unfold bind at 1.
    rewrite buildChain_app. unfold bind at 1.
    rewrite buildChain_buildAll, Hdone. simpl.
    unfold bind at 1. now rewrite He.
Qed.

End BuildFacts.

(** A scan, a selection and a limit: before push-down the chain has three
    nodes, the limit at the root and the scan at the leaf.  With an
    executor of an unknown kind in third place the build fails there. *)
Example buildChain_three :
  exists scan conds,
    fst (buildChain (strs := Sample.strs) (codec := Sample.codec) (decoder := Sample.decoder)
           (extractor := Sample.extractor)
           [Sample.scan 1 [1; 2; 3]; Sample.selection [Sample.eq 0 5];
            Sample.limit 10]
           None (Sample.builder None))
    = Ok (Some (Plan (PhysicalLimit 10)
                  [Plan (PhysicalSelection conds)
                     [Plan (PhysicalMemTable_ scan) []]])).
Proof. eexists _, _. vm_compute. reflexivity. Qed.

Example Build_unknown_kind :
  let unknown := tipb.Executor.mk (tipb.ExecType_Other 1) None None None None None None in
  fst (Build (strs := Sample.strs) (codec := Sample.codec) (decoder := Sample.decoder)
         (extractor := Sample.extractor)
         [Sample.scan 1 [1; 2; 3]; Sample.selection [Sample.eq 0 5];
          unknown; Sample.limit 10]
         (Sample.builder None))
  = Err (ErrExecTypeNotSupported (tipb.ExecType_Other 1)).
Proof. vm_compute. reflexivity. Qed.

(** ** Setting the column identifiers *)

Section RebindFacts.

(** Closes a case in which a call that panics on column [c] is supposed to
    have returned. *)
Ltac must_panic c :=
  exfalso;
  match goal with
  | H : (exists _, _) -> Ok _ = Panic |- _ =>
      lapply H; [discriminate | exists c; split; assumption]
  end.

(** Closes a case in which a call that never returns an error is supposed
    to have returned one. *)
Ltac no_error :=
  exfalso;
  match goal with
  | H : forall err, _ <> Err err |- _ => solve [eapply H; eauto]
  end.

(** Induction on expressions, with the hypothesis for every argument of a
    function. *)
Lemma Expression_nested_ind (P : expression.Expression -> Prop) :
  (forall c, P (expression.Col c)) ->
  (forall v, P (expression.Constant v)) ->
  (forall f args, Forall P args -> P (expression.ScalarFunction f args)) ->
  forall e, P e.
Proof.
  intros HCol HConst HFun.
  fix IH 1. intros [c | v | f args].
  - apply HCol.
  - apply HConst.
  - apply HFun. revert args.
    fix IHargs 1. intros [| arg rest].
    + constructor.
    + constructor; [apply IH | apply IHargs].
Qed.

Lemma extractColumns_acc (e : expression.Expression) :
  forall result,
    expression.extractColumns result e = result ++ columnsOf e.
Proof.
  unfold columnsOf.
  induction e as [c | v | f args IH] using Expression_nested_ind;
    intros result; simpl.
  - reflexivity.
  - now rewrite app_nil_r.
  - revert result.
    induction IH as [| arg rest Harg _ IHrest]; intros result.
    + now rewrite app_nil_r.
    + rewrite IHrest. rewrite (IHrest (expression.extractColumns [] arg)).
      rewrite Harg. now rewrite app_assoc.
Qed.

Lemma columnsOf_ScalarFunction (f : string) (args : list expression.Expression) :
  columnsOf (expression.ScalarFunction f args) = flat_map columnsOf args.
Proof.
  unfold columnsOf at 1. simpl.
  assert (H : forall result,
             (fix over (result : list expression.Column)
                  (args : list expression.Expression) : list expression.Column :=
                match args with
                | [] => result
                | arg :: rest => over (expression.extractColumns result arg) rest
                end) result args
             = result ++ flat_map columnsOf args).
  { induction args as [| arg rest IH]; intros result; simpl.
    - now rewrite app_nil_r.
    - rewrite IH, extractColumns_acc. now rewrite app_assoc. }
  apply (H []).
Qed.

Lemma ExtractColumnsFromExpressions_flat (exprs : list expression.Expression) :
  forall result,
    expression.ExtractColumnsFromExpressions result exprs
    = result ++ flat_map columnsOf exprs.
Proof.
  induction exprs as [| e rest IH]; intros result; simpl.
  - now rewrite app_nil_r.
  - rewrite IH, extractColumns_acc. now rewrite app_assoc.
Qed.

Lemma rebindExpr_ScalarFunction (schemaCols : list expression.Column)
    (f : string) (args : list expression.Expression) :
  rebindExpr schemaCols (expression.ScalarFunction f args) =
  bindO (mapO (rebindExpr schemaCols) args)
    (fun args' => Ok (expression.ScalarFunction f args')).
Proof.
  simpl. f_equal.
  induction args as [| arg rest IH]; simpl; [reflexivity |].
  now rewrite IH.
Qed.

Lemma setUniqueID_in_range (schemaCols : list expression.Column)
    (c : expression.Column) :
  indexInRange schemaCols c ->
  setUniqueID schemaCols c = Ok (boundTo schemaCols c).
Proof.
  unfold indexInRange, setUniqueID, boundTo. intros [Hlo Hhi].
  destruct (Z.ltb_spec (expression.Index c) 0) as [Hneg | _]; [lia |].
  destruct (nth_error schemaCols (Z.to_nat (expression.Index c))) as [sc |] eqn:E.
  - now rewrite (nth_error_nth _ _ c E).
  - apply nth_error_None in E. lia.
Qed.

Lemma setUniqueID_out_of_range (schemaCols : list expression.Column)
    (c : expression.Column) :
  ~ indexInRange schemaCols c -> setUniqueID schemaCols c = Panic.
Proof.
  unfold indexInRange, setUniqueID. intros Hout.
  destruct (Z.ltb_spec (expression.Index c) 0) as [Hneg | Hpos]; [reflexivity |].
  destruct (nth_error schemaCols (Z.to_nat (expression.Index c))) as [sc |] eqn:E;
    [| reflexivity].
  exfalso. apply Hout. split; [exact Hpos |].
  assert (Hlt : (Z.to_nat (expression.Index c) < List.length schemaCols)%nat)
    by (apply nth_error_Some; congruence).
  lia.
Qed.

Lemma setUniqueID_not_Err (schemaCols : list expression.Column)
    (c : expression.Column) (err : error) :
  setUniqueID schemaCols c <> Err err.
Proof.
  unfold setUniqueID.
  destruct (expression.Index c <? 0); [discriminate |].
  destruct (nth_error schemaCols (Z.to_nat (expression.Index c))); discriminate.
Qed.

Lemma setUniqueID_again (schemaCols : list expression.Column)
    (c c' : expression.Column) :
  setUniqueID schemaCols c = Ok c' -> setUniqueID schemaCols c' = Ok c'.
Proof.
  unfold setUniqueID.
  destruct (expression.Index c <? 0) eqn:Hneg; [discriminate |].
  destruct (nth_error schemaCols (Z.to_nat (expression.Index c))) as [sc |] eqn:E;
    [| discriminate].
  intros [= <-]. simpl. now rewrite Hneg, E.
Qed.

(** In range: every column reference gets the identifier of the schema
    column at its index, and nothing else of the expression changes. *)
Lemma rebindExpr_in_range (schemaCols : list expression.Column)
    (e : expression.Expression) :
  (forall c, In c (columnsOf e) -> indexInRange schemaCols c) ->
  exists e',
    rebindExpr schemaCols e = Ok e'
    /\ columnsOf e' = map (boundTo schemaCols) (columnsOf e).
Proof.
  induction e as [c | v | f args IH] using Expression_nested_ind; intros Hin.
  - exists (expression.Col (boundTo schemaCols c)). simpl.
    rewrite setUniqueID_in_range; [split; reflexivity |].
    apply Hin. now left.
  - exists (expression.Constant v). split; reflexivity.
  - rewrite columnsOf_ScalarFunction in Hin.
    assert (Hargs : exists args',
               mapO (rebindExpr schemaCols) args = Ok args'
               /\ flat_map columnsOf args'
                  = map (boundTo schemaCols) (flat_map columnsOf args)).
    { induction IH as [| arg rest Harg _ IHrest]; simpl in *.
      - exists []. split; reflexivity.
      - destruct Harg as [arg' [Harg Hcols]].
        { intros c Hc. apply Hin, in_or_app. now left. }
        destruct IHrest as [rest' [Hrest Hcols']].
        { intros c Hc. apply Hin, in_or_app. now right. }
        exists (arg' :: rest'). rewrite Harg, Hrest. simpl.
        split; [reflexivity |]. now rewrite map_app, Hcols, Hcols'. }
    destruct Hargs as [args' [Hrun Hcols]].
    exists (expression.ScalarFunction f args').
    rewrite rebindExpr_ScalarFunction, Hrun. simpl.
    split; [reflexivity |]. now rewrite !columnsOf_ScalarFunction.
Qed.

(** Out of range: the assignment panics; it never returns an error. *)
Lemma rebindExpr_out_of_range (schemaCols : list expression.Column)
    (e : expression.Expression) :
  (forall err, rebindExpr schemaCols e <> Err err)
  /\ ((exists c, In c (columnsOf e) /\ ~ indexInRange schemaCols c) ->
      rebindExpr schemaCols e = Panic).
Proof.
  induction e as [c | v | f args IH] using Expression_nested_ind.
  - split.
    + intros err. simpl.
      destruct (setUniqueID schemaCols c) eqn:E; simpl; try discriminate.
      now apply setUniqueID_not_Err in E.
    + intros [c' [[<- | []] Hout]]. simpl.
      now rewrite setUniqueID_out_of_range.
  - split; [discriminate |]. intros [c [[] _]].
  - rewrite rebindExpr_ScalarFunction, columnsOf_ScalarFunction.
    assert (Hargs : (forall err, mapO (rebindExpr schemaCols) args <> Err err)
                    /\ ((exists c, In c (flat_map columnsOf args)
                                   /\ ~ indexInRange schemaCols c) ->
                        mapO (rebindExpr schemaCols) args = Panic)).
    { induction IH as [| arg rest [HargE HargP] _ [HrestE HrestP]]; simpl.
      - split; [discriminate |]. intros [c [[] _]].
      - split.
        + intros err.
          destruct (rebindExpr schemaCols arg) eqn:Ea; simpl;
            [| no_error | discriminate].
          destruct (mapO (rebindExpr schemaCols) rest) eqn:Er; simpl;
            [discriminate | no_error | discriminate].
        + intros [c [Hc Hout]]. apply in_app_or in Hc.
          destruct (rebindExpr schemaCols arg) eqn:Ea; simpl;
            [| no_error | reflexivity].
          destruct Hc as [Hc | Hc].
          * must_panic c.
          * rewrite HrestP; [reflexivity | now exists c]. }
    destruct Hargs as [HE HP]. split.
    + intros err.
      destruct (mapO (rebindExpr schemaCols) args) eqn:E; simpl;
        [discriminate | no_error | discriminate].
    + intros Hex. now rewrite (HP Hex).
Qed.

(** Set once, the identifiers stay as they are when set again. *)
Lemma rebindExpr_again (schemaCols : list expression.Column)
    (e : expression.Expression) :
  forall e', rebindExpr schemaCols e = Ok e' -> rebindExpr schemaCols e' = Ok e'.
Proof.
  induction e as [c | v | f args IH] using Expression_nested_ind; intros e'.
  - simpl. destruct (setUniqueID schemaCols c) as [c' | |] eqn:E; simpl;
      try discriminate.
    intros [= <-]. simpl. now rewrite (setUniqueID_again _ _ _ E).
  - simpl. now intros [= <-].
  - rewrite rebindExpr_ScalarFunction.
    destruct (mapO (rebindExpr schemaCols) args) as [args' | |] eqn:E; simpl;
      try discriminate.
    intros [= <-]. rewrite rebindExpr_ScalarFunction.
    assert (Hargs : mapO (rebindExpr schemaCols) args' = Ok args').
    { revert args' E.
      induction IH as [| arg rest Harg _ IHrest]; intros args'; simpl.
      - now intros [= <-].
      - destruct (rebindExpr schemaCols arg) as [arg' | |] eqn:Ea; simpl;
          try discriminate.
        destruct (mapO (rebindExpr schemaCols) rest) as [rest' | |] eqn:Er; simpl;
          try discriminate.
        intros [= <-]. simpl.
        now rewrite (Harg _ eq_refl), (IHrest _ eq_refl). }
    now rewrite Hargs.
Qed.

Lemma rebindColumns_in_range (schemaCols : list expression.Column)
    (predicates : list expression.Expression) :
  (forall c, In c (expression.ExtractColumnsFromExpressions [] predicates) ->
     indexInRange schemaCols c) ->
  exists predicates',
    rebindColumns schemaCols predicates = Ok predicates'
    /\ expression.ExtractColumnsFromExpressions [] predicates'
       = map (boundTo schemaCols)
           (expression.ExtractColumnsFromExpressions [] predicates).
Proof.
  unfold rebindColumns. rewrite ExtractColumnsFromExpressions_flat. simpl.
  induction predicates as [| e rest IH]; intros Hin; simpl in *.
  - exists []. split; reflexivity.
  - destruct (rebindExpr_in_range schemaCols e) as [e' [He Hcols]].
    { intros c Hc. apply Hin, in_or_app. now left. }
    destruct IH as [rest' [Hrest Hcols']].
    { intros c Hc. apply Hin, in_or_app. now right. }
    exists (e' :: rest'). rewrite He, Hrest. simpl. split; [reflexivity |].
    rewrite !ExtractColumnsFromExpressions_flat in *. simpl in *.
    change (expression.extractColumns [] e') with (columnsOf e').
    now rewrite map_app, Hcols, Hcols'.
Qed.

Lemma rebindColumns_out_of_range (schemaCols : list expression.Column)
    (predicates : list expression.Expression) :
  (exists c, In c (expression.ExtractColumnsFromExpressions [] predicates)
             /\ ~ indexInRange schemaCols c) ->
  rebindColumns schemaCols predicates = Panic.
Proof.
  unfold rebindColumns. rewrite ExtractColumnsFromExpressions_flat. simpl.
  induction predicates as [| e rest IH]; simpl.
  - intros [c [[] _]].
  - intros [c [Hc Hout]]. apply in_app_or in Hc.
    destruct (rebindExpr_out_of_range schemaCols e) as [HE HP].
    destruct (rebindExpr schemaCols e) eqn:Ee; simpl;
      [| no_error | reflexivity].
    destruct Hc as [Hc | Hc].
    + must_panic c.
    + rewrite IH; [reflexivity | now exists c].
Qed.

Lemma rebindColumns_not_Err (schemaCols : list expression.Column)
    (predicates : list expression.Expression) (err : error) :
  rebindColumns schemaCols predicates <> Err err.
Proof.
  unfold rebindColumns.
  induction predicates as [| e rest IH]; simpl; [discriminate |].
  destruct (rebindExpr_out_of_range schemaCols e) as [HE _].
  destruct (rebindExpr schemaCols e) eqn:Ee; simpl;
    [| no_error | discriminate].
  destruct (mapO (rebindExpr schemaCols) rest) eqn:Er; simpl;
    [discriminate | | discriminate].
  intros [= <-]. now apply IH.
Qed.

Lemma rebindColumns_again (schemaCols : list expression.Column)
    (predicates predicates' : list expression.Expression) :
  rebindColumns schemaCols predicates = Ok predicates' ->
  forall e, In e predicates' -> rebindExpr schemaCols e = Ok e.
Proof.
  unfold rebindColumns. revert predicates'.
  induction predicates as [| p rest IH]; intros predicates'; simpl.
  - intros [= <-] e [].
  - destruct (rebindExpr schemaCols p) as [p' | |] eqn:Ep; simpl; try discriminate.
    destruct (mapO (rebindExpr schemaCols) rest) as [rest' | |] eqn:Er; simpl;
      try discriminate.
    intros [= <-] e [<- | Hin].
    + exact (rebindExpr_again _ _ _ Ep).
    + exact (IH _ eq_refl e Hin).
Qed.

Lemma rebindColumns_fixed (schemaCols : list expression.Column)
    (predicates : list expression.Expression) :
  (forall e, In e predicates -> rebindExpr schemaCols e = Ok e) ->
  rebindColumns schemaCols predicates = Ok predicates.
Proof.
  unfold rebindColumns.
  induction predicates as [| p rest IH]; intros Hfix; simpl; [reflexivity |].
  rewrite (Hfix p (or_introl eq_refl)). simpl.
  rewrite IH; [reflexivity |]. intros e Hin. apply Hfix. now right.
Qed.

End RebindFacts.

(** ** The push-down pass *)

Section PushDownFacts.

Context {extractor : MemTablePredicateExtractor}.

(** Induction along the first children, the path the pass walks. *)
Lemma PhysicalPlan_first_child_ind (P : PhysicalPlan -> Prop) :
  (forall self, P (Plan self [])) ->
  (forall self child0 rest, P child0 -> P (Plan self (child0 :: rest))) ->
  forall p, P p.
Proof.
  intros Hleaf Hnode. fix IH 1. intros [self [| child0 rest]].
  - apply Hleaf.
  - apply Hnode, IH.
Qed.

Lemma empty_conditions (conditions : list expression.Expression) :
  (0 <? List.length conditions)%nat = false -> conditions = [].
Proof. destruct conditions; [reflexivity | discriminate]. Qed.

Lemma nonempty_conditions (conditions : list expression.Expression) :
  conditions <> [] -> (0 <? List.length conditions)%nat = true.
Proof. destruct conditions; [congruence | reflexivity]. Qed.

(** *** At a scan *)

(** C10.  At a scan that carries an extractor the pass indexes the schema's
    columns by each predicate column's [Index] with no check of its own.
    A column whose index is a position of the schema gets the identifier of
    the schema column at that position; when that holds for every column,
    the predicates handed to [Extract] differ from the incoming ones in
    these identifiers alone and the call returns.  A column whose index is
    at or beyond the schema's length (or negative) makes the access out of
    range: the call panics. *)
Theorem predicatePushDown_rebinds_by_index (memTable : PhysicalMemTable)
    (ex : Extractor_t) (children : list PhysicalPlan)
    (predicates : list expression.Expression) :
  Extractor memTable = Some ex ->
  let schemaCols := expression.Columns (schema memTable) in
  let cols := expression.ExtractColumnsFromExpressions [] predicates in
  (forall c, In c cols -> indexInRange schemaCols c ->
     exists schemaCol,
       nth_error schemaCols (Z.to_nat (expression.Index c)) = Some schemaCol
       /\ setUniqueID schemaCols c
          = Ok (expression.mkColumn (expression.UniqueID schemaCol)
                  (expression.ID c) (expression.Index c) (expression.RetType c))
       /\ boundTo schemaCols c
          = expression.mkColumn (expression.UniqueID schemaCol)
              (expression.ID c) (expression.Index c) (expression.RetType c))
  /\
  ((forall c, In c cols -> indexInRange schemaCols c) ->
   exists predicates',
     rebindColumns schemaCols predicates = Ok predicates'
     /\ expression.ExtractColumnsFromExpressions [] predicates'
        = map (boundTo schemaCols) cols
     /\ predicatePushDown (Plan (PhysicalMemTable_ memTable) children) predicates
        = Ok (snd (Extract ex (schema memTable) (fieldNames memTable) predicates'),
              Plan (PhysicalMemTable_
                      (withExtractor memTable
                         (fst (Extract ex (schema memTable) (fieldNames memTable)
                                 predicates'))))
                children))
  /\
  (forall c, In c cols ->
     (Z.of_nat (List.length schemaCols) <= expression.Index c
      \/ expression.Index c < 0) ->
     setUniqueID schemaCols c = Panic
     /\ predicatePushDown (Plan (PhysicalMemTable_ memTable) children) predicates
        = Panic).
Proof.
  intros Hex schemaCols cols. split; [| split].
  - intros c _ Hrange.
    exists (nth (Z.to_nat (expression.Index c)) schemaCols c).
    split; [| split; [| reflexivity]].
    + apply nth_error_nth'. destruct Hrange as [Hlo Hhi]. lia.
    + now apply setUniqueID_in_range.
  - intros Hin.
    destruct (rebindColumns_in_range schemaCols predicates Hin)
      as [predicates' [Hrun Hcols]].
    exists predicates'. split; [exact Hrun |]. split; [exact Hcols |].
    simpl. rewrite Hex. fold schemaCols. rewrite Hrun. simpl.
    now destruct (Extract ex (schema memTable) (fieldNames memTable) predicates').
  - intros c Hc Hout.
    assert (Hno : ~ indexInRange schemaCols c) by (unfold indexInRange; lia).
    split; [now apply setUniqueID_out_of_range |].
    simpl. rewrite Hex. fold schemaCols.
    rewrite (rebindColumns_out_of_range schemaCols predicates); [reflexivity |].
    now exists c.
Qed.

(** The pass returns or panics; it has no error of its own. *)
Lemma predicatePushDown_not_Err (p : PhysicalPlan) :
  forall predicates err, predicatePushDown p predicates <> Err err.
Proof.
  assert (Hscan : forall memTable children predicates err,
             predicatePushDown (Plan (PhysicalMemTable_ memTable) children)
               predicates <> Err err).
  { intros memTable children predicates err. simpl.
    destruct (Extractor memTable); [| discriminate].
    destruct (rebindColumns (expression.Columns (schema memTable)) predicates)
      eqn:E; simpl; [| now apply rebindColumns_not_Err in E | discriminate].
    now destruct (Extract _ _ _ _). }
  induction p as [self | self child0 rest IH] using PhysicalPlan_first_child_ind;
    intros predicates err; destruct self; try apply Hscan; simpl;
    try discriminate.
  - destruct (predicatePushDown child0 Conditions) as [[r c] | e |] eqn:E; simpl;
      [| now apply IH in E | discriminate].
    destruct (0 <? List.length r)%nat; discriminate.
  - destruct (predicatePushDown child0 []) as [[r c] | e |] eqn:E; simpl;
      [discriminate | now apply IH in E | discriminate].
  - destruct (predicatePushDown child0 []) as [[r c] | e |] eqn:E; simpl;
      [discriminate | now apply IH in E | discriminate].
  - destruct (predicatePushDown child0 []) as [[r c] | e |] eqn:E; simpl;
      [discriminate | now apply IH in E | discriminate].
  - destruct (predicatePushDown child0 []) as [[r c] | e |] eqn:E; simpl;
      [discriminate | now apply IH in E | discriminate].
  - destruct (predicatePushDown child0 []) as [[r c] | e |] eqn:E; simpl;
      [discriminate | now apply IH in E | discriminate].
Qed.

(** *** At a selection *)

(** C4.  A selection hands its own conditions to its child.  With what the
    child call leaves, when that is not empty, the selection stays with
    exactly these as its conditions and the rewritten child as its only
    child; when nothing is left, the rewritten child takes the selection's
    place.  Either way the call returns the predicates it was given.  In
    particular a selection directly above a scan whose extractor takes all
    conditions disappears and the scan stays, with the extractor's new
    state. *)
Theorem predicatePushDown_selection (conds : list expression.Expression)
    (child0 : PhysicalPlan) (rest : list PhysicalPlan)
    (predicates residual : list expression.Expression) (child : PhysicalPlan) :
  predicatePushDown child0 conds = Ok (residual, child) ->
  (residual <> [] ->
   predicatePushDown (Plan (PhysicalSelection conds) (child0 :: rest)) predicates
   = Ok (predicates, Plan (PhysicalSelection residual) [child]))
  /\ (residual = [] ->
      predicatePushDown (Plan (PhysicalSelection conds) (child0 :: rest)) predicates
      = Ok (predicates, child))
  /\ (forall memTable ex cs conds' ex',
        child0 = Plan (PhysicalMemTable_ memTable) cs ->
        Extractor memTable = Some ex ->
        rebindColumns (expression.Columns (schema memTable)) conds = Ok conds' ->
        Extract ex (schema memTable) (fieldNames memTable) conds' = (ex', []) ->
        predicatePushDown (Plan (PhysicalSelection conds) (child0 :: rest)) predicates
        = Ok (predicates, Plan (PhysicalMemTable_ (withExtractor memTable ex')) cs)).
Proof.
  intros Hchild. split; [| split].
  - intros Hne. simpl. rewrite Hchild. simpl.
    now rewrite (nonempty_conditions _ Hne).
  - intros ->. simpl. now rewrite Hchild.
  - intros memTable ex cs conds' ex' -> Hex Hrebind Hextract.
    simpl in *. rewrite Hex in *. rewrite Hrebind in *. simpl in *.
    rewrite Hextract in *. injection Hchild as <- <-. reflexivity.
Qed.

(** *** The calls of [Extract] *)




Lemma isChain_child (self : PlanNode) (child0 : PhysicalPlan)
    (rest : list PhysicalPlan) :
  isChain (Plan self (child0 :: rest)) -> rest = [] /\ isChain child0.
Proof.
  simpl. intros [Hlen [Hchild _]].
  split; [| exact Hchild]. destruct rest; [reflexivity | simpl in Hlen; lia].
Qed.





End PushDownFacts.

(** ** Running the pass again *)

Section SecondPassFacts.

Context {extractor : MemTablePredicateExtractor}.

Hypothesis settles : extractorSettles.

Lemma remained_of_nothing (ex ex' : Extractor_t) (sch : expression.Schema)
    (names : list FieldName.t) (remained : list expression.Expression) :
  Extract ex sch names [] = (ex', remained) -> remained = [].
Proof.
  intros H. destruct (settles _ _ _ _ _ _ H) as [_ Hincl].
  destruct remained as [| r rest]; [reflexivity |].
  destruct (Hincl r (or_introl eq_refl)).
Qed.

(** A scan after the pass: the pass given what [Extract] left changes
    nothing. *)
Lemma scan_settled (memTable : PhysicalMemTable) (children : list PhysicalPlan)
    (predicates res : list expression.Expression) (p' : PhysicalPlan) :
  predicatePushDown (Plan (PhysicalMemTable_ memTable) children) predicates
    = Ok (res, p') ->
  predicatePushDown p' res = Ok (res, p') /\ (predicates = [] -> res = []).
Proof.
  simpl. destruct (Extractor memTable) as [ex |] eqn:Hex.
  - destruct (rebindColumns (expression.Columns (schema memTable)) predicates)
      as [ps' | |] eqn:Hre; simpl; try discriminate.
    destruct (Extract ex (schema memTable) (fieldNames memTable) ps')
      as [ex' remained] eqn:Hext.
    intros [= <- <-].
    destruct (settles _ _ _ _ _ _ Hext) as [Hagain Hincl].
    split.
    + simpl. unfold fieldNames. simpl.
      rewrite (rebindColumns_fixed _ remained).
      * simpl. fold (fieldNames memTable). now rewrite Hagain.
      * intros e He. apply (rebindColumns_again _ _ _ Hre). now apply Hincl.
    + intros ->. simpl in Hre. injection Hre as <-.
      exact (remained_of_nothing _ _ _ _ _ Hext).
  - intros [= <- <-]. split; [| trivial]. simpl. now rewrite Hex.
Qed.

(** A scan the pass returns without an extractor is returned again, with
    whatever predicates it is given. *)
Lemma scan_fixed (memTable : PhysicalMemTable) (children : list PhysicalPlan)
    (predicates res : list expression.Expression) (p' : PhysicalPlan) :
  predicatePushDown (Plan (PhysicalMemTable_ memTable) children) predicates
    = Ok (res, p') ->
  carriesExtractor p' = false ->
  forall ps, predicatePushDown p' ps = Ok (ps, p').
Proof.
  simpl. destruct (Extractor memTable) as [ex |] eqn:Hex.
  - destruct (rebindColumns (expression.Columns (schema memTable)) predicates)
      as [ps' | |]; simpl; try discriminate.
    destruct (Extract ex (schema memTable) (fieldNames memTable) ps')
      as [ex' remained].
    intros [= <- <-]. discriminate.
  - intros [= <- <-] _ ps. simpl. now rewrite Hex.
Qed.

(** The pass on its own output, given what the first run returned.  The
    predicates a selection is given come back as they are, so its own
    place may be taken by a scan with an extractor only if it was given
    none. *)
Lemma predicatePushDown_settled (p : PhysicalPlan) :
  noExposedSelection p ->
  forall predicates res p',
    (isSelection p = true -> predicates = [] \/ carriesExtractor p' = false) ->
    predicatePushDown p predicates = Ok (res, p') ->
    predicatePushDown p' res = Ok (res, p')
    /\ (predicates = [] -> res = [])
    /\ (carriesExtractor p' = false ->
        forall ps, predicatePushDown p' ps = Ok (ps, p')).
Proof.
  assert (Hscan : forall memTable children predicates res p',
             predicatePushDown (Plan (PhysicalMemTable_ memTable) children)
               predicates = Ok (res, p') ->
             predicatePushDown p' res = Ok (res, p')
             /\ (predicates = [] -> res = [])
             /\ (carriesExtractor p' = false ->
                 forall ps, predicatePushDown p' ps = Ok (ps, p'))).
  { intros memTable children predicates res p' Hrun.
    destruct (scan_settled _ _ _ _ _ Hrun) as [Hagain Hnone].
    split; [exact Hagain |]. split; [exact Hnone |].
    exact (scan_fixed _ _ _ _ _ Hrun). }
  induction p as [self | self child0 rest IH] using PhysicalPlan_first_child_ind.
  - intros _ predicates res p' _.
    destruct self;
      [ apply Hscan | discriminate | .. ];
      simpl; intros [= <- <-];
      (split; [reflexivity | split; [trivial | reflexivity]]).
  - intros Hshape predicates res p' Hsel.
    destruct self; [ apply Hscan | | .. ].
    2-6: (simpl in Hshape; destruct Hshape as [_ Hshape]; simpl;
          destruct (predicatePushDown child0 []) as [[r child] | |] eqn:E;
          simpl; try discriminate;
          intros [= <- <-];
          destruct (IH Hshape _ _ _ (fun _ => or_introl eq_refl) E)
            as [Hagain [Hnone _]];
          rewrite (Hnone eq_refl) in Hagain;
          (split; [simpl; now rewrite Hagain |];
           split; [trivial | intros _ ps; simpl; now rewrite Hagain])).
    simpl in Hshape. destruct Hshape as [Hnot Hshape]. simpl.
    destruct (predicatePushDown child0 Conditions) as [[R child] | |] eqn:E;
      simpl; try discriminate.
    assert (Hchild : isSelection child0 = true ->
                     Conditions = [] \/ carriesExtractor child = false).
    { intros Hc. destruct Conditions as [| c cs]; [now left | right].
      apply (Hnot Hc) with (res := R); [discriminate | reflexivity]. }
    destruct (IH Hshape _ _ _ Hchild E) as [Hagain [_ Hfixed]].
    destruct (0 <? List.length R)%nat eqn:HR; intros [= <- <-].
    + split; [simpl; rewrite Hagain; simpl; now rewrite HR |].
      split; [trivial |].
      intros _ ps. simpl. rewrite Hagain. simpl. now rewrite HR.
    + apply empty_conditions in HR. subst R.
      split; [| split; [trivial | exact Hfixed]].
      destruct (Hsel eq_refl) as [-> | Hnone]; [exact Hagain |].
      now apply Hfixed.
Qed.

(** A plan in which no selection sits directly on another selection is one
    of those the theorem below is about. *)
Lemma noStackedSelection_noExposedSelection (p : PhysicalPlan) :
  noStackedSelection p -> noExposedSelection p.
Proof.
  induction p as [self | self child0 rest IH] using PhysicalPlan_first_child_ind.
  - now destruct self.
  - destruct self; simpl; try tauto.
    intros [Hnot Hshape]. split; [| now apply IH].
    rewrite Hnot. discriminate.
Qed.

(** C9, as the code has it.  With an extractor that, asked again, leaves
    what it left before and stays as it is, the pass is idempotent on every
    plan in which no selection that has conditions is left directly on a
    scan with an extractor by the removal of the selections below it: run
    on the output of a first run, with no incoming predicates, it returns
    the same tree (so nothing more is absorbed and no further selection
    disappears). *)
Theorem predicatePushDown_idempotent (p : PhysicalPlan)
    (res : list expression.Expression) (p' : PhysicalPlan) :
  noExposedSelection p ->
  predicatePushDown p [] = Ok (res, p') ->
  res = [] /\ predicatePushDown p' [] = Ok ([], p').
Proof.
  intros Hshape Hrun.
  destruct (predicatePushDown_settled p Hshape [] res p'
              (fun _ => or_introl eq_refl) Hrun)
    as [Hagain [Hnone _]].
  rewrite (Hnone eq_refl) in *. now split.
Qed.

End SecondPassFacts.

(** ** The pass on concrete chains *)

Lemma filter_negb_filter {A : Type} (f : A -> bool) (l : list A) :
  filter f (filter (fun x => negb (f x)) l) = [].
Proof.
  induction l as [| x l IH]; simpl; [reflexivity |].
  destruct (f x) eqn:E; simpl; [exact IH |]. now rewrite E.
Qed.

Lemma filter_twice {A : Type} (f : A -> bool) (l : list A) :
  filter f (filter f l) = filter f l.
Proof.
  induction l as [| x l IH]; simpl; [reflexivity |].
  destruct (f x) eqn:E; simpl; [| exact IH]. now rewrite E, IH.
Qed.

(** The sample extractor leaves what it cannot absorb, and absorbs nothing
    of what it left. *)
Lemma Sample_extractor_settles : extractorSettles (extractor := Sample.extractor).
Proof.
  intros st sch names ps st' remained. simpl. unfold Sample.extract.
  intros [= <- <-]. split.
  - simpl. rewrite filter_negb_filter, app_nil_r, filter_twice.
    now destruct st.
  - apply incl_filter.
Qed.



Example pushedDown_filtered :
  selectionConditions Sample.filtered = [Sample.timeCond; Sample.connCond]
  /\ map ownConditions (spine (Sample.pushedDown Sample.filtered))
     = [ []; [expression.ScalarFunction "eq"
                [expression.Col (expression.mkColumn 1 0 0 Sample.bigintType);
                 expression.Constant 7]]; [] ]
  /\ option_map Sample.Absorbed
       (Extractor (Sample.tableOf
          (last (map (fun n => Plan n []) (spine (Sample.pushedDown Sample.filtered)))
             Sample.nothing)))
     = Some [expression.ScalarFunction "ge"
               [expression.Col (expression.mkColumn 2 0 1 Sample.datetimeType);
                expression.Constant 5]].
Proof. repeat split; vm_compute; reflexivity. Qed.

(** A selection on [time >= 5] and [conn_id = 7] above the scan stays, with
    the second condition alone; a selection on [time >= 5] is absorbed whole
    and disappears. *)
Lemma predicatePushDown_selection_witness :
  let kept := expression.ScalarFunction "eq"
                [expression.Col (expression.mkColumn 1 0 0 Sample.bigintType);
                 expression.Constant 7] in
  let both := Plan (PhysicalSelection [Sample.timeCond; Sample.connCond])
                [Sample.scanOnly] in
  let one := Plan (PhysicalSelection [Sample.timeCond]) [Sample.scanOnly] in
  predicatePushDown both [Sample.strayCond]
  = Ok ([Sample.strayCond],
        Plan (PhysicalSelection [kept])
          [Sample.firstChild (Sample.pushedDown both)])
  /\ predicatePushDown one [Sample.strayCond]
     = Ok ([Sample.strayCond], Sample.pushedDown one).
Proof.
  cbv zeta. split.
  - refine (proj1 (predicatePushDown_selection (extractor := Sample.extractor)
                     [Sample.timeCond; Sample.connCond] Sample.scanOnly []
                     [Sample.strayCond] _ _ _) _).
    + vm_compute. reflexivity.
    + discriminate.
  - refine (proj1 (proj2 (predicatePushDown_selection (extractor := Sample.extractor)
                     [Sample.timeCond] Sample.scanOnly [] [Sample.strayCond] []
                     _ _)) eq_refl).
    vm_compute. reflexivity.
Defined.

(** Against C9 as stated: two selections on [time], one on the other.  The
    first run absorbs the lower one's condition and removes that selection;
    the upper selection, now directly on the scan, keeps its condition.
    The second run absorbs that condition too and removes the upper
    selection.  The extractor is one that settles, and the plan is one in
    which the removal of a selection leaves the selection above it on a
    scan with an extractor. *)
Lemma predicatePushDown_second_run_differs :
  extractorSettles (extractor := Sample.extractor)
  /\ isChain Sample.stacked
  /\ ~ noExposedSelection Sample.stacked
  /\ exists first second,
       predicatePushDown Sample.stacked [] = Ok ([], first)
       /\ predicatePushDown first [] = Ok ([], second)
       /\ first <> second
       /\ List.length (selectionConditions first) = 1%nat
       /\ selectionConditions second = []
       /\ (nodeCount second < nodeCount first)%nat.
Proof.
  split; [exact Sample_extractor_settles |].
  split; [vm_compute; repeat split; auto |].
  split.
  { intros H. vm_compute in H. destruct H as [H _].
    assert (Hcarries := H eq_refl ltac:(discriminate) _ _ eq_refl).
    discriminate Hcarries. }
  exists (Sample.pushedDown Sample.stacked),
         (Sample.pushedDown (Sample.pushedDown Sample.stacked)).
  split; [vm_compute; reflexivity |].
  split; [vm_compute; reflexivity |].
  split; [vm_compute; discriminate |].
  split; [vm_compute; reflexivity |].
  split; [vm_compute; reflexivity |].
  vm_compute. auto.
Qed.

(** Two selections, one on the other, above the slow-log scan: the lower
    one keeps its condition and stays, so the upper one never comes to sit
    on the scan, and a second run returns the tree of the first. *)
Lemma predicatePushDown_idempotent_witness :
  @nil expression.Expression = [] /\
  predicatePushDown (Sample.pushedDown Sample.stackedKept) []
  = Ok ([], Sample.pushedDown Sample.stackedKept).
Proof.
  apply (predicatePushDown_idempotent (extractor := Sample.extractor)
           Sample_extractor_settles Sample.stackedKept []
           (Sample.pushedDown Sample.stackedKept)).
  - vm_compute.
    split; [intros _ _ res child [= <- <-]; reflexivity |].
    split; [intros H; discriminate H | exact I].
  - vm_compute. reflexivity.
Defined.

(** The slow-log scan has three schema columns, with identifiers 1, 2, 3.
    Conditions on the columns at index 1 and 0 reach the extractor with
    identifiers 2 and 1; a condition on a column at index 3 makes the pass
    panic. *)
Lemma predicatePushDown_rebinds_by_index_witness :
  map expression.UniqueID
    (expression.ExtractColumnsFromExpressions []
       (fst (Sample.rebound [Sample.timeCond; Sample.connCond])))
  = [2; 1]
  /\ predicatePushDown Sample.scanOnly [Sample.timeCond; Sample.strayCond] = Panic.
Proof.
  destruct (predicatePushDown_rebinds_by_index (extractor := Sample.extractor)
              (Sample.tableOf Sample.scanOnly) (Sample.mkState false [] []) []
              [Sample.timeCond; Sample.connCond] eq_refl)
    as [_ [Hin _]].
  destruct (predicatePushDown_rebinds_by_index (extractor := Sample.extractor)
              (Sample.tableOf Sample.scanOnly) (Sample.mkState false [] []) []
              [Sample.timeCond; Sample.strayCond] eq_refl)
    as [_ [_ Hout]].
  split.
  - assert (Hrange : forall c,
              In c (expression.ExtractColumnsFromExpressions []
                      [Sample.timeCond; Sample.connCond]) ->
              indexInRange
                (expression.Columns (schema (Sample.tableOf Sample.scanOnly))) c).
    { intros c Hc. vm_compute in Hc. destruct Hc as [<- | [<- | []]];
        vm_compute; split; (discriminate || reflexivity). }
    destruct (Hin Hrange) as [predicates' [Hrun [Hcols _]]].
    unfold Sample.rebound. rewrite Hrun. simpl fst. rewrite Hcols.
    vm_compute. reflexivity.
  - refine (proj2 (Hout (expression.mkColumn 0 0 3 Sample.bigintType) _ _)).
    + vm_compute. auto.
    + left. vm_compute. discriminate.
Defined.

(** ** Identifiers over a whole build *)

Section IdentifierFacts.

Context {codec : RowCodec} {decoder : ExprDecoder}
        {extractor : MemTablePredicateExtractor} {strs : Strings}.

Lemma counted_S (n : Z) (k : nat) :
  counted n (S k) = (n + 1) :: counted (n + 1) k.
Proof.
  unfold counted. simpl. f_equal.
  rewrite <- (seq_shift _ 1), map_map. apply map_ext. intros i. lia.
Qed.

Lemma counted_app (n : Z) (j k : nat) :
  counted n (j + k) = counted n j ++ counted (n + Z.of_nat j) k.
Proof.
  revert n. induction j as [| j IH]; intros n.
  - simpl. now rewrite Z.add_0_r.
  - change (S j + k)%nat with (S (j + k)). rewrite !counted_S, IH. simpl.
    do 3 f_equal. lia.
Qed.

Lemma schemaColumns_children (self : PlanNode) (children : list PhysicalPlan) :
  schemaColumns (Plan self children)
  = ownSchema self ++ flat_map schemaColumns children.
Proof. reflexivity. Qed.

Lemma convertColumnInfo_sctx (tblInfo : model.TableInfo.t)
    (pbColumns : list tipb.ColumnInfo.t) (b b' : PBPlanBuilder)
    (o : Outcome (list model.ColumnInfo.t)) :
  convertColumnInfo tblInfo pbColumns b = (o, b') -> sctx b' = sctx b.
Proof.
  unfold convertColumnInfo, bind, lift, setTps, ret.
  destruct (convertColumnInfoFrom tblInfo pbColumns [] []);
    now intros [= <- <-].
Qed.

Lemma pbToTableScan_allocates (e : tipb.Executor.t) (b b' : PBPlanBuilder)
    (p : PhysicalPlan) :
  pbToTableScan e b = (Ok p, b') ->
  exists k,
    identifiers p = counted (variable.PlanColumnID (sctx b)) k
    /\ variable.PlanColumnID (sctx b')
       = variable.PlanColumnID (sctx b) + Z.of_nat k.
Proof.
  unfold pbToTableScan, panic.
  destruct (tipb.Executor.TblScan e) as [tblScan |]; [| discriminate].
  destruct (infoschema.TableByID (is_ b) (tipb.TableScan.TableId tblScan))
    as [tbl |]; [| discriminate].
  destruct (infoschema.SchemaByTable (is_ b) (infoschema.Meta tbl))
    as [dbInfo |]; [| discriminate].
  destruct (negb (infoschema.IsClusterTable tbl)); [discriminate |].
  unfold bind at 1.
  destruct (convertColumnInfo (infoschema.Meta tbl) (tipb.TableScan.Columns tblScan) b)
    as [[columns | |] b0] eqn:Hc; try discriminate.
  apply convertColumnInfo_sctx in Hc.
  unfold bind at 1. unfold buildTableScanSchema.
  rewrite buildTableScanSchemaFrom_spec. cbv beta iota zeta.
  set (matched := catalogOrder (model.TableInfo.Columns (infoschema.Meta tbl)) columns).
  intros Hrun. exists (List.length matched).
  assert (Hids : forall ex o,
             identifiers
               (Plan (PhysicalMemTable_
                        (mkPhysicalMemTable (model.DBInfo.Name dbInfo)
                           (infoschema.Meta tbl) columns
                           (expression.mkSchema
                              (scanColumnsFrom (variable.PlanColumnID (sctx b0))
                                 matched)) o)) ex)
             = counted (variable.PlanColumnID (sctx b)) (List.length matched)
               ++ flat_map identifiers ex).
  { intros ex o. unfold identifiers. rewrite schemaColumns_children.
    simpl. rewrite map_app, scanColumnsFrom_UniqueID, Hc. f_equal.
    induction ex as [| c ex IH]; simpl; [reflexivity |].
    now rewrite map_app, IH. }
  assert (Hctr : variable.PlanColumnID (sctx (afterAlloc b0 (List.length matched)))
                 = variable.PlanColumnID (sctx b) + Z.of_nat (List.length matched))
    by (simpl; now rewrite Hc).
  simpl in Hrun.
  destruct (String.eqb _ infoschema.ClusterTableSlowLog) in Hrun.
  - destruct (ranges (afterAlloc b0 (List.length matched))) as [rs |] in Hrun.
    + unfold bind, lift, ret in Hrun.
      destruct (decodeTimeRanges rs) in Hrun; try discriminate.
      injection Hrun as <- <-. unfold withExtractor. simpl.
      rewrite Hids. simpl. rewrite app_nil_r. now split.
    + injection Hrun as <- <-. unfold withExtractor. simpl.
      rewrite Hids. simpl. rewrite app_nil_r. now split.
  - unfold ret in Hrun. injection Hrun as <- <-.
    rewrite Hids. simpl. rewrite app_nil_r. now split.
Qed.

Lemma pbToAgg_allocates (e : tipb.Executor.t) (isStreamAgg : bool)
    (b b' : PBPlanBuilder) (p : PhysicalPlan) :
  pbToAgg e isStreamAgg b = (Ok p, b') ->
  exists k,
    identifiers p = counted (variable.PlanColumnID (sctx b)) k
    /\ variable.PlanColumnID (sctx b')
       = variable.PlanColumnID (sctx b) + Z.of_nat k.
Proof.
  unfold pbToAgg, getAggInfo, panic.
  destruct (tipb.Executor.Aggregation e) as [agg |];
    [| unfold bind; discriminate].
  unfold bind, lift, ret.
  destruct (mapO _ (tipb.Aggregation.AggFunc agg)) as [aggFuncs | |];
    try discriminate.
  destruct (PBToExprs _ _) as [groupBys | |]; try discriminate.
  simpl. rewrite buildAggSchema_spec.
  destruct isStreamAgg; intros [= <- <-]; exists (List.length aggFuncs);
    unfold identifiers; simpl; rewrite app_nil_r, aggColumnsFrom_UniqueID;
    now split.
Qed.

(** A builder takes the identifiers of its node's schema from the counter,
    one after the other, and nothing else. *)
Lemma pbToPhysicalPlan_allocates (e : tipb.Executor.t) (b b' : PBPlanBuilder)
    (p : PhysicalPlan) :
  pbToPhysicalPlan e b = (Ok p, b') ->
  exists k,
    identifiers p = counted (variable.PlanColumnID (sctx b)) k
    /\ variable.PlanColumnID (sctx b')
       = variable.PlanColumnID (sctx b) + Z.of_nat k.
Proof.
  unfold pbToPhysicalPlan. destruct (tipb.Executor.Tp e).
  - apply pbToTableScan_allocates.
  - unfold pbToSelection, panic, bind, lift, ret.
    destruct (tipb.Executor.Selection e); [| discriminate].
    destruct (PBToExprs _ _); try discriminate.
    intros [= <- <-]. exists O. split; [reflexivity | simpl; lia].
  - unfold pbToTopN, panic, bind, lift, ret.
    destruct (tipb.Executor.TopN e); [| discriminate].
    destruct (mapO _ _); try discriminate.
    intros [= <- <-]. exists O. split; [reflexivity | simpl; lia].
  - unfold pbToLimit, panic, ret.
    destruct (tipb.Executor.Limit e); [| discriminate].
    intros [= <- <-]. exists O. split; [reflexivity | simpl; lia].
  - apply pbToAgg_allocates.
  - apply pbToAgg_allocates.
  - unfold pbToKill, panic, ret.
    destruct (tipb.Executor.Kill e); [| discriminate].
    intros [= <- <-]. exists O. split; [reflexivity | simpl; lia].
  - discriminate.
Qed.

Lemma buildAll_allocates (executors : list tipb.Executor.t) :
  forall b b' plans,
    buildAll executors b = (Ok plans, b') ->
    exists k,
      flat_map identifiers plans = counted (variable.PlanColumnID (sctx b)) k
      /\ variable.PlanColumnID (sctx b')
         = variable.PlanColumnID (sctx b) + Z.of_nat k.
Proof.
  induction executors as [| e rest IH]; intros b b' plans; simpl.
  - intros [= <- <-]. exists O. split; [reflexivity | lia].
  - unfold bind at 1.
    destruct (pbToPhysicalPlan e b) as [[p | err |] b1] eqn:Hp; try discriminate.
    unfold bind at 1.
    destruct (buildAll rest b1) as [[ps | err |] b2] eqn:Hps; try discriminate.
    intros [= <- <-].
    destruct (pbToPhysicalPlan_allocates _ _ _ _ Hp) as [j [Hj Hb1]].
    destruct (IH _ _ _ Hps) as [k [Hk Hb2]].
    exists (j + k)%nat. simpl. rewrite Hj, Hk, Hb1, counted_app.
    split; [reflexivity | lia].
Qed.

Lemma chainOf_schemaColumns (plans : list PhysicalPlan) :
  Forall (fun p => Children p = []) plans ->
  forall src,
    schemaColumnsOpt (chainOf plans src)
    = flat_map schemaColumns (rev plans) ++ schemaColumnsOpt src.
Proof.
  induction 1 as [| p ps Hp _ IH]; intros src; simpl; [reflexivity |].
  unfold chainOf in *. simpl. rewrite IH.
  rewrite flat_map_app, <- app_assoc. f_equal. simpl.
  destruct p as [self cs]. simpl in Hp. subst cs.
  destruct src as [s |]; simpl; now rewrite ?app_nil_r.
Qed.

(** On a chain the pass leaves the schema columns as they are. *)
Lemma predicatePushDown_schemaColumns (p : PhysicalPlan) :
  isChain p ->
  forall predicates res p',
    predicatePushDown p predicates = Ok (res, p') ->
    schemaColumns p' = schemaColumns p.
Proof.
  induction p as [self | self child0 rest IH] using PhysicalPlan_first_child_ind.
  - intros _ predicates res p'. destruct self; simpl; try discriminate;
      try (now intros [= <- <-]).
    destruct (Extractor memTable); [| now intros [= <- <-]].
    destruct (rebindColumns _ predicates); simpl; try discriminate.
    destruct (Extract _ _ _ _). now intros [= <- <-].
  - intros Hchain predicates res p'.
    destruct (isChain_child _ _ _ Hchain) as [-> Hchild].
    specialize (IH Hchild).
    destruct self; simpl.
    + destruct (Extractor memTable); [| now intros [= <- <-]].
      destruct (rebindColumns _ predicates); simpl; try discriminate.
      destruct (Extract _ _ _ _). now intros [= <- <-].
    + destruct (predicatePushDown child0 Conditions) as [[R child] | |] eqn:E;
        simpl; try discriminate.
      apply IH in E.
      destruct (0 <? List.length R)%nat; intros [= <- <-]; simpl;
        now rewrite E, ?app_nil_r.
    + destruct (predicatePushDown child0 []) as [[R child] | |] eqn:E;
        simpl; try discriminate.
      apply IH in E. intros [= <- <-]. simpl. now rewrite E.
    + destruct (predicatePushDown child0 []) as [[R child] | |] eqn:E;
        simpl; try discriminate.
      apply IH in E. intros [= <- <-]. simpl. now rewrite E.
    + destruct (predicatePushDown child0 []) as [[R child] | |] eqn:E;
        simpl; try discriminate.
      apply IH in E. intros [= <- <-]. simpl. now rewrite E.
    + destruct (predicatePushDown child0 []) as [[R child] | |] eqn:E;
        simpl; try discriminate.
      apply IH in E. intros [= <- <-]. simpl. now rewrite E.
    + destruct (predicatePushDown child0 []) as [[R child] | |] eqn:E;
        simpl; try discriminate.
      apply IH in E. intros [= <- <-]. simpl. now rewrite E.
Qed.

(** X1.  Over a whole build, the identifiers of all schema columns of the
    plan returned are pairwise different, and they are among the ones the
    session's counter passed during the build. *)
Theorem Build_identifiers_unique (executors : list tipb.Executor.t)
    (b b' : PBPlanBuilder) (p : PhysicalPlan) :
  Build executors b = (Ok (Some p), b') ->
  NoDup (identifiers p)
  /\ (forall u, In u (identifiers p) ->
        variable.PlanColumnID (sctx b) < u <= variable.PlanColumnID (sctx b')).
Proof.
  unfold Build. unfold bind at 1. rewrite buildChain_buildAll.
  destruct (buildAll executors b) as [[plans | err |] b1] eqn:Hall;
    try discriminate.
  destruct (buildAll_no_children _ _ _ _ Hall) as [Hleaf _].
  destruct (buildAll_allocates _ _ _ _ Hall) as [k [Hids Hb1]].
  assert (Hchain := chainOf_isChain plans Hleaf None I).
  assert (Hcols := chainOf_schemaColumns plans Hleaf None).
  unfold bind, lift, ret, predicatePushDownNilable.
  destruct (chainOf plans None) as [src |]; [| discriminate].
  destruct (predicatePushDown src []) as [[r p1] | |] eqn:Hpass;
    simpl; try discriminate.
  intros [= <- <-].
  assert (Hperm : Permutation (identifiers p1)
                    (counted (variable.PlanColumnID (sctx b)) k)).
  { unfold identifiers.
    rewrite (predicatePushDown_schemaColumns _ Hchain _ _ _ Hpass).
    simpl in Hcols. rewrite Hcols, app_nil_r, <- Hids.
    clear. rewrite <- (rev_involutive plans) at 2.
    generalize (rev plans). intros l.
    induction l as [| q l IH]; simpl; [constructor |].
    rewrite map_app, flat_map_app. simpl. rewrite app_nil_r.
    apply Permutation_trans with (identifiers q ++ flat_map identifiers (rev l)).
    - apply Permutation_app_head, IH.
    - apply Permutation_app_comm. }
  split.
  - apply (Permutation_NoDup (Permutation_sym Hperm)). apply counted_NoDup.
  - intros u Hu. rewrite Hb1.
    apply (counted_range _ k). exact (Permutation_in _ Hperm Hu).
Qed.

End IdentifierFacts.

(** A scan of three columns, a selection and a streaming aggregation with
    two functions: five identifiers, all different, the first five of the
    session. *)
Lemma Build_identifiers_unique_witness :
  let p := Sample.pushedDown (Sample.chain Sample.aggregated) in
  let b' := snd (Build (strs := Sample.strs) (codec := Sample.codec) (decoder := Sample.decoder)
                   (extractor := Sample.extractor) Sample.aggregated
                   (Sample.builder None)) in
  NoDup (identifiers p)
  /\ (forall u, In u (identifiers p) ->
        variable.PlanColumnID (sctx (Sample.builder None)) < u
          <= variable.PlanColumnID (sctx b')).
Proof.
  cbv zeta.
  apply (Build_identifiers_unique (strs := Sample.strs) (codec := Sample.codec)
           (decoder := Sample.decoder) (extractor := Sample.extractor)
           Sample.aggregated (Sample.builder None)).
  vm_compute. reflexivity.
Defined.

Example Build_identifiers :
  identifiers (Sample.pushedDown (Sample.chain Sample.aggregated))
  = [4; 5; 1; 2; 3].
Proof. vm_compute. reflexivity. Qed.

(** ** The scan builder *)

Section ScanFacts.

Context {codec : RowCodec} {decoder : ExprDecoder}
        {extractor : MemTablePredicateExtractor} {strs : Strings}.

Lemma allResolvable_of_Ok (tblInfo : model.TableInfo.t)
    (pbColumns : list tipb.ColumnInfo.t) (b b' : PBPlanBuilder)
    (columns : list model.ColumnInfo.t) :
  convertColumnInfo tblInfo pbColumns b = (Ok columns, b') ->
  allResolvable tblInfo pbColumns.
Proof.
  intros Hrun.
  destruct (resolvable_or_missing tblInfo pbColumns) as [Hall | [col Hmiss]];
    [exact Hall |].
  rewrite (convertColumnInfo_missing _ _ _ b Hmiss) in Hrun. discriminate.
Qed.

(** What [convertColumnInfo] returns, whatever the request. *)
Lemma convertColumnInfo_cases (tblInfo : model.TableInfo.t)
    (pbColumns : list tipb.ColumnInfo.t) (b : PBPlanBuilder) :
  (exists columns,
     convertColumnInfo tblInfo pbColumns b
       = (Ok columns, withTps b (clonedTypes columns))
     /\ map model.ColumnInfo.ID columns = map tipb.ColumnInfo.ColumnId pbColumns
     /\ Forall (fun c => In c (model.TableInfo.Columns tblInfo)) columns)
  \/ (exists col,
        In col pbColumns
        /\ convertColumnInfo tblInfo pbColumns b
           = (Err (ErrColumnNotFound (tipb.ColumnInfo.ColumnId col)
                     (model.L (model.TableInfo.Name tblInfo))), b)).
Proof.
  destruct (resolvable_or_missing tblInfo pbColumns) as [Hall | [col Hmiss]].
  - left.
    destruct (convertColumnInfo_resolvable tblInfo pbColumns b Hall)
      as [columns [Hrun [Hids Hfirst]]].
    exists columns. split; [exact Hrun |]. split; [exact Hids |].
    clear Hrun Hids. revert columns Hfirst.
    induction pbColumns as [| col rest IH]; intros [| c columns]; simpl;
      try discriminate; [constructor |].
    intros [= Hc Hrest]. constructor.
    + symmetry in Hc. now apply findColumn_Some in Hc.
    + apply IH; [| exact Hrest]. intros x Hx. apply Hall. now right.
  - right. exists col. split.
    + destruct Hmiss as [found [rest [-> _]]]. apply in_or_app. right. now left.
    + exact (convertColumnInfo_missing _ _ _ b Hmiss).
Qed.

(** The scan builder once table and database are found and the table is a
    cluster table: the outcome in terms of the resolved columns. *)
Lemma pbToTableScan_found (e : tipb.Executor.t) (tblScan : tipb.TableScan.t)
    (tbl : infoschema.Table) (dbInfo : model.DBInfo.t) (b : PBPlanBuilder)
    (columns : list model.ColumnInfo.t) :
  tipb.Executor.TblScan e = Some tblScan ->
  infoschema.TableByID (is_ b) (tipb.TableScan.TableId tblScan) = Some tbl ->
  infoschema.SchemaByTable (is_ b) (infoschema.Meta tbl) = Some dbInfo ->
  infoschema.IsClusterTable tbl = true ->
  convertColumnInfo (infoschema.Meta tbl) (tipb.TableScan.Columns tblScan) b
    = (Ok columns, withTps b (clonedTypes columns)) ->
  let matched := catalogOrder (model.TableInfo.Columns (infoschema.Meta tbl)) columns in
  let p := mkPhysicalMemTable (model.DBInfo.Name dbInfo) (infoschema.Meta tbl)
             columns
             (expression.mkSchema
                (scanColumnsFrom (variable.PlanColumnID (sctx b)) matched))
             None in
  let b' := afterAlloc (withTps b (clonedTypes columns)) (List.length matched) in
  let ex := setDesc newSlowQueryExtractor (tipb.TableScan.Desc tblScan) in
  pbToTableScan e b =
    if isSlowLog (infoschema.Meta tbl)
    then match ranges b with
         | Some rs =>
             match decodeTimeRanges rs with
             | Ok trs =>
                 (Ok (Plan (PhysicalMemTable_
                              (withExtractor p (withTimeRanges ex trs))) []), b')
             | Err err => (Err err, b')
             | Panic => (Panic, b')
             end
         | None => (Ok (Plan (PhysicalMemTable_ (withExtractor p ex)) []), b')
         end
    else (Ok (Plan (PhysicalMemTable_ p) []), b').
Proof.
  intros Hscan Htbl Hdb Hcluster Hcols matched p b' ex.
  unfold pbToTableScan. rewrite Hscan, Htbl, Hdb, Hcluster. simpl.
  unfold bind at 1. rewrite Hcols.
  unfold bind at 1. unfold buildTableScanSchema.
  rewrite buildTableScanSchemaFrom_spec. simpl.
  fold matched. unfold isSlowLog.
  destruct (String.eqb _ infoschema.ClusterTableSlowLog); [| reflexivity].
  cbv beta. change (ranges (afterAlloc (withTps b (clonedTypes columns))
                              (List.length matched))) with (ranges b).
  destruct (ranges b) as [rs |]; [| reflexivity].
  unfold bind, lift, ret.
  destruct (decodeTimeRanges rs); reflexivity.
Qed.

(** A scan that was built: what was looked up on the way. *)
Lemma pbToTableScan_Ok_inv (e : tipb.Executor.t) (b b' : PBPlanBuilder)
    (p : PhysicalPlan) :
  pbToTableScan e b = (Ok p, b') ->
  exists tblScan tbl dbInfo columns,
    tipb.Executor.TblScan e = Some tblScan
    /\ infoschema.TableByID (is_ b) (tipb.TableScan.TableId tblScan) = Some tbl
    /\ infoschema.SchemaByTable (is_ b) (infoschema.Meta tbl) = Some dbInfo
    /\ infoschema.IsClusterTable tbl = true
    /\ convertColumnInfo (infoschema.Meta tbl) (tipb.TableScan.Columns tblScan) b
       = (Ok columns, withTps b (clonedTypes columns))
    /\ map model.ColumnInfo.ID columns
       = map tipb.ColumnInfo.ColumnId (tipb.TableScan.Columns tblScan)
    /\ Forall (fun c => In c (model.TableInfo.Columns (infoschema.Meta tbl)))
         columns.
Proof.
  intros Hrun. unfold pbToTableScan, panic in Hrun.
  destruct (tipb.Executor.TblScan e) as [tblScan |]; [| discriminate].
  destruct (infoschema.TableByID (is_ b) (tipb.TableScan.TableId tblScan))
    as [tbl |] eqn:Htbl; [| discriminate].
  destruct (infoschema.SchemaByTable (is_ b) (infoschema.Meta tbl))
    as [dbInfo |] eqn:Hdb; [| discriminate].
  destruct (infoschema.IsClusterTable tbl) eqn:Hcluster; [| discriminate].
  simpl in Hrun. unfold bind at 1 in Hrun.
  destruct (convertColumnInfo_cases (infoschema.Meta tbl)
              (tipb.TableScan.Columns tblScan) b)
    as [[columns [Hcols [Hids Hin]]] | [col [_ Hcols]]];
    rewrite Hcols in Hrun; [| discriminate].
  exists tblScan, tbl, dbInfo, columns. repeat split; assumption.
Qed.

(** A scan that is built is a scan node without children; it carries no
    extractor when its table is not the slow-log table. *)
Lemma pbToTableScan_node (e : tipb.Executor.t) (b b' : PBPlanBuilder)
    (p : PhysicalPlan) :
  pbToTableScan e b = (Ok p, b') ->
  exists tblScan tbl memTable,
    tipb.Executor.TblScan e = Some tblScan
    /\ infoschema.TableByID (is_ b) (tipb.TableScan.TableId tblScan) = Some tbl
    /\ p = Plan (PhysicalMemTable_ memTable) []
    /\ (isSlowLog (infoschema.Meta tbl) = false -> Extractor memTable = None).
Proof.
  intros Hrun.
  destruct (pbToTableScan_Ok_inv _ _ _ _ Hrun)
    as [tblScan [tbl [dbInfo [columns [Hscan [Htbl [Hdb [Hcl [Hcols _]]]]]]]]].
  rewrite (pbToTableScan_found _ _ _ _ _ _ Hscan Htbl Hdb Hcl Hcols) in Hrun.
  cbv zeta in Hrun.
  destruct (isSlowLog (infoschema.Meta tbl)) eqn:Hslow.
  - destruct (ranges b) as [rs |].
    + destruct (decodeTimeRanges rs) as [trs | |]; try discriminate.
      injection Hrun as <- <-. eexists tblScan, tbl, _.
      split; [exact Hscan |]. split; [exact Htbl |]. split; [reflexivity |].
      intros; congruence.
    + injection Hrun as <- <-. eexists tblScan, tbl, _.
      split; [exact Hscan |]. split; [exact Htbl |]. split; [reflexivity |].
      intros; congruence.
  - injection Hrun as <- <-. eexists tblScan, tbl, _.
    split; [exact Hscan |]. split; [exact Htbl |]. split; [reflexivity |].
    reflexivity.
Qed.

(** X3.  Which scans carry an extractor, and in what state.  A scan that is
    built carries an extractor exactly when its table's name, upper-cased,
    is the cluster slow-log table's.  Without key ranges the extractor is
    the empty one with the scan's [Desc]; with key ranges it has received
    one [setTimeRange] call per range whose start key is long enough, in
    input order, with the two decoded bounds. *)
Theorem pbToTableScan_extractor (e : tipb.Executor.t) (b b' : PBPlanBuilder)
    (p : PhysicalPlan) :
  pbToTableScan e b = (Ok p, b') ->
  exists tblScan tbl memTable,
    tipb.Executor.TblScan e = Some tblScan
    /\ infoschema.TableByID (is_ b) (tipb.TableScan.TableId tblScan) = Some tbl
    /\ p = Plan (PhysicalMemTable_ memTable) []
    /\ Table memTable = infoschema.Meta tbl
    /\ (isSlowLog (infoschema.Meta tbl) = false -> Extractor memTable = None)
    /\ (isSlowLog (infoschema.Meta tbl) = true -> ranges b = None ->
        Extractor memTable
        = Some (setDesc newSlowQueryExtractor (tipb.TableScan.Desc tblScan)))
    /\ (isSlowLog (infoschema.Meta tbl) = true ->
        forall rs, ranges b = Some rs ->
        exists trs,
          mapO decodePair (filter passesLengthCheck rs) = Ok trs
          /\ List.length trs = List.length (filter passesLengthCheck rs)
          /\ Extractor memTable
             = Some (withTimeRanges
                       (setDesc newSlowQueryExtractor
                          (tipb.TableScan.Desc tblScan)) trs)).
Proof.
  intros Hrun.
  destruct (pbToTableScan_Ok_inv _ _ _ _ Hrun)
    as [tblScan [tbl [dbInfo [columns [Hscan [Htbl [Hdb [Hcl [Hcols _]]]]]]]]].
  rewrite (pbToTableScan_found _ _ _ _ _ _ Hscan Htbl Hdb Hcl Hcols) in Hrun.
  cbv zeta in Hrun.
  destruct (isSlowLog (infoschema.Meta tbl)) eqn:Hslow.
  - destruct (ranges b) as [rs |] eqn:Hranges.
    + destruct (decodeTimeRanges rs) as [trs | |] eqn:Hdec; try discriminate.
      injection Hrun as <- <-.
      eexists tblScan, tbl, _.
      split; [exact Hscan |]. split; [exact Htbl |].
      split; [reflexivity |]. split; [reflexivity |].
      split; [intros; congruence |]. split; [intros; congruence |].
      intros _ rs' [= <-]. exists trs. rewrite decodeTimeRanges_filter in Hdec.
      split; [exact Hdec |]. split; [exact (mapO_length _ _ _ Hdec) | reflexivity].
    + injection Hrun as <- <-.
      eexists tblScan, tbl, _.
      split; [exact Hscan |]. split; [exact Htbl |].
      split; [reflexivity |]. split; [reflexivity |].
      split; [intros; congruence |]. split; [reflexivity | intros; congruence].
  - injection Hrun as <- <-.
    eexists tblScan, tbl, _.
    split; [exact Hscan |]. split; [exact Htbl |].
    split; [reflexivity |]. split; [reflexivity |].
    split; [reflexivity |]. split; intros; congruence.
Qed.

Lemma catalogOrder_cons_request (tblColumns : list model.ColumnInfo.t)
    (c : model.ColumnInfo.t) (columns : list model.ColumnInfo.t) :
  List.length (catalogOrder tblColumns (c :: columns))
  = (List.length (filter (fun col => Z.eqb (model.ColumnInfo.ID col) (model.ColumnInfo.ID c))
                    tblColumns)
     + List.length (catalogOrder tblColumns columns))%nat.
Proof.
  unfold catalogOrder.
  induction tblColumns as [| col rest IH]; [reflexivity |].
  cbn [flat_map]. rewrite !length_app, !length_map, IH.
  cbn [filter].
  destruct (model.ColumnInfo.ID col =? model.ColumnInfo.ID c); simpl; lia.
Qed.

Lemma no_match (tblColumns : list model.ColumnInfo.t) (c : model.ColumnInfo.t) :
  ~ In (model.ColumnInfo.ID c) (map model.ColumnInfo.ID tblColumns) ->
  filter (fun col => model.ColumnInfo.ID col =? model.ColumnInfo.ID c) tblColumns
  = [].
Proof.
  induction tblColumns as [| col rest IH]; simpl; [reflexivity |].
  intros Hnotin.
  destruct (Z.eqb_spec (model.ColumnInfo.ID col) (model.ColumnInfo.ID c))
    as [Heq | _].
  - exfalso. apply Hnotin. now left.
  - apply IH. intros Hin. apply Hnotin. now right.
Qed.

Lemma one_match (tblColumns : list model.ColumnInfo.t) (c : model.ColumnInfo.t) :
  NoDup (map model.ColumnInfo.ID tblColumns) ->
  In c tblColumns ->
  filter (fun col => model.ColumnInfo.ID col =? model.ColumnInfo.ID c) tblColumns
  = [c].
Proof.
  induction tblColumns as [| col rest IH]; simpl; [intros _ [] |].
  intros Hnd Hin. inversion Hnd as [| x l Hnotin Hnd']. subst.
  destruct Hin as [<- | Hin].
  - rewrite Z.eqb_refl. now rewrite (no_match rest col Hnotin).
  - destruct (Z.eqb_spec (model.ColumnInfo.ID col) (model.ColumnInfo.ID c))
      as [Heq | _].
    + exfalso. apply Hnotin. rewrite Heq. now apply in_map.
    + now apply IH.
Qed.

(** With pairwise different catalog ids, the schema has one column per
    requested column that is in the catalog. *)
Lemma catalogOrder_length (tblColumns columns : list model.ColumnInfo.t) :
  NoDup (map model.ColumnInfo.ID tblColumns) ->
  Forall (fun c => In c tblColumns) columns ->
  List.length (catalogOrder tblColumns columns) = List.length columns.
Proof.
  intros Hnd Hall. induction Hall as [| c columns Hc _ IH].
  - unfold catalogOrder. induction tblColumns as [| col rest IHt]; simpl;
      [reflexivity |].
    apply IHt. now inversion Hnd.
  - rewrite catalogOrder_cons_request, IH, (one_match _ _ Hnd Hc). reflexivity.
Qed.

(** X4.  What a scan that is built leaves for the executors above it.  The
    scan holds one resolved column per requested id, in request order; the
    builder's type context is replaced by their cloned types and there is
    one field name per requested column.  When the catalog's column ids are
    pairwise different the schema has as many columns as the type context,
    so every offset that is valid in the type context is a position of the
    schema. *)
Theorem pbToTableScan_type_context (e : tipb.Executor.t) (b b' : PBPlanBuilder)
    (p : PhysicalPlan) :
  pbToTableScan e b = (Ok p, b') ->
  exists tblScan tbl memTable,
    tipb.Executor.TblScan e = Some tblScan
    /\ infoschema.TableByID (is_ b) (tipb.TableScan.TableId tblScan) = Some tbl
    /\ p = Plan (PhysicalMemTable_ memTable) []
    /\ map model.ColumnInfo.ID (Columns memTable)
       = map tipb.ColumnInfo.ColumnId (tipb.TableScan.Columns tblScan)
    /\ tps b' = clonedTypes (Columns memTable)
    /\ List.length (fieldNames memTable)
       = List.length (tipb.TableScan.Columns tblScan)
    /\ (NoDup (map model.ColumnInfo.ID
                 (model.TableInfo.Columns (infoschema.Meta tbl))) ->
        List.length (expression.Columns (schema memTable)) = List.length (tps b')
        /\ forall c, 0 <= expression.Index c < Z.of_nat (List.length (tps b')) ->
             indexInRange (expression.Columns (schema memTable)) c).
Proof.
  intros Hrun.
  destruct (pbToTableScan_Ok_inv _ _ _ _ Hrun)
    as [tblScan [tbl [dbInfo [columns [Hscan [Htbl [Hdb [Hcl [Hcols [Hids Hin]]]]]]]]]].
  rewrite (pbToTableScan_found _ _ _ _ _ _ Hscan Htbl Hdb Hcl Hcols) in Hrun.
  cbv zeta in Hrun.
  assert (Hnames : List.length columns
                   = List.length (tipb.TableScan.Columns tblScan)).
  { rewrite <- (length_map model.ColumnInfo.ID), Hids. apply length_map. }
  assert (Hlen : NoDup (map model.ColumnInfo.ID
                          (model.TableInfo.Columns (infoschema.Meta tbl))) ->
                 List.length
                   (scanColumnsFrom (variable.PlanColumnID (sctx b))
                      (catalogOrder
                         (model.TableInfo.Columns (infoschema.Meta tbl)) columns))
                 = List.length (clonedTypes columns)).
  { intros Hnd. unfold clonedTypes.
    rewrite length_map, <- (catalogOrder_length _ _ Hnd Hin).
    rewrite <- (length_map expression.ID), scanColumnsFrom_ID.
    apply length_map. }
  assert (Hgoal : forall o,
    exists tblScan0 tbl0 memTable,
      tipb.Executor.TblScan e = Some tblScan0
      /\ infoschema.TableByID (is_ b) (tipb.TableScan.TableId tblScan0)
         = Some tbl0
      /\ Plan (PhysicalMemTable_
                 (mkPhysicalMemTable (model.DBInfo.Name dbInfo)
                    (infoschema.Meta tbl) columns
                    (expression.mkSchema
                       (scanColumnsFrom (variable.PlanColumnID (sctx b))
                          (catalogOrder
                             (model.TableInfo.Columns (infoschema.Meta tbl))
                             columns))) o)) []
         = Plan (PhysicalMemTable_ memTable) []
      /\ map model.ColumnInfo.ID (Columns memTable)
         = map tipb.ColumnInfo.ColumnId (tipb.TableScan.Columns tblScan0)
      /\ clonedTypes columns = clonedTypes (Columns memTable)
      /\ List.length (fieldNames memTable)
         = List.length (tipb.TableScan.Columns tblScan0)
      /\ (NoDup (map model.ColumnInfo.ID
                   (model.TableInfo.Columns (infoschema.Meta tbl0))) ->
          List.length (expression.Columns (schema memTable))
          = List.length (clonedTypes columns)
          /\ forall c,
               0 <= expression.Index c
                 < Z.of_nat (List.length (clonedTypes columns)) ->
               indexInRange (expression.Columns (schema memTable)) c)).
  { intros o. eexists tblScan, tbl, _.
    split; [exact Hscan |]. split; [exact Htbl |]. split; [reflexivity |].
    split; [exact Hids |]. split; [reflexivity |].
    split; [unfold fieldNames; simpl; now rewrite length_map |].
    intros Hnd. simpl. rewrite (Hlen Hnd). split; [reflexivity |].
    intros c Hc. unfold indexInRange. now rewrite (Hlen Hnd). }
  destruct (isSlowLog (infoschema.Meta tbl)).
  - destruct (ranges b) as [rs |].
    + destruct (decodeTimeRanges rs) as [trs | |]; try discriminate.
      injection Hrun as <- <-. exact (Hgoal _).
    + injection Hrun as <- <-. exact (Hgoal _).
  - injection Hrun as <- <-. exact (Hgoal _).
Qed.

Lemma subsequence_In {A : Type} (l l' : list A) (x : A) :
  subsequence l l' -> In x l -> In x l'.
Proof.
  induction 1 as [| y l l' _ IH | y l l' _ IH]; simpl; [tauto | |].
  - intros Hin. right. now apply IH.
  - intros [-> | Hin]; [now left | right; now apply IH].
Qed.

Lemma catalogOrder_skip_request (tblColumns : list model.ColumnInfo.t)
    (x : model.ColumnInfo.t) (columns : list model.ColumnInfo.t) :
  ~ In (model.ColumnInfo.ID x) (map model.ColumnInfo.ID tblColumns) ->
  catalogOrder tblColumns (x :: columns) = catalogOrder tblColumns columns.
Proof.
  unfold catalogOrder.
  induction tblColumns as [| col rest IH]; intros Hnotin; [reflexivity |].
  cbn [flat_map].
  rewrite IH by (intros Hin; apply Hnotin; now right).
  f_equal. cbn [filter].
  destruct (Z.eqb_spec (model.ColumnInfo.ID col) (model.ColumnInfo.ID x))
    as [Heq | _]; [| reflexivity].
  exfalso. apply Hnotin. left. exact Heq.
Qed.

Lemma no_request_match (col : model.ColumnInfo.t)
    (columns tblColumns : list model.ColumnInfo.t) :
  subsequence columns tblColumns ->
  ~ In (model.ColumnInfo.ID col) (map model.ColumnInfo.ID tblColumns) ->
  filter (fun colInfo => model.ColumnInfo.ID col =? model.ColumnInfo.ID colInfo)
    columns = [].
Proof.
  intros Hsub Hnotin.
  induction columns as [| c rest IH]; simpl; [reflexivity |].
  destruct (Z.eqb_spec (model.ColumnInfo.ID col) (model.ColumnInfo.ID c))
    as [Heq | _].
  - exfalso. apply Hnotin. rewrite Heq. apply in_map.
    apply (subsequence_In _ _ _ Hsub). now left.
  - apply IH. clear IH Hnotin.
    remember (c :: rest) as l eqn:El. revert c rest El.
    induction Hsub as [| y l l' Hsub IHs | y l l' Hsub IHs]; intros c rest El.
    + discriminate.
    + constructor. now apply (IHs c rest).
    + injection El as -> ->. now constructor.
Qed.

(** A request that lists catalog columns in catalog order, none twice,
    matches exactly itself. *)
Lemma catalogOrder_subsequence (tblColumns columns : list model.ColumnInfo.t) :
  NoDup (map model.ColumnInfo.ID tblColumns) ->
  subsequence columns tblColumns ->
  catalogOrder tblColumns columns = columns.
Proof.
  intros Hnd Hsub.
  induction Hsub as [| x l l' Hsub IH | x l l' Hsub IH].
  - reflexivity.
  - inversion Hnd as [| y ys Hnotin Hnd']. subst.
    unfold catalogOrder in *. cbn [flat_map].
    rewrite (no_request_match x l l' Hsub Hnotin). simpl. now apply IH.
  - inversion Hnd as [| y ys Hnotin Hnd']. subst.
    change (catalogOrder (x :: l') (x :: l))
      with (map (fun _ : model.ColumnInfo.t => x)
              (filter (fun colInfo =>
                         model.ColumnInfo.ID x =? model.ColumnInfo.ID colInfo)
                 (x :: l))
            ++ catalogOrder l' (x :: l)).
    cbn [filter]. rewrite Z.eqb_refl.
    rewrite (no_request_match x l l' Hsub Hnotin).
    rewrite (catalogOrder_skip_request l' x l Hnotin). simpl.
    f_equal. now apply IH.
Qed.

(** X5.  When the catalog's column ids are pairwise different and the
    request lists columns in catalog order, none twice, the schema is
    aligned with the request: its i-th column has the id and the type of
    the i-th requested column, and there is one per requested column. *)
Theorem buildTableScanSchema_aligned (tblInfo : model.TableInfo.t)
    (columns : list model.ColumnInfo.t) (b : PBPlanBuilder) :
  NoDup (map model.ColumnInfo.ID (model.TableInfo.Columns tblInfo)) ->
  subsequence columns (model.TableInfo.Columns tblInfo) ->
  exists schema,
    buildTableScanSchema tblInfo columns b
      = (Ok schema, afterAlloc b (List.length columns))
    /\ map expression.ID (expression.Columns schema)
       = map model.ColumnInfo.ID columns
    /\ map expression.RetType (expression.Columns schema)
       = map model.ColumnInfo.FieldType columns
    /\ List.length (expression.Columns schema) = List.length columns.
Proof.
  intros Hnd Hsub.
  exists (expression.mkSchema
            (scanColumnsFrom (variable.PlanColumnID (sctx b)) columns)).
  unfold buildTableScanSchema. rewrite buildTableScanSchemaFrom_spec.
  rewrite (catalogOrder_subsequence _ _ Hnd Hsub). simpl.
  split; [reflexivity |]. split; [apply scanColumnsFrom_ID |].
  split; [apply scanColumnsFrom_RetType |].
  rewrite <- (length_map expression.ID), scanColumnsFrom_ID. apply length_map.
Qed.

(** X6.  How the scan builder fails.  Every error comes from the first check
    that fails, in the order table, database, cluster flag, columns, key
    ranges.  The first four leave the builder as it was.  An error of the
    time-range decoder comes after the schema was built: the builder has
    the new type context and the scan's identifiers are spent. *)
Theorem pbToTableScan_errors (e : tipb.Executor.t) (b b' : PBPlanBuilder)
    (err : error) :
  pbToTableScan e b = (Err err, b') ->
  exists tblScan,
    tipb.Executor.TblScan e = Some tblScan
    /\ let id := tipb.TableScan.TableId tblScan in
       (infoschema.TableByID (is_ b) id = None
        /\ err = ErrTableNotExists id /\ b' = b)
       \/ exists tbl,
            infoschema.TableByID (is_ b) id = Some tbl
            /\ let name := model.L (model.TableInfo.Name (infoschema.Meta tbl)) in
               (infoschema.SchemaByTable (is_ b) (infoschema.Meta tbl) = None
                /\ err = ErrDatabaseNotExists id /\ b' = b)
               \/ (infoschema.SchemaByTable (is_ b) (infoschema.Meta tbl) <> None
                   /\ infoschema.IsClusterTable tbl = false
                   /\ err = ErrNotClusterTable name /\ b' = b)
               \/ (infoschema.SchemaByTable (is_ b) (infoschema.Meta tbl) <> None
                   /\ infoschema.IsClusterTable tbl = true
                   /\ exists col,
                        In col (tipb.TableScan.Columns tblScan)
                        /\ err = ErrColumnNotFound (tipb.ColumnInfo.ColumnId col) name
                        /\ b' = b)
               \/ (infoschema.IsClusterTable tbl = true
                   /\ isSlowLog (infoschema.Meta tbl) = true
                   /\ exists rs columns,
                        ranges b = Some rs
                        /\ decodeTimeRanges rs = Err err
                        /\ map model.ColumnInfo.ID columns
                           = map tipb.ColumnInfo.ColumnId
                               (tipb.TableScan.Columns tblScan)
                        /\ b' = afterAlloc (withTps b (clonedTypes columns))
                                  (List.length
                                     (catalogOrder
                                        (model.TableInfo.Columns (infoschema.Meta tbl))
                                        columns))).
Proof.
  intros Hrun.
  destruct (tipb.Executor.TblScan e) as [tblScan |] eqn:Hscan;
    [| unfold pbToTableScan, panic in Hrun; rewrite Hscan in Hrun; discriminate].
  exists tblScan. split; [reflexivity |]. cbv zeta.
  destruct (infoschema.TableByID (is_ b) (tipb.TableScan.TableId tblScan))
    as [tbl |] eqn:Htbl.
  2:{ left. unfold pbToTableScan in Hrun. rewrite Hscan, Htbl in Hrun.
      injection Hrun as <- <-. auto. }
  right. exists tbl. split; [reflexivity |].
  destruct (infoschema.SchemaByTable (is_ b) (infoschema.Meta tbl))
    as [dbInfo |] eqn:Hdb.
  2:{ left. unfold pbToTableScan in Hrun. rewrite Hscan, Htbl, Hdb in Hrun.
      injection Hrun as <- <-. auto. }
  right.
  destruct (infoschema.IsClusterTable tbl) eqn:Hcl.
  2:{ left. unfold pbToTableScan in Hrun. rewrite Hscan, Htbl, Hdb, Hcl in Hrun.
      injection Hrun as <- <-. repeat split; auto. discriminate. }
  right.
  destruct (convertColumnInfo_cases (infoschema.Meta tbl)
              (tipb.TableScan.Columns tblScan) b)
    as [[columns [Hcols [Hids Hin]]] | [col [Hcol Hcols]]].
  - right. split; [reflexivity |].
    rewrite (pbToTableScan_found _ _ _ _ _ _ Hscan Htbl Hdb Hcl Hcols) in Hrun.
    cbv zeta in Hrun.
    destruct (isSlowLog (infoschema.Meta tbl)); [| discriminate].
    split; [reflexivity |].
    destruct (ranges b) as [rs |]; [| discriminate].
    destruct (decodeTimeRanges rs) as [trs | err' |] eqn:Hdec; try discriminate.
    injection Hrun as <- <-.
    exists rs, columns. repeat split; auto.
  - left. split; [discriminate |]. split; [reflexivity |].
    exists col. split; [exact Hcol |].
    unfold pbToTableScan in Hrun. rewrite Hscan, Htbl, Hdb, Hcl in Hrun.
    simpl in Hrun. unfold bind at 1 in Hrun. rewrite Hcols in Hrun.
    injection Hrun as <- <-. auto.
Qed.

End ScanFacts.

(** The slow-log scan built with one key range: the extractor has one time
    range set. *)
Lemma pbToTableScan_extractor_witness :
  exists memTable trs,
    Sample.scanned (Some Sample.window) = Plan (PhysicalMemTable_ memTable) []
    /\ List.length trs = 1%nat
    /\ Extractor memTable
       = Some (withTimeRanges (setDesc newSlowQueryExtractor false) trs).
Proof.
  assert (Hrun : pbToTableScan (strs := Sample.strs) (codec := Sample.codec)
                   (extractor := Sample.extractor)
                   (Sample.scan 1 [1; 2; 3])
                   (Sample.builder (Some Sample.window))
                 = (Ok (Sample.scanned (Some Sample.window)),
                    snd (pbToTableScan (strs := Sample.strs) (codec := Sample.codec)
                           (extractor := Sample.extractor)
                           (Sample.scan 1 [1; 2; 3])
                           (Sample.builder (Some Sample.window)))))
    by (vm_compute; reflexivity).
  destruct (pbToTableScan_extractor _ _ _ _ Hrun)
    as [tblScan [tbl [memTable [Hscan [Htbl [Hp [_ [_ [_ Hex]]]]]]]]].
  injection Hscan as <-. injection Htbl as <-.
  destruct (Hex eq_refl Sample.window eq_refl) as [trs [_ [Hlen Hext]]].
  exists memTable, trs. split; [exact Hp |]. split; [exact Hlen | exact Hext].
Defined.

(** The same scan: three types in the type context, three field names,
    three schema columns. *)
Lemma pbToTableScan_type_context_witness :
  exists memTable,
    Sample.scanned None = Plan (PhysicalMemTable_ memTable) []
    /\ List.length (fieldNames memTable) = 3%nat
    /\ List.length (expression.Columns (schema memTable))
       = List.length
           (tps (snd (pbToTableScan (strs := Sample.strs) (codec := Sample.codec)
                        (extractor := Sample.extractor)
                        (Sample.scan 1 [1; 2; 3]) (Sample.builder None)))).
Proof.
  assert (Hrun : pbToTableScan (strs := Sample.strs) (codec := Sample.codec)
                   (extractor := Sample.extractor)
                   (Sample.scan 1 [1; 2; 3]) (Sample.builder None)
                 = (Ok (Sample.scanned None),
                    snd (pbToTableScan (strs := Sample.strs) (codec := Sample.codec)
                           (extractor := Sample.extractor)
                           (Sample.scan 1 [1; 2; 3]) (Sample.builder None))))
    by (vm_compute; reflexivity).
  destruct (pbToTableScan_type_context _ _ _ _ Hrun)
    as [tblScan [tbl [memTable [Hscan [Htbl [Hp [_ [_ [Hnames Hlen]]]]]]]]].
  injection Hscan as <-. injection Htbl as <-.
  exists memTable. split; [exact Hp |]. split; [exact Hnames |].
  apply Hlen. simpl.
  repeat constructor; simpl; intuition discriminate.
Defined.

(** The first and the third column of the slow-log table, asked for in
    this order. *)
Lemma buildTableScanSchema_aligned_witness :
  exists schema,
    fst (buildTableScanSchema Sample.slowLogInfo
           [model.ColumnInfo.mk 1 (Sample.ci "conn_id") Sample.bigintType;
            model.ColumnInfo.mk 3 (Sample.ci "query") Sample.textType]
           (Sample.builder None))
    = Ok schema
    /\ map expression.ID (expression.Columns schema) = [1; 3].
Proof.
  destruct (buildTableScanSchema_aligned Sample.slowLogInfo
              [model.ColumnInfo.mk 1 (Sample.ci "conn_id") Sample.bigintType;
               model.ColumnInfo.mk 3 (Sample.ci "query") Sample.textType]
              (Sample.builder None))
    as [schema [Hrun [Hids _]]].
  - simpl. repeat constructor; simpl; intuition discriminate.
  - apply subsequence_take, subsequence_skip, subsequence_take, subsequence_nil.
  - exists schema. rewrite Hrun. split; [reflexivity | exact Hids].
Defined.

(** A key range whose start key decodes to a handle that holds no time:
    the scan fails after its columns were resolved. *)
Lemma pbToTableScan_errors_witness :
  fst (pbToTableScan (strs := Sample.strs) (codec := Sample.codec) (extractor := Sample.extractor)
         (Sample.scan 1 [1; 2; 3])
         (Sample.builder
            (Some [coprocessor.mkKeyRange Sample.garbledKey
                     (Sample.timeKey Byte.x09)])))
  = Err (ErrExternal 2)
  /\ exists tblScan,
       tipb.Executor.TblScan (Sample.scan 1 [1; 2; 3]) = Some tblScan.
Proof.
  assert (Hrun : pbToTableScan (strs := Sample.strs) (codec := Sample.codec)
                   (extractor := Sample.extractor)
                   (Sample.scan 1 [1; 2; 3])
                   (Sample.builder
                      (Some [coprocessor.mkKeyRange Sample.garbledKey
                               (Sample.timeKey Byte.x09)]))
                 = (Err (ErrExternal 2),
                    afterAlloc
                      (withTps
                         (Sample.builder
                            (Some [coprocessor.mkKeyRange Sample.garbledKey
                                     (Sample.timeKey Byte.x09)]))
                         (clonedTypes (model.TableInfo.Columns Sample.slowLogInfo)))
                      3))
    by (vm_compute; reflexivity).
  split; [now rewrite Hrun |].
  destruct (pbToTableScan_errors _ _ _ _ Hrun) as [tblScan [Hscan _]].
  exists tblScan. exact Hscan.
Defined.

(** ** What a build leaves of the builder *)

Section FrameFacts.

Context {codec : RowCodec} {decoder : ExprDecoder}
        {extractor : MemTablePredicateExtractor} {strs : Strings}.

Lemma pbToTableScan_frame (e : tipb.Executor.t) (b b' : PBPlanBuilder)
    (o : Outcome PhysicalPlan) :
  pbToTableScan e b = (o, b') ->
  is_ b' = is_ b /\ ranges b' = ranges b
  /\ variable.PlanColumnID (sctx b) <= variable.PlanColumnID (sctx b').
Proof.
  assert (Hsame : is_ b = is_ b /\ ranges b = ranges b
                  /\ variable.PlanColumnID (sctx b)
                     <= variable.PlanColumnID (sctx b))
    by (repeat split; lia).
  assert (Hafter : forall tps k,
             is_ (afterAlloc (withTps b tps) k) = is_ b
             /\ ranges (afterAlloc (withTps b tps) k) = ranges b
             /\ variable.PlanColumnID (sctx b)
                <= variable.PlanColumnID (sctx (afterAlloc (withTps b tps) k)))
    by (intros; simpl; repeat split; lia).
  intros Hrun.
  destruct (tipb.Executor.TblScan e) as [tblScan |] eqn:Hscan;
    [| unfold pbToTableScan, panic in Hrun; rewrite Hscan in Hrun;
       injection Hrun as <- <-; exact Hsame].
  destruct (infoschema.TableByID (is_ b) (tipb.TableScan.TableId tblScan))
    as [tbl |] eqn:Htbl;
    [| unfold pbToTableScan in Hrun; rewrite Hscan, Htbl in Hrun;
       injection Hrun as <- <-; exact Hsame].
  destruct (infoschema.SchemaByTable (is_ b) (infoschema.Meta tbl))
    as [dbInfo |] eqn:Hdb;
    [| unfold pbToTableScan in Hrun; rewrite Hscan, Htbl, Hdb in Hrun;
       injection Hrun as <- <-; exact Hsame].
  destruct (infoschema.IsClusterTable tbl) eqn:Hcl;
    [| unfold pbToTableScan in Hrun; rewrite Hscan, Htbl, Hdb, Hcl in Hrun;
       injection Hrun as <- <-; exact Hsame].
  destruct (convertColumnInfo_cases (infoschema.Meta tbl)
              (tipb.TableScan.Columns tblScan) b)
    as [[columns [Hcols _]] | [col [_ Hcols]]].
  - rewrite (pbToTableScan_found _ _ _ _ _ _ Hscan Htbl Hdb Hcl Hcols) in Hrun.
    cbv zeta in Hrun.
    destruct (isSlowLog (infoschema.Meta tbl)).
    + destruct (ranges b) as [rs |].
      * destruct (decodeTimeRanges rs); injection Hrun as <- <-; apply Hafter.
      * injection Hrun as <- <-. apply Hafter.
    + injection Hrun as <- <-. apply Hafter.
  - unfold pbToTableScan in Hrun. rewrite Hscan, Htbl, Hdb, Hcl in Hrun.
    simpl in Hrun. unfold bind at 1 in Hrun. rewrite Hcols in Hrun.
    injection Hrun as <- <-. exact Hsame.
Qed.

Lemma pbToAgg_frame (e : tipb.Executor.t) (isStreamAgg : bool)
    (b b' : PBPlanBuilder) (o : Outcome PhysicalPlan) :
  pbToAgg e isStreamAgg b = (o, b') ->
  exists k, b' = afterAlloc b k.
Proof.
  assert (Hsame : exists k, b = afterAlloc b k).
  { exists O. destruct b as [[n] ? ? ?]. unfold afterAlloc. simpl.
    now rewrite Z.add_0_r. }
  unfold pbToAgg, getAggInfo, panic.
  destruct (tipb.Executor.Aggregation e) as [agg |];
    [| unfold bind; intros [= <- <-]; exact Hsame].
  unfold bind, lift, ret.
  destruct (mapO _ (tipb.Aggregation.AggFunc agg)) as [aggFuncs | |];
    try (intros [= <- <-]; exact Hsame).
  destruct (PBToExprs _ _) as [groupBys | |];
    try (intros [= <- <-]; exact Hsame).
  simpl. rewrite buildAggSchema_spec.
  destruct isStreamAgg; intros [= <- <-]; now exists (List.length aggFuncs).
Qed.

(** One builder: catalog and key ranges stay, the counter does not go down,
    only the scan's builder changes the type context, only the scan's and
    the aggregations' change the builder at all. *)
Lemma pbToPhysicalPlan_frame (e : tipb.Executor.t) (b b' : PBPlanBuilder)
    (o : Outcome PhysicalPlan) :
  pbToPhysicalPlan e b = (o, b') ->
  is_ b' = is_ b /\ ranges b' = ranges b
  /\ variable.PlanColumnID (sctx b) <= variable.PlanColumnID (sctx b')
  /\ (isTableScan (tipb.Executor.Tp e) = false -> tps b' = tps b)
  /\ (takesIdentifiers (tipb.Executor.Tp e) = false -> b' = b).
Proof.
  assert (Hsame : forall tp,
             is_ b = is_ b /\ ranges b = ranges b
             /\ variable.PlanColumnID (sctx b) <= variable.PlanColumnID (sctx b)
             /\ (isTableScan tp = false -> tps b = tps b)
             /\ (takesIdentifiers tp = false -> b = b))
    by (intros; repeat split; lia).
  assert (Hagg : forall s o b',
             pbToAgg e s b = (o, b') ->
             is_ b' = is_ b /\ ranges b' = ranges b
             /\ variable.PlanColumnID (sctx b) <= variable.PlanColumnID (sctx b')
             /\ tps b' = tps b).
  { intros s o0 b0 H. destruct (pbToAgg_frame _ _ _ _ _ H) as [k ->].
    simpl. repeat split; lia. }
  unfold pbToPhysicalPlan. destruct (tipb.Executor.Tp e) eqn:Htp.
  - intros H. destruct (pbToTableScan_frame _ _ _ _ H) as [H1 [H2 H3]].
    repeat split; try assumption; intros Hf; simpl in Hf; discriminate Hf.
  - unfold pbToSelection, panic, bind, lift, ret.
    destruct (tipb.Executor.Selection e); [| intros [= <- <-]; apply Hsame].
    destruct (PBToExprs _ _); intros [= <- <-]; apply Hsame.
  - unfold pbToTopN, panic, bind, lift, ret.
    destruct (tipb.Executor.TopN e); [| intros [= <- <-]; apply Hsame].
    destruct (mapO _ _); intros [= <- <-]; apply Hsame.
  - unfold pbToLimit, panic, ret.
    destruct (tipb.Executor.Limit e); intros [= <- <-]; apply Hsame.
  - intros H. destruct (Hagg _ _ _ H) as [H1 [H2 [H3 H4]]].
    repeat split; try assumption; intros Hf; simpl in Hf;
      [assumption | discriminate Hf].
  - intros H. destruct (Hagg _ _ _ H) as [H1 [H2 [H3 H4]]].
    repeat split; try assumption; intros Hf; simpl in Hf;
      [assumption | discriminate Hf].
  - unfold pbToKill, panic, ret.
    destruct (tipb.Executor.Kill e); intros [= <- <-]; apply Hsame.
  - unfold fail. intros [= <- <-]. apply Hsame.
Qed.

Lemma buildAll_frame (executors : list tipb.Executor.t) :
  forall b,
    is_ (snd (buildAll executors b)) = is_ b
    /\ ranges (snd (buildAll executors b)) = ranges b
    /\ variable.PlanColumnID (sctx b)
       <= variable.PlanColumnID (sctx (snd (buildAll executors b)))
    /\ (forallb (fun e => negb (isTableScan (tipb.Executor.Tp e))) executors
        = true ->
        tps (snd (buildAll executors b)) = tps b)
    /\ (forallb (fun e => negb (takesIdentifiers (tipb.Executor.Tp e))) executors
        = true ->
        snd (buildAll executors b) = b).
Proof.
  induction executors as [| e rest IH]; intros b.
  - simpl. repeat split; lia.
  - cbn [forallb].
    assert (Hsnd : snd (buildAll (e :: rest) b)
                   = match pbToPhysicalPlan e b with
                     | (Ok _, b1) => snd (buildAll rest b1)
                     | (_, b1) => b1
                     end).
    { cbn [buildAll]. unfold bind, ret.
      destruct (pbToPhysicalPlan e b) as [[p | err |] b1]; try reflexivity.
      now destruct (buildAll rest b1) as [[ps | err |] b2]. }
    rewrite Hsnd. clear Hsnd.
    destruct (pbToPhysicalPlan e b) as [o b1] eqn:He.
    destruct (pbToPhysicalPlan_frame _ _ _ _ He) as [H1 [H2 [H3 [H4 H5]]]].
    assert (Hstop : is_ b1 = is_ b /\ ranges b1 = ranges b
              /\ variable.PlanColumnID (sctx b) <= variable.PlanColumnID (sctx b1)
              /\ (negb (isTableScan (tipb.Executor.Tp e))
                  && forallb (fun e => negb (isTableScan (tipb.Executor.Tp e))) rest
                  = true -> tps b1 = tps b)
              /\ (negb (takesIdentifiers (tipb.Executor.Tp e))
                  && forallb (fun e => negb (takesIdentifiers (tipb.Executor.Tp e)))
                       rest
                  = true -> b1 = b)).
    { repeat split; try assumption.
      - intros H. apply andb_prop in H. destruct H as [H _].
        apply H4. now apply negb_true_iff.
      - intros H. apply andb_prop in H. destruct H as [H _].
        apply H5. now apply negb_true_iff. }
    destruct o as [p | err |]; try exact Hstop.
    destruct (IH b1) as [I1 [I2 [I3 [I4 I5]]]].
    split; [congruence |]. split; [congruence |]. split; [lia |].
    split; intros H; apply andb_prop in H; destruct H as [Ha Hb].
    + rewrite (I4 Hb). apply H4. now apply negb_true_iff.
    + rewrite (I5 Hb). apply H5. now apply negb_true_iff.
Qed.

Lemma Build_builder (executors : list tipb.Executor.t) (b : PBPlanBuilder) :
  snd (Build executors b) = snd (buildAll executors b).
Proof.
  unfold Build. unfold bind at 1. rewrite buildChain_buildAll.
  destruct (buildAll executors b) as [[ps | err |] b1]; try reflexivity.
  unfold bind, lift, ret.
  now destruct (predicatePushDownNilable (chainOf ps None) []) as [[r p'] | |].
Qed.

(** X7.  What a build leaves of the builder, whatever its outcome: the
    catalog and the key ranges as they were and the counter not lower.  The
    type context is as it was unless one of the executors is a table scan,
    and the whole builder is as it was unless one of them is a table scan
    or an aggregation. *)
Theorem Build_frame (executors : list tipb.Executor.t) (b : PBPlanBuilder) :
  is_ (snd (Build executors b)) = is_ b
  /\ ranges (snd (Build executors b)) = ranges b
  /\ variable.PlanColumnID (sctx b)
     <= variable.PlanColumnID (sctx (snd (Build executors b)))
  /\ (forallb (fun e => negb (isTableScan (tipb.Executor.Tp e))) executors
      = true ->
      tps (snd (Build executors b)) = tps b)
  /\ (forallb (fun e => negb (takesIdentifiers (tipb.Executor.Tp e))) executors
      = true ->
      snd (Build executors b) = b).
Proof. rewrite Build_builder. apply buildAll_frame. Qed.

End FrameFacts.

(** ** The pass on whole plans *)

Section WholePlanFacts.

Context {codec : RowCodec} {decoder : ExprDecoder}
        {extractor : MemTablePredicateExtractor} {strs : Strings}.

(** X8.  The pass returns a plan as it is, with the predicates it was given,
    when on its way down every selection has conditions and one child, no
    other node has more than one child, and the scan it ends at, if any,
    carries no extractor: a plan over a table other than the slow-log table
    is never rewritten. *)
Theorem predicatePushDown_inert (p : PhysicalPlan) :
  inert p ->
  forall predicates, predicatePushDown p predicates = Ok (predicates, p).
Proof.
  induction p as [self | self child0 rest IH] using PhysicalPlan_first_child_ind;
    intros Hin predicates.
  - destruct self; simpl in *; try reflexivity.
    + now rewrite Hin.
    + now destruct Hin.
  - destruct self; simpl in Hin.
    1: simpl; now rewrite Hin.
    1: destruct Hin as [Hne Hin].
    all: destruct rest; [| contradiction]; simpl; rewrite (IH Hin); simpl;
      try reflexivity.
    now rewrite (nonempty_conditions _ Hne).
Qed.

(** X9.  The pass removes selections and nothing else.  The nodes of the
    result that are no selections are those of the plan, in the same order
    and with the same contents, the state of a scan's extractor apart; the
    result is never longer than the plan. *)
Theorem predicatePushDown_keeps_nodes (p : PhysicalPlan) :
  forall predicates remained p',
    predicatePushDown p predicates = Ok (remained, p') ->
    map withoutExtractorState
      (filter (fun self => negb (isSelectionNode self)) (spine p'))
    = map withoutExtractorState
        (filter (fun self => negb (isSelectionNode self)) (spine p))
    /\ (List.length (spine p') <= List.length (spine p))%nat.
Proof.
  assert (Hscan : forall memTable children predicates remained p',
             predicatePushDown (Plan (PhysicalMemTable_ memTable) children)
               predicates = Ok (remained, p') ->
             map withoutExtractorState
               (filter (fun self => negb (isSelectionNode self)) (spine p'))
             = map withoutExtractorState
                 (filter (fun self => negb (isSelectionNode self))
                    (spine (Plan (PhysicalMemTable_ memTable) children)))
             /\ (List.length (spine p')
                 <= List.length
                      (spine (Plan (PhysicalMemTable_ memTable) children)))%nat).
  { intros memTable children predicates remained p'. cbn [predicatePushDown].
    destruct (Extractor memTable) as [ex |] eqn:Hex.
    - destruct (rebindColumns _ predicates) as [ps | |]; simpl;
        try discriminate.
      destruct (Extract ex (schema memTable) (fieldNames memTable) ps)
        as [ex' ps'].
      intros [= <- <-]. simpl. rewrite Hex. split; [reflexivity | lia].
    - intros [= <- <-]. split; [reflexivity | lia]. }
  induction p as [self | self child0 rest IH] using PhysicalPlan_first_child_ind;
    intros predicates remained p'; destruct self; try apply Hscan;
    cbn [predicatePushDown]; try discriminate;
    try (intros [= <- <-]; split; [reflexivity | lia]).
  - destruct (predicatePushDown child0 Conditions) as [[r c] | e |] eqn:E;
      simpl; try discriminate.
    destruct (IH _ _ _ E) as [Hnodes Hlen].
    destruct (0 <? List.length r)%nat; intros [= <- <-]; simpl;
      (split; [exact Hnodes | lia]).
  - destruct (predicatePushDown child0 []) as [[r c] | e |] eqn:E; simpl;
      try discriminate.
    destruct (IH _ _ _ E) as [Hnodes Hlen].
    intros [= <- <-]. simpl. split; [now rewrite Hnodes | lia].
  - destruct (predicatePushDown child0 []) as [[r c] | e |] eqn:E; simpl;
      try discriminate.
    destruct (IH _ _ _ E) as [Hnodes Hlen].
    intros [= <- <-]. simpl. split; [now rewrite Hnodes | lia].
  - destruct (predicatePushDown child0 []) as [[r c] | e |] eqn:E; simpl;
      try discriminate.
    destruct (IH _ _ _ E) as [Hnodes Hlen].
    intros [= <- <-]. simpl. split; [now rewrite Hnodes | lia].
  - destruct (predicatePushDown child0 []) as [[r c] | e |] eqn:E; simpl;
      try discriminate.
    destruct (IH _ _ _ E) as [Hnodes Hlen].
    intros [= <- <-]. simpl. split; [now rewrite Hnodes | lia].
  - destruct (predicatePushDown child0 []) as [[r c] | e |] eqn:E; simpl;
      try discriminate.
    destruct (IH _ _ _ E) as [Hnodes Hlen].
    intros [= <- <-]. simpl. split; [now rewrite Hnodes | lia].
Qed.

(** A selection without a child makes the pass panic when the pass comes
    to it. *)
Lemma predicatePushDown_bare_selection (p : PhysicalPlan) :
  reachesBareSelection p = true ->
  forall predicates, predicatePushDown p predicates = Panic.
Proof.
  induction p as [self | self child0 rest IH] using PhysicalPlan_first_child_ind;
    intros Hbare predicates.
  - destruct self; simpl in Hbare; try discriminate. reflexivity.
  - destruct self; simpl in Hbare; try discriminate;
      simpl; now rewrite (IH Hbare).
Qed.

(** The node a builder returns is of the executor's kind. *)
Lemma pbToPhysicalPlan_kind (e : tipb.Executor.t) (b b' : PBPlanBuilder)
    (p : PhysicalPlan) :
  pbToPhysicalPlan e b = (Ok p, b') ->
  isMemTableNode (Self p) = isTableScan (tipb.Executor.Tp e)
  /\ isSelectionNode (Self p)
     = match tipb.Executor.Tp e with
       | tipb.ExecType_TypeSelection => true
       | _ => false
       end.
Proof.
  unfold pbToPhysicalPlan. destruct (tipb.Executor.Tp e).
  - intros Hrun.
    destruct (pbToTableScan_node _ _ _ _ Hrun)
      as [tblScan [tbl [memTable [_ [_ [-> _]]]]]].
    now split.
  - unfold pbToSelection, panic, bind, lift, ret.
    destruct (tipb.Executor.Selection e); [| discriminate].
    destruct (PBToExprs _ _); try discriminate.
    intros [= <- <-]. now split.
  - unfold pbToTopN, panic, bind, lift, ret.
    destruct (tipb.Executor.TopN e); [| discriminate].
    destruct (mapO _ _); try discriminate.
    intros [= <- <-]. now split.
  - unfold pbToLimit, panic, ret.
    destruct (tipb.Executor.Limit e); [| discriminate].
    intros [= <- <-]. now split.
  - unfold pbToAgg, getAggInfo, panic.
    destruct (tipb.Executor.Aggregation e) as [agg |];
      [| unfold bind; discriminate].
    unfold bind, lift, ret.
    destruct (mapO _ (tipb.Aggregation.AggFunc agg)); try discriminate.
    destruct (PBToExprs _ _); try discriminate.
    simpl. rewrite buildAggSchema_spec. intros [= <- <-]. now split.
  - unfold pbToAgg, getAggInfo, panic.
    destruct (tipb.Executor.Aggregation e) as [agg |];
      [| unfold bind; discriminate].
    unfold bind, lift, ret.
    destruct (mapO _ (tipb.Aggregation.AggFunc agg)); try discriminate.
    destruct (PBToExprs _ _); try discriminate.
    simpl. rewrite buildAggSchema_spec. intros [= <- <-]. now split.
  - unfold pbToKill, panic, ret.
    destruct (tipb.Executor.Kill e); [| discriminate].
    intros [= <- <-]. now split.
  - discriminate.
Qed.

Lemma buildAll_no_scan (executors : list tipb.Executor.t) :
  forall b b' plans,
    forallb (fun e => negb (isTableScan (tipb.Executor.Tp e))) executors = true ->
    buildAll executors b = (Ok plans, b') ->
    Forall (fun p => isMemTableNode (Self p) = false) plans.
Proof.
  induction executors as [| e rest IH]; intros b b' plans Hno; simpl.
  - intros [= <- <-]. constructor.
  - simpl in Hno. apply andb_prop in Hno. destruct Hno as [He Hrest].
    unfold bind at 1.
    destruct (pbToPhysicalPlan e b) as [[p | err |] b1] eqn:Hp;
      try discriminate.
    unfold bind, ret.
    destruct (buildAll rest b1) as [[ps | err |] b2] eqn:Hps; try discriminate.
    intros [= <- <-]. constructor.
    + destruct (pbToPhysicalPlan_kind _ _ _ _ Hp) as [-> _].
      now apply negb_true_iff.
    + exact (IH _ _ _ Hrest Hps).
Qed.

Lemma chainOf_bare_selection (plans : list PhysicalPlan) :
  forall src,
    reachesBareSelection src = true ->
    Forall (fun p => isMemTableNode (Self p) = false) plans ->
    exists q, chainOf plans (Some src) = Some q
              /\ reachesBareSelection q = true.
Proof.
  induction plans as [| p ps IH]; intros src Hsrc Hno.
  - exists src. now split.
  - inversion Hno as [| p0 ps0 Hp Hps]. subst.
    change (chainOf (p :: ps) (Some src))
      with (chainOf ps (Some (SetChildren p [src]))).
    apply IH; [| exact Hps].
    destruct p as [[] children]; simpl in Hp; try discriminate; exact Hsrc.
Qed.

(** X10.  A request whose first executor is a selection and that has no
    table scan makes the build panic once every executor has been built:
    the selection is the lowest node of the chain, and the pass asks for
    its first child. *)
Theorem Build_selection_first (e : tipb.Executor.t)
    (rest : list tipb.Executor.t) (b b' : PBPlanBuilder)
    (plans : list PhysicalPlan) :
  tipb.Executor.Tp e = tipb.ExecType_TypeSelection ->
  forallb (fun e => negb (isTableScan (tipb.Executor.Tp e))) rest = true ->
  buildAll (e :: rest) b = (Ok plans, b') ->
  Build (e :: rest) b = (Panic, b').
Proof.
  intros Htp Hno Hall.
  unfold Build. unfold bind at 1. rewrite buildChain_buildAll, Hall.
  revert Hall. cbn [buildAll]. unfold bind at 1.
  destruct (pbToPhysicalPlan e b) as [[p | err |] b1] eqn:Hp; try discriminate.
  unfold bind, ret.
  destruct (buildAll rest b1) as [[ps | err |] b2] eqn:Hps; try discriminate.
  intros [= <- <-].
  destruct (pbToPhysicalPlan_kind _ _ _ _ Hp) as [_ Hsel]. rewrite Htp in Hsel.
  pose proof (pbToPhysicalPlan_no_children _ _ _ _ Hp) as Hleaf.
  assert (Hbare : reachesBareSelection p = true).
  { destruct p as [self children]. simpl in Hleaf, Hsel. subst children.
    destruct self; simpl in Hsel; try discriminate. reflexivity. }
  destruct (chainOf_bare_selection ps p Hbare (buildAll_no_scan _ _ _ _ Hno Hps))
    as [q [Hq Hqbare]].
  change (chainOf (p :: ps) None) with (chainOf ps (Some p)). rewrite Hq.
  unfold lift, predicatePushDownNilable.
  now rewrite (predicatePushDown_bare_selection q Hqbare).
Qed.

End WholePlanFacts.

(** A process-list scan, a selection and a limit: the pass changes
    nothing. *)
Lemma predicatePushDown_inert_witness :
  predicatePushDown (extractor := Sample.extractor) Sample.plain []
  = Ok ([], Sample.plain)
  /\ List.length (spine Sample.plain) = 3%nat.
Proof.
  split; [| vm_compute; reflexivity].
  apply (predicatePushDown_inert (extractor := Sample.extractor) Sample.plain).
  vm_compute. split; [discriminate | reflexivity].
Defined.

(** The slow-log chain whose selection keeps one condition: scan and limit
    stay, in this order. *)
Lemma predicatePushDown_keeps_nodes_witness :
  List.length
    (filter (fun self => negb (isSelectionNode self))
       (spine (Sample.pushedDown Sample.filtered)))
  = 2%nat
  /\ map withoutExtractorState
       (filter (fun self => negb (isSelectionNode self))
          (spine (Sample.pushedDown Sample.filtered)))
     = map withoutExtractorState
         (filter (fun self => negb (isSelectionNode self))
            (spine Sample.filtered)).
Proof.
  split; [vm_compute; reflexivity |].
  apply (predicatePushDown_keeps_nodes (extractor := Sample.extractor)
           Sample.filtered [] [] (Sample.pushedDown Sample.filtered)).
  vm_compute. reflexivity.
Defined.

(** A selection and a limit, no scan: both are built, then the pass
    panics. *)
Lemma Build_selection_first_witness :
  Build (strs := Sample.strs) (codec := Sample.codec) (decoder := Sample.decoder)
    (extractor := Sample.extractor) Sample.selectionFirst (Sample.builder None)
  = (Panic, Sample.builder None).
Proof.
  apply (Build_selection_first (strs := Sample.strs) (codec := Sample.codec)
           (decoder := Sample.decoder) (extractor := Sample.extractor)
           (Sample.selection [Sample.const 1]) [Sample.limit 10]
           (Sample.builder None) (Sample.builder None)
           [Plan (PhysicalSelection [expression.Constant 1]) [];
            Plan (PhysicalLimit 10) []]).
  - reflexivity.
  - reflexivity.
  - vm_compute. reflexivity.
Defined.

(** ** Requests out of catalog order *)

Section OrderFacts.

Context {codec : RowCodec} {decoder : ExprDecoder}
        {extractor : MemTablePredicateExtractor} {strs : Strings}.

Lemma same_id_same_column (tblColumns : list model.ColumnInfo.t)
    (c c' : model.ColumnInfo.t) :
  NoDup (map model.ColumnInfo.ID tblColumns) ->
  In c tblColumns -> In c' tblColumns ->
  model.ColumnInfo.ID c = model.ColumnInfo.ID c' -> c = c'.
Proof.
  induction tblColumns as [| col rest IH]; simpl; [intros _ [] |].
  intros Hnd Hc Hc' Hid. inversion Hnd as [| x l Hnotin Hnd']. subst.
  destruct Hc as [<- | Hc], Hc' as [<- | Hc'].
  - reflexivity.
  - exfalso. apply Hnotin. rewrite Hid. now apply in_map.
  - exfalso. apply Hnotin. rewrite <- Hid. now apply in_map.
  - now apply IH.
Qed.

Lemma same_ids_same_columns (tblColumns : list model.ColumnInfo.t) :
  NoDup (map model.ColumnInfo.ID tblColumns) ->
  forall l l',
    Forall (fun c => In c tblColumns) l ->
    Forall (fun c => In c tblColumns) l' ->
    map model.ColumnInfo.ID l = map model.ColumnInfo.ID l' -> l = l'.
Proof.
  intros Hnd. induction l as [| c l IH]; intros [| c' l'] Hl Hl' Hids;
    try discriminate; [reflexivity |].
  inversion Hl. inversion Hl'. subst. injection Hids as Hid Hids.
  f_equal; [now apply (same_id_same_column tblColumns) | now apply IH].
Qed.

Lemma catalogOrder_In (tblColumns columns : list model.ColumnInfo.t)
    (c : model.ColumnInfo.t) :
  In c (catalogOrder tblColumns columns) -> In c tblColumns.
Proof.
  unfold catalogOrder. rewrite in_flat_map. intros [col [Hcol Hin]].
  apply in_map_iff in Hin. now destruct Hin as [_ [<- _]].
Qed.

Lemma at_most_one_request (x : Z) (columns : list model.ColumnInfo.t) :
  NoDup (map model.ColumnInfo.ID columns) ->
  (List.length
     (filter (fun colInfo => Z.eqb x (model.ColumnInfo.ID colInfo)) columns)
   <= 1)%nat.
Proof.
  induction columns as [| c rest IH]; simpl; [lia |].
  intros Hnd. inversion Hnd as [| y l Hnotin Hnd']. subst.
  destruct (Z.eqb_spec x (model.ColumnInfo.ID c)) as [-> | _];
    [| now apply IH].
  assert (Hnone : filter (fun colInfo =>
                            model.ColumnInfo.ID c =? model.ColumnInfo.ID colInfo)
                    rest = []).
  { clear IH Hnd Hnd'. induction rest as [| d rest IHr]; simpl; [reflexivity |].
    destruct (Z.eqb_spec (model.ColumnInfo.ID c) (model.ColumnInfo.ID d))
      as [Heq | _].
    - exfalso. apply Hnotin. left. now rewrite Heq.
    - apply IHr. intros Hin. apply Hnotin. now right. }
  rewrite Hnone. simpl. lia.
Qed.

(** With no id requested twice, what the schema is built from is the
    catalog's list with some columns left out. *)
Lemma catalogOrder_is_subsequence (tblColumns columns : list model.ColumnInfo.t) :
  NoDup (map model.ColumnInfo.ID columns) ->
  subsequence (catalogOrder tblColumns columns) tblColumns.
Proof.
  intros Hnd. unfold catalogOrder.
  induction tblColumns as [| col rest IH]; cbn [flat_map]; [constructor |].
  pose proof (at_most_one_request (model.ColumnInfo.ID col) columns Hnd) as Hle.
  destruct (filter _ columns) as [| x [| y l]]; simpl in *.
  - now constructor.
  - now constructor.
  - lia.
Qed.

(** X11.  A request that is not in catalog order gets a schema that is not
    in request order.  With pairwise different ids in the catalog and in
    the request, the schema still has one column per requested column, but
    at some position it holds another column than the request does: the
    scan's columns and field names follow the request, its schema the
    catalog. *)
Theorem buildTableScanSchema_out_of_order (tblInfo : model.TableInfo.t)
    (columns : list model.ColumnInfo.t) (b : PBPlanBuilder) :
  NoDup (map model.ColumnInfo.ID (model.TableInfo.Columns tblInfo)) ->
  NoDup (map model.ColumnInfo.ID columns) ->
  Forall (fun c => In c (model.TableInfo.Columns tblInfo)) columns ->
  ~ subsequence columns (model.TableInfo.Columns tblInfo) ->
  exists schema,
    buildTableScanSchema tblInfo columns b
      = (Ok schema, afterAlloc b (List.length columns))
    /\ List.length (expression.Columns schema) = List.length columns
    /\ map expression.ID (expression.Columns schema)
       <> map model.ColumnInfo.ID columns.
Proof.
  intros Hcat Hreq Hin Hout.
  exists (expression.mkSchema
            (scanColumnsFrom (variable.PlanColumnID (sctx b))
               (catalogOrder (model.TableInfo.Columns tblInfo) columns))).
  unfold buildTableScanSchema. rewrite buildTableScanSchemaFrom_spec.
  rewrite (catalogOrder_length _ _ Hcat Hin). simpl.
  split; [reflexivity |]. split.
  - rewrite <- (length_map expression.ID), scanColumnsFrom_ID, length_map.
    exact (catalogOrder_length _ _ Hcat Hin).
  - rewrite scanColumnsFrom_ID. intros Hids. apply Hout.
    rewrite <- (same_ids_same_columns _ Hcat _ _
                  (proj2 (Forall_forall _ _)
                     (fun c => catalogOrder_In _ columns c))
                  Hin Hids).
    now apply catalogOrder_is_subsequence.
Qed.

Lemma mapO_cases {A B : Type} (f : A -> Outcome B) (xs : list A) :
  match mapO f xs with
  | Ok ys => Forall2 (fun x y => f x = Ok y) xs ys
  | Err err =>
      exists done x rest,
        xs = done ++ x :: rest
        /\ Forall (fun x => exists y, f x = Ok y) done
        /\ f x = Err err
  | Panic =>
      exists done x rest,
        xs = done ++ x :: rest
        /\ Forall (fun x => exists y, f x = Ok y) done
        /\ f x = Panic
  end.
Proof.
  induction xs as [| x rest IH]; simpl; [constructor |].
  destruct (f x) as [y | err |] eqn:Hx; simpl.
  - destruct (mapO f rest) as [ys | err |]; simpl.
    + now constructor.
    + destruct IH as [done [x' [rest' [-> [Hdone Hx']]]]].
      exists (x :: done), x', rest'. split; [reflexivity |].
      split; [constructor; [now exists y | exact Hdone] | exact Hx'].
    + destruct IH as [done [x' [rest' [-> [Hdone Hx']]]]].
      exists (x :: done), x', rest'. split; [reflexivity |].
      split; [constructor; [now exists y | exact Hdone] | exact Hx'].
  - exists [], x, rest. split; [reflexivity |]. split; [constructor | exact Hx].
  - exists [], x, rest. split; [reflexivity |]. split; [constructor | exact Hx].
Qed.

(** X12.  The order-by items of a top-n node are the executor's, in the
    executor's order: each expression decoded against the builder's type
    context, each with its own descending flag, and the count is the
    executor's limit.  When an item's expression does not decode, the
    error is that of the first such item.  The builder is not changed. *)
Theorem pbToTopN_items (e : tipb.Executor.t) (topN : tipb.TopN.t)
    (b b' : PBPlanBuilder) (o : Outcome PhysicalPlan) :
  tipb.Executor.TopN e = Some topN ->
  pbToTopN e b = (o, b') ->
  b' = b
  /\ match o with
     | Ok p =>
         exists byItems,
           p = Plan (PhysicalTopN byItems (tipb.TopN.Limit topN)) []
           /\ Forall2
                (fun item byItem =>
                   PBToExpr (tipb.ByItem.Expr item) (tps b)
                   = Ok (util.Expr byItem)
                   /\ util.Desc byItem = tipb.ByItem.Desc item)
                (tipb.TopN.OrderBy topN) byItems
     | Err err =>
         exists done item rest,
           tipb.TopN.OrderBy topN = done ++ item :: rest
           /\ Forall (fun item =>
                        exists expr,
                          PBToExpr (tipb.ByItem.Expr item) (tps b) = Ok expr)
                done
           /\ PBToExpr (tipb.ByItem.Expr item) (tps b) = Err err
     | Panic =>
         exists item,
           In item (tipb.TopN.OrderBy topN)
           /\ PBToExpr (tipb.ByItem.Expr item) (tps b) = Panic
     end.
Proof.
  intros HtopN. unfold pbToTopN. rewrite HtopN. unfold bind, lift, ret.
  pose proof (mapO_cases
                (fun item =>
                   bindO (PBToExpr (tipb.ByItem.Expr item) (tps b)) (fun expr =>
                   Ok (util.mkByItems expr (tipb.ByItem.Desc item))))
                (tipb.TopN.OrderBy topN)) as Hcases.
  assert (Hdone : forall done,
             Forall (fun x =>
                       exists y,
                         bindO (PBToExpr (tipb.ByItem.Expr x) (tps b))
                           (fun expr =>
                              Ok (util.mkByItems expr (tipb.ByItem.Desc x)))
                         = Ok y) done ->
             Forall (fun item =>
                       exists expr,
                         PBToExpr (tipb.ByItem.Expr item) (tps b) = Ok expr)
               done).
  { intros done H. eapply Forall_impl; [| exact H].
    intros item [y Hy]. simpl in Hy.
    destruct (PBToExpr (tipb.ByItem.Expr item) (tps b)) as [expr | |];
      try discriminate.
    now exists expr. }
  destruct (mapO _ (tipb.TopN.OrderBy topN)) as [byItems | err |];
    intros [= <- <-]; (split; [reflexivity |]).
  - exists byItems. split; [reflexivity |].
    eapply Forall2_impl; [| exact Hcases].
    intros item byItem Hitem. simpl in Hitem.
    destruct (PBToExpr (tipb.ByItem.Expr item) (tps b)) as [expr | |];
      try discriminate.
    injection Hitem as <-. now split.
  - destruct Hcases as [done [item [rest [Horder [Hok Hitem]]]]].
    exists done, item, rest. split; [exact Horder |].
    split; [now apply Hdone |].
    destruct (PBToExpr (tipb.ByItem.Expr item) (tps b)) as [expr | err' |];
      try discriminate.
    simpl in Hitem. now injection Hitem as ->.
  - destruct Hcases as [done [item [rest [Horder [_ Hitem]]]]].
    exists item. split; [rewrite Horder; apply in_elt |].
    simpl in Hitem.
    destruct (PBToExpr (tipb.ByItem.Expr item) (tps b)) as [expr | |];
      try discriminate.
    reflexivity.
Qed.

End OrderFacts.

(** The two columns of the process-list table asked for in reverse: the
    schema starts with the column of id 1, the request with that of
    id 2. *)
Lemma buildTableScanSchema_out_of_order_witness :
  exists schema,
    fst (buildTableScanSchema Sample.processInfo
           [model.ColumnInfo.mk 2 (Sample.ci "info") Sample.textType;
            model.ColumnInfo.mk 1 (Sample.ci "id") Sample.bigintType]
           (Sample.builder None))
    = Ok schema
    /\ map expression.ID (expression.Columns schema) <> [2; 1].
Proof.
  destruct (buildTableScanSchema_out_of_order Sample.processInfo
              [model.ColumnInfo.mk 2 (Sample.ci "info") Sample.textType;
               model.ColumnInfo.mk 1 (Sample.ci "id") Sample.bigintType]
              (Sample.builder None))
    as [schema [Hrun [_ Hids]]].
  - simpl. repeat constructor; simpl; intuition discriminate.
  - simpl. repeat constructor; simpl; intuition discriminate.
  - repeat (apply Forall_cons; [simpl; auto |]). apply Forall_nil.
  - simpl. intros H.
    repeat match goal with
           | H : subsequence _ _ |- _ => inversion H; clear H; subst
           end.
  - exists schema. rewrite Hrun. split; [reflexivity | exact Hids].
Defined.

(** Two order-by items above the slow-log scan, the second descending. *)
Lemma pbToTopN_items_witness :
  exists byItems,
    fst (pbToTopN (decoder := Sample.decoder) (extractor := Sample.extractor)
           (Sample.topN [(Sample.colRef 1, false); (Sample.colRef 0, true)] 5)
           (snd (pbToTableScan (strs := Sample.strs) (codec := Sample.codec)
                   (extractor := Sample.extractor)
                   (Sample.scan 1 [1; 2; 3]) (Sample.builder None))))
    = Ok (Plan (PhysicalTopN byItems 5) [])
    /\ map util.Desc byItems = [false; true].
Proof.
  pose proof (pbToTopN_items (decoder := Sample.decoder)
                (extractor := Sample.extractor)
                (Sample.topN [(Sample.colRef 1, false); (Sample.colRef 0, true)] 5)
                (tipb.TopN.mk
                   [tipb.ByItem.mk (Sample.colRef 1) false;
                    tipb.ByItem.mk (Sample.colRef 0) true] 5)
                (snd (pbToTableScan (strs := Sample.strs) (codec := Sample.codec)
                        (extractor := Sample.extractor)
                        (Sample.scan 1 [1; 2; 3]) (Sample.builder None)))
                _ _ eq_refl (surjective_pairing _)) as [_ Hitems].
  destruct (fst (pbToTopN _ _)) as [p | |] eqn:Hfst; try (vm_compute in Hfst; discriminate Hfst).
  destruct Hitems as [byItems [-> Hall]].
  exists byItems. split; [reflexivity |].
  inversion Hall as [| i1 b1 l1 l1' [_ H1] Hall1]. subst.
  inversion Hall1 as [| i2 b2 l2 l2' [_ H2] Hall2]. subst.
  inversion Hall2. subst. simpl. now rewrite H1, H2.
Defined.

(** ** Builds over a table without extractor *)

Section PlainScanFacts.

Context {codec : RowCodec} {decoder : ExprDecoder}
        {extractor : MemTablePredicateExtractor} {strs : Strings}.

(** Nodes that are no scans, set on top of a plan the pass returns as it
    is, give a plan the pass returns as it is, as long as every selection
    among them has a condition. *)
Lemma chainOf_fixed (plans : list PhysicalPlan) :
  forall src,
    (forall predicates,
        predicatePushDown src predicates = Ok (predicates, src)) ->
    Forall (fun p => isMemTableNode (Self p) = false) plans ->
    Forall (fun p => isSelectionNode (Self p) = true ->
                     ownConditions (Self p) <> []) plans ->
    exists q,
      chainOf plans (Some src) = Some q
      /\ forall predicates, predicatePushDown q predicates = Ok (predicates, q).
Proof.
  induction plans as [| p ps IH]; intros src Hsrc Hno Hconds.
  - exists src. now split.
  - inversion Hno as [| p0 ps0 Hp Hps]. inversion Hconds as [| p1 ps1 Hc Hcs].
    subst.
    change (chainOf (p :: ps) (Some src))
      with (chainOf ps (Some (SetChildren p [src]))).
    apply IH; [| exact Hps | exact Hcs].
    intros predicates.
    destruct p as [[] children]; simpl in *; try discriminate;
      rewrite Hsrc; simpl; try reflexivity.
    now rewrite (nonempty_conditions _ (Hc eq_refl)).
Qed.

(** X13.  Above a scan of a table other than the slow-log table the build
    returns the chain as the builders assembled it: when no other executor
    is a scan and every selection has a condition, the push-down pass
    removes no node and moves no predicate. *)
Theorem Build_plain_scan (e : tipb.Executor.t) (rest : list tipb.Executor.t)
    (b b' : PBPlanBuilder) (plans : list PhysicalPlan)
    (tblScan : tipb.TableScan.t) (tbl : infoschema.Table) :
  tipb.Executor.Tp e = tipb.ExecType_TypeTableScan ->
  tipb.Executor.TblScan e = Some tblScan ->
  infoschema.TableByID (is_ b) (tipb.TableScan.TableId tblScan) = Some tbl ->
  isSlowLog (infoschema.Meta tbl) = false ->
  forallb (fun e => negb (isTableScan (tipb.Executor.Tp e))) rest = true ->
  buildAll (e :: rest) b = (Ok plans, b') ->
  Forall (fun p => isSelectionNode (Self p) = true ->
                   ownConditions (Self p) <> []) plans ->
  Build (e :: rest) b = (Ok (chainOf plans None), b').
Proof.
  intros Htp Hscan Htbl Hslow Hno Hall Hconds.
  unfold Build. unfold bind at 1. rewrite buildChain_buildAll, Hall.
  revert Hall. cbn [buildAll]. unfold bind at 1.
  destruct (pbToPhysicalPlan e b) as [[p | err |] b1] eqn:Hp; try discriminate.
  unfold bind, ret.
  destruct (buildAll rest b1) as [[ps | err |] b2] eqn:Hps; try discriminate.
  intros [= <- <-].
  assert (Hfixed : forall predicates,
             predicatePushDown p predicates = Ok (predicates, p)).
  { unfold pbToPhysicalPlan in Hp. rewrite Htp in Hp.
    destruct (pbToTableScan_node _ _ _ _ Hp)
      as [tblScan' [tbl' [memTable [Hscan' [Htbl' [-> Hnone]]]]]].
    rewrite Hscan in Hscan'. injection Hscan' as <-.
    rewrite Htbl in Htbl'. injection Htbl' as <-.
    intros predicates. simpl. now rewrite (Hnone Hslow). }
  inversion Hconds as [| p0 ps0 _ Hcs]. subst.
  destruct (chainOf_fixed ps p Hfixed (buildAll_no_scan _ _ _ _ Hno Hps) Hcs)
    as [q [Hq Hqfixed]].
  change (chainOf (p :: ps) None) with (chainOf ps (Some p)). rewrite Hq.
  unfold lift, predicatePushDownNilable.
  now rewrite Hqfixed.
Qed.

End PlainScanFacts.

(** A process-list scan, a selection with one condition and a limit: the
    build returns the three nodes, the limit on top. *)
Lemma Build_plain_scan_witness :
  Build (strs := Sample.strs) (codec := Sample.codec) (decoder := Sample.decoder)
    (extractor := Sample.extractor)
    [Sample.scan 2 [1; 2]; Sample.selection [Sample.eq 0 7]; Sample.limit 10]
    (Sample.builder None)
  = (Ok (Some Sample.plain),
     snd (buildAll (strs := Sample.strs) (codec := Sample.codec) (decoder := Sample.decoder)
            (extractor := Sample.extractor)
            [Sample.scan 2 [1; 2]; Sample.selection [Sample.eq 0 7];
             Sample.limit 10]
            (Sample.builder None))).
Proof.
  change (Some Sample.plain)
    with (chainOf
            (Sample.built
               [Sample.scan 2 [1; 2]; Sample.selection [Sample.eq 0 7];
                Sample.limit 10]) None).
  apply (Build_plain_scan (strs := Sample.strs) (codec := Sample.codec) (decoder := Sample.decoder)
           (extractor := Sample.extractor) (Sample.scan 2 [1; 2])
           [Sample.selection [Sample.eq 0 7]; Sample.limit 10]
           (Sample.builder None) _ _
           (tipb.TableScan.mk 2 (map tipb.ColumnInfo.mk [1; 2]) false)
           (infoschema.mkTable Sample.processInfo true)).
  - reflexivity.
  - reflexivity.
  - reflexivity.
  - vm_compute. reflexivity.
  - reflexivity.
  - vm_compute. reflexivity.
  - vm_compute. repeat constructor; intros; discriminate.
Defined.

(** ** The ranges the decoder keeps *)

Section KeptRangeFacts.

Context {codec : RowCodec}.

(** X2.  The decoder decodes exactly the ranges whose start key is long
    enough, in input order, both bounds of each, up to the first bound that
    does not decode; the end key's length is not looked at.  When it
    returns, it returns one pair per such range. *)
Theorem decodeTimeRanges_by_start_key (keyRanges : list coprocessor.KeyRange) :
  decodeTimeRanges keyRanges
  = mapO decodePair (filter passesLengthCheck keyRanges)
  /\ (forall trs,
        decodeTimeRanges keyRanges = Ok trs ->
        List.length trs = List.length (filter passesLengthCheck keyRanges)).
Proof.
  assert (Hloop : forall krs,
             decodeTimeRangesFrom keyRanges krs
             = bindO (mapO decodePair (filter passesLengthCheck keyRanges))
                 (fun out => Ok (krs ++ out)))
    by apply decodeTimeRangesFrom_acc.
  assert (Hall : decodeTimeRanges keyRanges
                 = mapO decodePair (filter passesLengthCheck keyRanges)).
  { unfold decodeTimeRanges. rewrite Hloop.
    now destruct (mapO decodePair (filter passesLengthCheck keyRanges)). }
  split; [exact Hall |].
  intros trs Hdec. rewrite Hall in Hdec. exact (mapO_length _ _ _ Hdec).
Qed.

End KeptRangeFacts.

(** ** The decoder within the build of a scan *)

Section DecoderInBuildFacts.

Context {codec : RowCodec} {decoder : ExprDecoder}
        {extractor : MemTablePredicateExtractor} {strs : Strings}.

(** What the scan's builder does with the decoder's answer. *)
Lemma pbToTableScan_decodes (e : tipb.Executor.t) (b : PBPlanBuilder)
    (keyRanges : list coprocessor.KeyRange) :
  scansSlowLog e b ->
  ranges b = Some keyRanges ->
  exists b',
    (forall err,
        decodeTimeRanges keyRanges = Err err ->
        pbToTableScan e b = (Err err, b'))
    /\ (forall trs,
          decodeTimeRanges keyRanges = Ok trs ->
          exists p, pbToTableScan e b = (Ok p, b')).
Proof.
  intros [_ [tblScan [tbl [Hscan [Htbl [Hdb [Hcl [Hall Hslow]]]]]]]] Hranges.
  destruct (infoschema.SchemaByTable (is_ b) (infoschema.Meta tbl))
    as [dbInfo |] eqn:Hdb'; [| congruence].
  destruct (convertColumnInfo_resolvable _ _ b Hall) as [columns [Hcols _]].
  pose proof (pbToTableScan_found _ _ _ _ _ _ Hscan Htbl Hdb' Hcl Hcols) as Hrun.
  cbv zeta in Hrun. rewrite Hslow, Hranges in Hrun.
  eexists. split.
  - intros err Hdec. rewrite Hdec in Hrun. exact Hrun.
  - intros trs Hdec. rewrite Hdec in Hrun. eexists. exact Hrun.
Qed.

(** C1, as the code has it.  A row key that fails to decode, on the start
    or the end side of a range that passes the length check, is not fatal:
    that side's time is 0 and the remaining ranges are decoded, and the
    call returns without error whenever every row key that does decode
    yields a handle whose first column decodes as a time.  A handle whose
    column does not decode is fatal: the error of the first such bound is
    what the call returns.  The build of a slow-log scan whose builder
    holds these key ranges returns a scan when the decoder returns its
    ranges, and fails with the decoder's error when the decoder fails, and
    so does the build of every request that starts with this scan. *)
Theorem decodeTimeRanges_row_key_failure_not_fatal
    (keyRanges : list coprocessor.KeyRange) :
  ((forall kr, In kr keyRanges -> passesLengthCheck kr = true ->
      boundDecodes (coprocessor.Start kr) /\ boundDecodes (coprocessor.End kr)) ->
   decodeTimeRanges keyRanges =
     Ok (map (fun kr => (boundTime (coprocessor.Start kr),
                         boundTime (coprocessor.End kr)))
           (filter passesLengthCheck keyRanges)))
  /\ (forall key e, DecodeRowKey key = Err e ->
        decodeBound key = Ok 0 /\ boundTime key = 0)
  /\ (forall key handle e,
        DecodeRowKey key = Ok handle -> decodeToTime handle = Err e ->
        decodeBound key = Err e)
  /\ (forall pre kr post e,
        keyRanges = pre ++ kr :: post ->
        (forall kr', In kr' pre -> passesLengthCheck kr' = true ->
           boundDecodes (coprocessor.Start kr')
           /\ boundDecodes (coprocessor.End kr')) ->
        passesLengthCheck kr = true ->
        decodePair kr = Err e ->
        decodeTimeRanges keyRanges = Err e)
  /\ (forall e rest b,
        scansSlowLog e b ->
        ranges b = Some keyRanges ->
        exists b',
          (forall err,
              decodeTimeRanges keyRanges = Err err ->
              pbToTableScan e b = (Err err, b')
              /\ Build (e :: rest) b = (Err err, b'))
          /\ (forall trs,
                decodeTimeRanges keyRanges = Ok trs ->
                exists p, pbToTableScan e b = (Ok p, b'))).
Proof.
  destruct (decodeTimeRanges_bound_failures keyRanges) as [H1 [H2 [H3 H4]]].
  split; [exact H1 |]. split; [exact H2 |]. split; [exact H3 |].
  split; [exact H4 |].
  intros e rest b Hslow Hranges.
  destruct (pbToTableScan_decodes e b keyRanges Hslow Hranges)
    as [b' [Hfail Hok]].
  exists b'. split; [| exact Hok].
  intros err Hdec. split; [exact (Hfail err Hdec) |].
  apply Build_first_error. unfold pbToPhysicalPlan.
  destruct Hslow as [-> _]. exact (Hfail err Hdec).
Qed.

End DecoderInBuildFacts.

(** A start key that is no row key, an end key whose row key decodes, and a
    range too short to be looked at: no error, 0 on the failing side, and
    the slow-log scan is built. *)
Lemma decodeTimeRanges_row_key_failure_witness :
  let keyRanges :=
    [ coprocessor.mkKeyRange Sample.foreignKey (Sample.timeKey Byte.x09);
      coprocessor.mkKeyRange [] (Sample.timeKey Byte.x09);
      coprocessor.mkKeyRange (Sample.timeKey Byte.x05) Sample.foreignKey ] in
  decodeTimeRanges (codec := Sample.codec) keyRanges
  = Ok [ (0, 1577836809000000000); (1577836805000000000, 0) ]
  /\ exists p,
       fst (pbToTableScan (strs := Sample.strs) (codec := Sample.codec)
              (extractor := Sample.extractor)
              (Sample.scan 1 [1; 2; 3]) (Sample.builder (Some keyRanges)))
       = Ok p.
Proof.
  cbv zeta.
  destruct (decodeTimeRanges_row_key_failure_not_fatal
              (codec := Sample.codec) (decoder := Sample.decoder)
              (extractor := Sample.extractor) (strs := Sample.strs)
              [ coprocessor.mkKeyRange Sample.foreignKey (Sample.timeKey Byte.x09);
                coprocessor.mkKeyRange [] (Sample.timeKey Byte.x09);
                coprocessor.mkKeyRange (Sample.timeKey Byte.x05)
                  Sample.foreignKey ])
    as [Hok [_ [_ [_ Hbuild]]]].
  assert (Hdec : decodeTimeRanges (codec := Sample.codec)
                   [ coprocessor.mkKeyRange Sample.foreignKey
                       (Sample.timeKey Byte.x09);
                     coprocessor.mkKeyRange [] (Sample.timeKey Byte.x09);
                     coprocessor.mkKeyRange (Sample.timeKey Byte.x05)
                       Sample.foreignKey ]
                 = Ok [ (0, 1577836809000000000); (1577836805000000000, 0) ]).
  { refine (eq_trans (Hok _) _).
    - intros kr [<- | [<- | [<- | []]]]; intros _; split;
        cbv; try exact I; eexists; reflexivity.
    - vm_compute. reflexivity. }
  split; [exact Hdec |].
  destruct (Hbuild (Sample.scan 1 [1; 2; 3]) []
              (Sample.builder
                 (Some
                    [ coprocessor.mkKeyRange Sample.foreignKey
                        (Sample.timeKey Byte.x09);
                      coprocessor.mkKeyRange [] (Sample.timeKey Byte.x09);
                      coprocessor.mkKeyRange (Sample.timeKey Byte.x05)
                        Sample.foreignKey ])))
    as [b' [_ Hbuilt]].
  - split; [reflexivity |].
    exists (tipb.TableScan.mk 1 (map tipb.ColumnInfo.mk [1; 2; 3]) false),
           (infoschema.mkTable Sample.slowLogInfo true).
    split; [reflexivity |]. split; [reflexivity |].
    split; [discriminate |]. split; [reflexivity |].
    split; [| vm_compute; reflexivity].
    intros col [<- | [<- | [<- | []]]].
    + exists (model.ColumnInfo.mk 1 (Sample.ci "conn_id") Sample.bigintType).
      split; [simpl; auto | reflexivity].
    + exists (model.ColumnInfo.mk 2 (Sample.ci "time") Sample.datetimeType).
      split; [simpl; auto | reflexivity].
    + exists (model.ColumnInfo.mk 3 (Sample.ci "query") Sample.textType).
      split; [simpl; auto | reflexivity].
  - reflexivity.
  - destruct (Hbuilt _ Hdec) as [p Hp]. exists p. now rewrite Hp.
Defined.
